(** * FishRemef: the batch-rename engine of [src/main.py]

    A shallow embedding of the rename-planning and execution code of the
    application: filename cleanup ([clean_filename], [post_process_cleanup]),
    name synthesis ([generate_new_names]), conflict detection
    ([check_conflicts]) and the background worker ([RenameWorker.run]), and
    of what leads to them: the scan of the folder ([scan_files]), filtering
    and sorting ([filter_and_sort_files]), the selection
    ([get_selected_files]) and the start of the worker ([execute_rename],
    [start_rename_process]).

    Conventions.
    - A Python [str] is the list of its characters, and a character is its
      Unicode code point, a number of type [N]: [len] is [length], and a
      character outside ASCII is one element. The [str] that a literal of
      the source denotes is written [utf8 "..."].
    - A [pathlib.Path] is the list of its components ([parts]); the last
      component is the file name.
    - The file system is a finite map from paths to regular files.
    - Library services whose results the engine only passes along (the
      regular-expression engine behind [re.sub], [strftime], the rendering of
      floats, the formatting mini-language of [str.format]) are fields of the
      class [PyLib]; failures of the operating system are an oracle
      [OsFaults], and those of the standard output an oracle [Stdout]. The
      lower-casing of strings, [str.lower], is the class [PyCase].
    - Exceptions are values of [Exn]; code that can raise returns a [Try]. *)

From Stdlib Require Import ZArith Ascii String Floats Uint63 Lia.
From stdpp Require Import gmap strings list fin_maps pretty.

Local Open Scope Z_scope.
Local Open Scope nat_scope.

(** ** Exceptions *)

(** The exception classes that occur; every one of them derives from
    [Exception], so [except Exception] catches each value of [Exn].
    [ReError] is [re.error]. *)
Inductive Exn : Type :=
  | KeyError
  | ValueError
  | IndexError
  | AttributeError
  | TypeError
  | OverflowError
  | RecursionError
  | MemoryError
  | ZeroDivisionError
  | UnicodeEncodeError
  | FileNotFoundError
  | OSError
  | ReError.

Inductive Try (A : Type) : Type :=
  | Ok (a : A)
  | Raised (e : Exn).
Arguments Ok {A} a.
Arguments Raised {A} e.

#[export] Instance Exn_eq_dec : EqDecision Exn.
Proof. solve_decision. Defined.

(** ** Python strings *)

Abbreviation str := (list N).

(** The characters that a sequence of UTF-8 bytes encodes. *)
Fixpoint utf8_decode (bytes : list N) : str :=
  match bytes with
  | [] => []
  | b :: rest =>
      if (b <? 128)%N then b :: utf8_decode rest
      else if (b <? 224)%N then
        match rest with
        | b1 :: rest' =>
            ((b - 192) * 64 + (b1 - 128))%N :: utf8_decode rest'
        | _ => [b]
        end
      else if (b <? 240)%N then
        match rest with
        | b1 :: b2 :: rest' =>
            ((b - 224) * 4096 + (b1 - 128) * 64 + (b2 - 128))%N
              :: utf8_decode rest'
        | _ => [b]
        end
      else
        match rest with
        | b1 :: b2 :: b3 :: rest' =>
            ((b - 240) * 262144 + (b1 - 128) * 4096 + (b2 - 128) * 64
             + (b3 - 128))%N :: utf8_decode rest'
        | _ => [b]
        end
  end.

(** The [str] of a literal, which this file holds in UTF-8. *)
Definition utf8 (literal : string) : str :=
  utf8_decode (N_of_ascii <$> list_ascii_of_string literal).

(** The code point of an ASCII character. *)
Definition ch (c : ascii) : N := N_of_ascii c.

Module PyStr.

(** [c.isspace()], which is also the class [\s] of [re] for [str]
    patterns. *)
Definition isspace (c : N) : bool :=
  ((9 <=? c) && (c <=? 13) || (28 <=? c) && (c <=? 32)
   || (c =? 133) || (c =? 160) || (c =? 5760)
   || (8192 <=? c) && (c <=? 8202) || (c =? 8232) || (c =? 8233)
   || (c =? 8239) || (c =? 8287) || (c =? 12288))%N.

(** The decimal digits of Unicode 14, as runs [(first, count)] of
    consecutive characters; each run starts at a digit zero and counts up
    through the ten digits, again and again. *)
Definition decimal_runs : list (N * N) :=
  [ (48, 10); (1632, 10); (1776, 10); (1984, 10); (2406, 10); (2534, 10);
    (2662, 10); (2790, 10); (2918, 10); (3046, 10); (3174, 10); (3302, 10);
    (3430, 10); (3558, 10); (3664, 10); (3792, 10); (3872, 10); (4160, 10);
    (4240, 10); (6112, 10); (6160, 10); (6470, 10); (6608, 10); (6784, 10);
    (6800, 10); (6992, 10); (7088, 10); (7232, 10); (7248, 10); (42528, 10);
    (43216, 10); (43264, 10); (43472, 10); (43504, 10); (43600, 10);
    (44016, 10); (65296, 10); (66720, 10); (68912, 10); (69734, 10);
    (69872, 10); (69942, 10); (70096, 10); (70384, 10); (70736, 10);
    (70864, 10); (71248, 10); (71360, 10); (71472, 10); (71904, 10);
    (72016, 10); (72784, 10); (73040, 10); (73120, 10); (92768, 10);
    (92864, 10); (93008, 10); (120782, 50); (123200, 10); (123632, 10);
    (125264, 10); (130032, 10) ]%N.

(** [Py_UNICODE_TODECIMAL]: the value of a decimal digit. *)
Definition decimal (c : N) : option N :=
  match List.find (fun run => (run.1 <=? c) && (c <? run.1 + run.2))%N
                  decimal_runs with
  | Some run => Some ((c - run.1) mod 10)%N
  | None => None
  end.

Fixpoint lstrip_by (p : N -> bool) (s : str) : str :=
  match s with
  | [] => []
  | c :: s' => if p c then lstrip_by p s' else s
  end.

Fixpoint rstrip_by (p : N -> bool) (s : str) : str :=
  match s with
  | [] => []
  | c :: s' =>
      match rstrip_by p s' with
      | [] => if p c then [] else [c]
      | t => c :: t
      end
  end.

Definition strip_by (p : N -> bool) (s : str) : str :=
  rstrip_by p (lstrip_by p s).

(** [s.strip()] *)
Definition strip (s : str) : str := strip_by isspace s.

(** [s.lstrip('.')] *)
Definition lstrip_dots (s : str) : str :=
  lstrip_by (fun c => bool_decide (c = ch ".")) s.

(** [s.split('\n')]: [cur] is the current line, reversed. *)
Fixpoint split_lines_go (cur : str) (s : str) : list str :=
  match s with
  | [] => [reverse cur]
  | c :: s' =>
      if bool_decide (c = ch "010")
      then reverse cur :: split_lines_go [] s'
      else split_lines_go (c :: cur) s'
  end.

Definition split_lines (s : str) : list str := split_lines_go [] s.

(** [s.startswith(old)] *)
Fixpoint startswith (old s : str) : bool :=
  match old, s with
  | [], _ => true
  | _ :: _, [] => false
  | a :: old', c :: s' => bool_decide (a = c) && startswith old' s'
  end.

(** [s.replace(old, '')] for a non-empty [old]: occurrences are removed
    from left to right, without overlap. [skip] counts the characters of
    the occurrence being removed that are still to be dropped. *)
Fixpoint remove_go (old : str) (skip : nat) (s : str) : str :=
  match s with
  | [] => []
  | c :: s' =>
      match skip with
      | S k => remove_go old k s'
      | O =>
          if startswith old s
          then remove_go old (length old - 1) s'
          else c :: remove_go old 0 s'
      end
  end.

Definition remove_all (s old : str) : str :=
  match old with
  | [] => s
  | _ => remove_go old 0 s
  end.

(** [s.zfill(width)] for a string [s] without sign. *)
Definition zfill (width : nat) (s : str) : str :=
  replicate (width - length s) (ch "0") ++ s.

(** The characters of a string of ASCII characters. *)
Definition of_ascii (s : string) : str :=
  N_of_ascii <$> list_ascii_of_string s.

(** [str(n)] for a natural number [n]. *)
Definition str_of_nat (n : nat) : str := of_ascii (pretty n).

(** [str(n)] for a file size [n]. *)
Definition str_of_N (n : N) : str := of_ascii (pretty n).

(** [s.rfind(c)] *)
Fixpoint rfind (c : N) (s : str) : option nat :=
  match s with
  | [] => None
  | a :: s' =>
      match rfind c s' with
      | Some i => Some (S i)
      | None => if bool_decide (a = c) then Some 0 else None
      end
  end.

End PyStr.

(** ** The three fixed substitutions of [post_process_cleanup] *)

Module Re.

Definition is_sep (c : N) : bool :=
  bool_decide (c = ch "-") || bool_decide (c = ch "_").

(** [re.sub(r'\s+', ' ', s)]: every maximal run of white space becomes one
    space. [in_run] tells that the previous character was white space. *)
Fixpoint sub_spaces_go (in_run : bool) (s : str) : str :=
  match s with
  | [] => []
  | c :: s' =>
      if PyStr.isspace c
      then (if in_run then sub_spaces_go true s'
            else ch " " :: sub_spaces_go true s')
      else c :: sub_spaces_go false s'
  end.

Definition sub_spaces (s : str) : str := sub_spaces_go false s.

(** What a pending run of [-]/[_] contributes: itself when it has one
    character, one underscore when it has two or more. *)
Definition flush_run (run : option (N * bool)) : str :=
  match run with
  | None => []
  | Some (c, false) => [c]
  | Some (_, true) => [ch "_"]
  end.

(** [re.sub(r'[-_]{2,}', '_', s)] *)
Fixpoint sub_sep_runs_go (run : option (N * bool)) (s : str) : str :=
  match s with
  | [] => flush_run run
  | c :: s' =>
      if is_sep c
      then sub_sep_runs_go
             (Some (match run with
                    | None => (c, false)
                    | Some (c0, _) => (c0, true)
                    end)) s'
      else flush_run run ++ c :: sub_sep_runs_go None s'
  end.

Definition sub_sep_runs (s : str) : str := sub_sep_runs_go None s.

(** [re.sub(r'^[-_\s]+|[-_\s]+$', '', s)] *)
Definition trim_edges (s : str) : str :=
  PyStr.strip_by (fun c => is_sep c || PyStr.isspace c) s.

End Re.

(** ** Library services taken as parameters *)

Class PyLib : Type := {
  (** [re.sub(pattern, '', subject, flags=re.IGNORECASE)]: the subject
      without the matches; [ReError] when the pattern does not compile, and
      whatever else the engine raises (an [OverflowError] for a repeat
      count that is too large, a [MemoryError]). *)
  re_sub_ic : str -> str -> Try str;
  (** The substitution by the empty string deletes characters and does
      nothing else. *)
  re_sub_deletes : forall pattern subject result,
    re_sub_ic pattern subject = Ok result -> result `sublist_of` subject;
  (** [datetime.fromtimestamp(mtime).strftime(fmt)] *)
  strftime : str -> Z -> str;
  (** [str(round(size / divisor, 1))] *)
  str_round1 : N -> N -> str;
  (** What [str.format] makes of a value that was found, when the replacement
      field has accessors after its first name, a conversion or a format
      specification: [format_value value accessors conversion spec]. *)
  format_value : str -> str -> option N -> str -> Try str;
}.

(** ** Paths *)

Abbreviation Path := (list str).

Module PyPath.

(** [p.name] *)
Definition name (p : Path) : str := List.last p [].

(** [p.parent] *)
Definition parent (p : Path) : Path := removelast p.

(** [p / child] for a child that is one component. *)
Definition join (p : Path) (child : str) : Path := p ++ [child].

(** The index at which the suffix of a name starts: the last dot, unless
    it is the first or the last character. *)
Definition suffix_start (n : str) : option nat :=
  match PyStr.rfind (ch ".") n with
  | Some i =>
      if (0 <? i) && (i <? length n - 1) then Some i else None
  | None => None
  end.

(** [p.suffix] *)
Definition suffix (p : Path) : str :=
  let n := name p in
  match suffix_start n with
  | Some i => drop i n
  | None => []
  end.

(** [p.stem] *)
Definition stem (p : Path) : str :=
  let n := name p in
  match suffix_start n with
  | Some i => take i n
  | None => n
  end.

End PyPath.

(** ** The application object *)

(** The text of the cleanup-mode combo box; its items are the three modes. *)
Inductive CleanupMode : Type :=
  | SmartMode        (* "智能识别" *)
  | CustomTextMode   (* "自定义文本" *)
  | CustomRegexMode. (* "自定义正则" *)

(** The fields and widget values of [BatchRenameApp] that the engine reads. *)
Record BatchRenameApp : Type := {
  current_folder : Path;
  filtered_files : list Path;
  custom_format : str;
  start_number : nat;
  number_digits : nat;
  enable_cleanup : bool;
  cleanup_mode : CleanupMode;
  cleanup_rules : str;
  keep_extension : bool;
  backup_original : bool;
  case_sensitive : bool;
  overwrite_existing : bool;
}.

(** ** Cleanup pipeline *)

(** The [patterns] list of the smart mode, in source order. *)
Definition smart_patterns : list str :=
  utf8 <$>
  [ "百度网盘.*?[-_]?";
    "阿里云盘.*?[-_]?";
    "腾讯微云.*?[-_]?";
    "夸克网盘.*?[-_]?";
    "蓝奏云.*?[-_]?";
    "OneDrive.*?[-_]?";
    "Google.*?Drive.*?[-_]?";
    "Dropbox.*?[-_]?";
    "iCloud.*?[-_]?";
    "115网盘.*?[-_]?";
    "天翼云盘.*?[-_]?";
    "和彩云.*?[-_]?";
    "[-_]?下载.*";
    "[-_]?副本\d*";
    "[-_]?拷贝\d*";
    "[-_]?copy\d*";
    "\(\d+\)$";
    "[-_]\d+$";
    "新建.*";
    "untitled.*";
    "\[.*?下载.*?\]";
    "【.*?下载.*?】";
    "\b(\w+)\s+\1\b";
    "(\w+)[-_]\1";
    "[-_]{2,}";
    "^[-_]+|[-_]+$" ].

(** [filename = re.sub(...)] five times over. *)
Definition post_process_cleanup (filename : str) : str :=
  let filename := Re.sub_spaces filename in
  let filename := Re.sub_sep_runs filename in
  let filename := Re.trim_edges filename in
  let filename := PyStr.strip (Re.sub_spaces filename) in
  let filename := Re.trim_edges filename in
  filename.

Section Cleanup.
Context {lib : PyLib}.

(** One [try: cleaned_name = re.sub(...) except re.error: continue]: an
    exception that is not [re.error] is not caught. *)
Definition apply_regex (cleaned_name pattern : str) : Try str :=
  match re_sub_ic pattern cleaned_name with
  | Ok s => Ok s
  | Raised ReError => Ok cleaned_name
  | Raised e => Raised e
  end.

(** An exception of the engine that the handler does not catch. *)
Definition engine_raised (e : Exn) : Prop :=
  e <> ReError /\ exists pattern subject, re_sub_ic pattern subject = Raised e.

(** The body of [for rule in custom_rules] in the text mode. *)
Definition apply_text_rule (cleaned_name rule : str) : Try str :=
  let rule := PyStr.strip rule in
  if bool_decide (rule = []) then Ok cleaned_name
  else Ok (PyStr.remove_all cleaned_name rule).

(** The body of [for rule in custom_rules] in the regex mode. *)
Definition apply_regex_rule (cleaned_name rule : str) : Try str :=
  let rule := PyStr.strip rule in
  if bool_decide (rule = []) then Ok cleaned_name
  else apply_regex cleaned_name rule.

(** [for rule in rules: cleaned_name = step(cleaned_name, rule)], up to the
    first exception. *)
Fixpoint for_rules (step : str -> str -> Try str) (rules : list str)
    (cleaned_name : str) : Try str :=
  match rules with
  | [] => Ok cleaned_name
  | rule :: rest =>
      match step cleaned_name rule with
      | Ok cleaned_name => for_rules step rest cleaned_name
      | Raised e => Raised e
      end
  end.

(** The mode-specific pass: the [if mode == ... elif ...] of
    [clean_filename]. *)
Definition mode_pass (self : BatchRenameApp) (filename : str) : Try str :=
  match cleanup_mode self with
  | SmartMode => for_rules apply_regex smart_patterns filename
  | CustomTextMode =>
      let text := PyStr.strip (cleanup_rules self) in
      if bool_decide (text = []) then Ok filename
      else for_rules apply_text_rule (PyStr.split_lines text) filename
  | CustomRegexMode =>
      let text := PyStr.strip (cleanup_rules self) in
      if bool_decide (text = []) then Ok filename
      else for_rules apply_regex_rule (PyStr.split_lines text) filename
  end.

Definition clean_filename (self : BatchRenameApp) (filename : str) : Try str :=
  if negb (enable_cleanup self) then Ok filename
  else
    let original_name := filename in
    match mode_pass self filename with
    | Raised e => Raised e
    | Ok cleaned_name =>
        let cleaned_name := post_process_cleanup cleaned_name in
        if bool_decide (PyStr.strip cleaned_name = [])
           || (length (PyStr.strip cleaned_name) <? 2)
        then Ok original_name
        else Ok (PyStr.strip cleaned_name)
    end.

End Cleanup.

(** ** The file system *)

(** A regular file: what [os.stat] reports of it, and its bytes. *)
Record File : Type := {
  st_mtime : Z;
  st_size : N;
  data : str;
}.

#[export] Instance File_eq_dec : EqDecision File.
Proof. solve_decision. Defined.

Module Fs.

(** [p.exists()] *)
Definition path_exists (disk : gmap Path File) (p : Path) : bool :=
  bool_decide (is_Some (disk !! p)).

(** The name of [p] when [p] lies directly inside [folder]. *)
Definition child_name (folder p : Path) : option str :=
  if bool_decide (take (length folder) p = folder)
  then match drop (length folder) p with
       | [n] => Some n
       | _ => None
       end
  else None.

(** [set(os.path.basename(f) for f in os.listdir(folder)
         if os.path.isfile(os.path.join(folder, f)))] *)
Definition listdir_files (disk : gmap Path File) (folder : Path) : gset str :=
  list_to_set (omap (child_name folder) (elements (dom disk))).

End Fs.

(** ** [str.format] with keyword arguments only *)

Module PyFormat.

(** [PY_SSIZE_T_MAX] of a 64-bit build. *)
Definition PY_SSIZE_T_MAX : N := 9223372036854775807%N.

(** Where the scanner of the format string stands. Names and
    specifications are accumulated in order. *)
Inductive State : Type :=
  | Literal
  | AfterOpen                                (* a "{" was read *)
  | AfterClose                               (* a "}" was read *)
  | FieldName (field : str)
  | InBracket (field : str)                  (* inside "[...]" of a name *)
  | Conversion (field : str)                 (* a "!" was read *)
  | AfterConversion (field : str) (conv : N)
  | FormatSpec (field : str) (conv : option N) (spec : str) (depth : nat).

Inductive Step : Type :=
  | Next (st : State)
  | Emit (c : N)                             (* literal text, back to [Literal] *)
  | Field (field : str) (conv : option N) (spec : str)
  | Fail (e : Exn).

Definition snoc (s : str) (c : N) : str := s ++ [c].

(** [parse_field], on one character of the field name outside brackets. *)
Definition name_step (field : str) (c : N) : Step :=
  if bool_decide (c = ch "{") then Fail ValueError
  else if bool_decide (c = ch "[") then Next (InBracket (snoc field c))
  else if bool_decide (c = ch "}") then Field field None []
  else if bool_decide (c = ch ":") then Next (FormatSpec field None [] 1)
  else if bool_decide (c = ch "!") then Next (Conversion field)
  else Next (FieldName (snoc field c)).

(** [MarkupIterator_next] and [parse_field], one character at a time. *)
Definition step (st : State) (c : N) : Step :=
  match st with
  | Literal =>
      if bool_decide (c = ch "{") then Next AfterOpen
      else if bool_decide (c = ch "}") then Next AfterClose
      else Emit c
  | AfterOpen =>
      if bool_decide (c = ch "{") then Emit c else name_step [] c
  | AfterClose =>
      if bool_decide (c = ch "}") then Emit c else Fail ValueError
  | FieldName field => name_step field c
  | InBracket field =>
      if bool_decide (c = ch "]") then Next (FieldName (snoc field c))
      else Next (InBracket (snoc field c))
  | Conversion field => Next (AfterConversion field c)
  | AfterConversion field conv =>
      if bool_decide (c = ch "}") then Field field (Some conv) []
      else if bool_decide (c = ch ":")
           then Next (FormatSpec field (Some conv) [] 1)
           else Fail ValueError
  | FormatSpec field conv spec depth =>
      if bool_decide (c = ch "{")
      then Next (FormatSpec field conv (snoc spec c) (S depth))
      else if bool_decide (c = ch "}")
           then (if bool_decide (depth = 1) then Field field conv spec
                 else Next (FormatSpec field conv (snoc spec c) (depth - 1)))
           else Next (FormatSpec field conv (snoc spec c) depth)
  end.

(** The end of the format string: fine in literal text, a [ValueError]
    anywhere else. *)
Definition at_end (st : State) (out : str) : Try str :=
  match st with
  | Literal => Ok out
  | _ => Raised ValueError
  end.

(** [field_name_split]: the part of a field name before its first "." or
    "[", and the rest. *)
Fixpoint split_first (field : str) : str * str :=
  match field with
  | [] => ([], [])
  | c :: s' =>
      if bool_decide (c = ch ".") || bool_decide (c = ch "[")
      then ([], field)
      else let '(a, b) := split_first s' in (c :: a, b)
  end.

(** The loop of [get_integer]: [Ok None] at a character that is not a
    decimal digit, [ValueError] as soon as the number would exceed
    [PY_SSIZE_T_MAX]. *)
Fixpoint digits_value (acc : N) (s : str) : Try (option N) :=
  match s with
  | [] => Ok (Some acc)
  | c :: s' =>
      match PyStr.decimal c with
      | None => Ok None
      | Some d =>
          if ((PY_SSIZE_T_MAX - d) / 10 <? acc)%N then Raised ValueError
          else digits_value (acc * 10 + d)%N s'
      end
  end.

(** [get_integer]: the value of a string of decimal digits, [Ok None] when
    the string is empty or has another character. *)
Definition get_integer (s : str) : Try (option N) :=
  match s with
  | [] => Ok None
  | _ => digits_value 0%N s
  end.

Section Render.
Context {lib : PyLib}.
Variable kwargs : gmap str str.

(** [get_field_object] and [render_field] with an empty tuple of
    positional arguments. *)
Definition render (field : str) (conv : option N) (spec : str) : Try str :=
  let '(first, rest) := split_first field in
  match get_integer first with
  | Raised e => Raised e
  | Ok (Some _) => Raised IndexError
  | Ok None =>
      if bool_decide (first = []) then Raised IndexError
      else
        match kwargs !! first with
        | None => Raised KeyError
        | Some v =>
            match rest, conv, spec with
            | [], None, [] => Ok v
            | _, _, _ => format_value v rest conv spec
            end
        end
  end.

(** [build_string]: literal text and rendered fields from left to right;
    the first error ends it. *)
Fixpoint scan (st : State) (out : str) (s : str) : Try str :=
  match s with
  | [] => at_end st out
  | c :: s' =>
      match step st c with
      | Next st' => scan st' out s'
      | Emit c' => scan Literal (snoc out c') s'
      | Field field conv spec =>
          match render field conv spec with
          | Ok v => scan Literal (out ++ v) s'
          | Raised e => Raised e
          end
      | Fail e => Raised e
      end
  end.

(** [template.format] applied to the keyword arguments [kwargs]. *)
Definition format (template : str) : Try str :=
  scan Literal [] template.

End Render.

End PyFormat.
(** ** Name synthesis *)

Section Synthesis.
Context {lib : PyLib}.

(** [str(start_num + i).zfill(digits)] *)
Definition index_text (self : BatchRenameApp) (i : nat) : str :=
  PyStr.zfill (number_digits self) (PyStr.str_of_nat (start_number self + i)).

(** The dictionary [format_vars]. *)
Definition format_vars (self : BatchRenameApp) (i : nat) (file_obj : Path)
    (file_stat : File) (cleaned_name extension : str) : gmap str str :=
  list_to_map
    [ (utf8 "name", cleaned_name);
      (utf8 "original", PyPath.stem file_obj);
      (utf8 "date", strftime (utf8 "%Y%m%d") (st_mtime file_stat));
      (utf8 "datetime", strftime (utf8 "%Y%m%d_%H%M%S") (st_mtime file_stat));
      (utf8 "time", strftime (utf8 "%H%M%S") (st_mtime file_stat));
      (utf8 "year", strftime (utf8 "%Y") (st_mtime file_stat));
      (utf8 "month", strftime (utf8 "%m") (st_mtime file_stat));
      (utf8 "day", strftime (utf8 "%d") (st_mtime file_stat));
      (utf8 "index", index_text self i);
      (utf8 "size", PyStr.str_of_N (st_size file_stat));
      (utf8 "size_kb", str_round1 (st_size file_stat) 1024);
      (utf8 "size_mb", str_round1 (st_size file_stat) (1024 * 1024));
      (utf8 "ext", PyStr.lstrip_dots extension);
      (utf8 "parent", PyPath.name (PyPath.parent file_obj)) ].

(** The body of the loop of [generate_new_names] for the file at index
    [i]. What [clean_filename] raises is not caught; [os.stat] raises when
    the file is gone; the [try] around [format] catches [KeyError] and
    [ValueError] only. *)
Definition synthesize (self : BatchRenameApp) (disk : gmap Path File)
    (custom_format : str) (i : nat) (file_path : Path) : Try str :=
  let file_obj := file_path in
  let original_name := PyPath.stem file_obj in
  match clean_filename self original_name with
  | Raised e => Raised e
  | Ok cleaned_name =>
      let extension := if keep_extension self then PyPath.suffix file_obj
                       else [] in
      match disk !! file_path with
      | None => Raised FileNotFoundError
      | Some file_stat =>
          let vars := format_vars self i file_obj file_stat cleaned_name
                        extension in
          match PyFormat.format vars custom_format with
          | Ok s => Ok (s ++ extension)
          | Raised KeyError | Raised ValueError =>
              Ok (original_name ++ utf8 "_" ++ index_text self i ++ extension)
          | Raised e => Raised e
          end
      end
  end.

(** [for i, file_path in enumerate(...)]: the names so far, then the
    first exception. *)
Fixpoint synthesize_all (self : BatchRenameApp) (disk : gmap Path File)
    (custom_format : str) (i : nat) (files : list Path) : Try (list str) :=
  match files with
  | [] => Ok []
  | file_path :: rest =>
      match synthesize self disk custom_format i file_path with
      | Raised e => Raised e
      | Ok new_name =>
          match synthesize_all self disk custom_format (S i) rest with
          | Raised e => Raised e
          | Ok new_names => Ok (new_name :: new_names)
          end
      end
  end.

Definition generate_new_names (self : BatchRenameApp) (disk : gmap Path File)
    : Try (list str) :=
  match filtered_files self with
  | [] => Ok []
  | files =>
      let custom_format := PyStr.strip (custom_format self) in
      let custom_format :=
        if bool_decide (custom_format = []) then utf8 "{name}_{index}"
        else custom_format in
      synthesize_all self disk custom_format 0 files
  end.

End Synthesis.

(** ** Conflict detection *)

Inductive Conflict : Type :=
  | DuplicateName   (* "重复名称" *)
  | FileExists.     (* "文件已存在" *)

#[export] Instance Conflict_eq_dec : EqDecision Conflict.
Proof. solve_decision. Defined.

(** [name_counts]: a dictionary in insertion order, from a name to the
    indices that carry it. One step of the first loop:
    [if name in name_counts: name_counts[name].append(i)
     else: name_counts[name] = [i]]. *)
Fixpoint count_name (name : str) (i : nat)
    (name_counts : list (str * list nat)) : list (str * list nat) :=
  match name_counts with
  | [] => [(name, [i])]
  | (n, indices) :: rest =>
      if bool_decide (n = name) then (n, indices ++ [i]) :: rest
      else (n, indices) :: count_name name i rest
  end.

(** [for i, name in enumerate(new_names)], starting at index [i]. *)
Fixpoint count_names (i : nat) (new_names : list str)
    (name_counts : list (str * list nat)) : list (str * list nat) :=
  match new_names with
  | [] => name_counts
  | name :: rest => count_names (S i) rest (count_name name i name_counts)
  end.

(** [for idx in indices: conflicts[idx] = "重复名称"] *)
Definition flag_all (indices : list nat) (conflicts : gmap nat Conflict)
    : gmap nat Conflict :=
  fold_left (fun c idx => <[idx := DuplicateName]> c) indices conflicts.

(** The body of [for name, indices in name_counts.items()]. *)
Definition flag_entry (existing_files : gset str) (overwrite : bool)
    (conflicts : gmap nat Conflict) (entry : str * list nat)
    : gmap nat Conflict :=
  let '(name, indices) := entry in
  if 1 <? length indices then flag_all indices conflicts
  else if bool_decide (name ∈ existing_files) && negb overwrite
       then match indices with
            | idx :: _ => <[idx := FileExists]> conflicts
            | [] => conflicts
            end
       else conflicts.

(** [check_conflicts], for a current folder that can be listed. *)
Definition check_conflicts (self : BatchRenameApp) (disk : gmap Path File)
    (new_names : list str) : gmap nat Conflict :=
  let name_counts := count_names 0 new_names [] in
  let existing_files := Fs.listdir_files disk (current_folder self) in
  fold_left (flag_entry existing_files (overwrite_existing self))
            name_counts ∅.

(** One assignment [conflicts[idx] = kind]. *)
Definition assign (c : gmap nat Conflict) (w : nat * Conflict) : gmap nat Conflict :=
  <[w.1 := w.2]> c.

(** The assignments that the second loop makes for one entry of
    [name_counts]. *)
Definition writes (existing_files : gset str) (overwrite : bool)
    (entry : str * list nat) : list (nat * Conflict) :=
  let '(name, indices) := entry in
  if 1 <? length indices then (fun idx => (idx, DuplicateName)) <$> indices
  else if bool_decide (name ∈ existing_files) && negb overwrite
       then match indices with
            | idx :: _ => [(idx, FileExists)]
            | [] => []
            end
       else [].

(** What [name_counts] holds after the first loop over [l]: every name of
    [l] once, with exactly the indices that carry it. *)
Record counted (l : list str) (nc : list (str * list nat)) : Prop := {
  counted_keys : NoDup nc.*1;
  counted_nodup : forall n idxs, (n, idxs) ∈ nc -> NoDup idxs;
  counted_idx : forall n idxs i, (n, idxs) ∈ nc -> i ∈ idxs <-> l !! i = Some n;
  counted_all : forall i n, l !! i = Some n -> n ∈ nc.*1;
}.

(** ** The rename worker *)

(** The arguments of [RenameWorker.__init__]. *)
Record RenameWorker : Type := {
  file_list : list Path;
  new_names : list str;
  target_folder : Path;
  backup_enabled : bool;
  overwrite_enabled : bool;
}.

(** The text of a [finished] signal. *)
Inductive Summary : Type :=
  | Completed (success_count total_files : nat)
      (* f"重命名完成！成功处理 {success_count}/{total_files} 个文件" *)
  | Crashed (e : Exn).
      (* f"重命名过程中出现错误: {str(e)}" *)

(** What the worker emits: [progress_updated(progress, "正在重命名: " + new_name)]
    and [finished(success, text)]. *)
Inductive Signal : Type :=
  | progress_updated (progress : Z) (new_name : str)
  | finished (success : bool) (text : Summary).

(** The world of one run: the disk, the signals emitted so far, the lines
    printed so far ([print(f"重命名失败 {old_path}: {str(e)}")]), and the
    local variable [success_count]. *)
Record RunState : Type := {
  disk : gmap Path File;
  signals : list Signal;
  console : list (Path * Exn);
  success_count : nat;
}.

Definition set_disk (d : gmap Path File) (s : RunState) : RunState :=
  {| disk := d; signals := signals s; console := console s;
     success_count := success_count s |}.

Definition add_signal (x : Signal) (s : RunState) : RunState :=
  {| disk := disk s; signals := signals s ++ [x]; console := console s;
     success_count := success_count s |}.

Definition add_line (x : Path * Exn) (s : RunState) : RunState :=
  {| disk := disk s; signals := signals s; console := console s ++ [x];
     success_count := success_count s |}.

Definition set_success_count (n : nat) (s : RunState) : RunState :=
  {| disk := disk s; signals := signals s; console := console s;
     success_count := n |}.

(** Operations on files that the operating system can refuse. *)
Inductive FsOp : Type :=
  | OpCopy (src dst : Path)
  | OpUnlink (p : Path)
  | OpRename (src dst : Path).

(** The operations the operating system refuses (permissions, a file in
    use, a path too long), given the disk as it is. *)
Abbreviation OsFaults := (FsOp -> gmap Path File -> bool).

(** What becomes of the line that the worker prints for a file that failed,
    given the path of the file and the exception: [None] when the line is
    written, the exception that [print] raises otherwise (a standard output
    whose encoding cannot represent the text of the line or a character of
    the file name, a standard output that is closed). *)
Abbreviation Stdout := (Path -> Exn -> option Exn).

(** Computations of the worker: a state transformer that returns a value or
    raises; [None] stands for a loop that does not end. *)
Definition M (A : Type) : Type := RunState -> option (Try A * RunState).

Definition ret {A} (a : A) : M A := fun s => Some (Ok a, s).

Definition raise {A} (e : Exn) : M A := fun s => Some (Raised e, s).

Definition bind {A B} (m : M A) (k : A -> M B) : M B :=
  fun s =>
    match m s with
    | Some (Ok a, s') => k a s'
    | Some (Raised e, s') => Some (Raised e, s')
    | None => None
    end.

Declare Scope worker_scope.
Delimit Scope worker_scope with worker.
Notation "x <- m ;; k" := (bind m (fun x => k))
  (at level 100, m at next level, right associativity) : worker_scope.
Notation "m ;; k" := (bind m (fun _ => k))
  (at level 100, right associativity) : worker_scope.
Local Open Scope worker_scope.

(** [try: m except Exception as e: handler(e)] *)
Definition try_except {A} (m : M A) (handler : Exn -> M A) : M A :=
  fun s =>
    match m s with
    | Some (Raised e, s') => handler e s'
    | r => r
    end.

Definition gets {A} (f : RunState -> A) : M A := fun s => Some (Ok (f s), s).

Definition modify (f : RunState -> RunState) : M unit :=
  fun s => Some (Ok tt, f s).

(** [for i, x in enumerate(l)], counting from [i]. *)
Fixpoint for_enumerate {A} (body : nat -> A -> M unit) (i : nat) (l : list A)
    : M unit :=
  match l with
  | [] => ret tt
  | x :: rest => body i x ;; for_enumerate body (S i) rest
  end.

(** [while taken(cur): cur = candidate(counter); counter += 1], with the
    number of tests bounded by [fuel]. *)
Fixpoint probe_loop (taken : Path -> bool) (candidate : nat -> Path)
    (fuel counter : nat) (cur : Path) : option Path :=
  match fuel with
  | O => None
  | S fuel' =>
      if taken cur
      then probe_loop taken candidate fuel' (S counter) (candidate counter)
      else Some cur
  end.

(** Python's [a / b] on integers followed by [* 100] and [int(...)], in
    double precision. The operands are below [2^53], so their conversion
    is exact. *)
Module PyFloat.

Definition of_nat (n : nat) : float :=
  PrimFloat.of_uint63 (Uint63.of_Z (Z.of_nat n)).

(** [int(x)]: truncation towards zero; an infinity and a NaN raise. *)
Definition to_int (x : float) : Try Z :=
  match Prim2SF x with
  | S754_zero _ => Ok 0%Z
  | S754_finite sign m e =>
      let magnitude :=
        if (0 <=? e)%Z then (Z.pos m * 2 ^ e)%Z
        else (Z.pos m / 2 ^ (- e))%Z in
      Ok (if sign then (- magnitude)%Z else magnitude)
  | S754_infinity _ => Raised OverflowError
  | S754_nan => Raised ValueError
  end.

(** [int(k / total * 100)]; the division raises when [total] is zero. *)
Definition percent (k total : nat) : Try Z :=
  match total with
  | O => Raised ZeroDivisionError
  | _ => to_int (PrimFloat.mul (PrimFloat.div (of_nat k) (of_nat total))
                               (of_nat 100))
  end.

End PyFloat.

Section Worker.
Variable os : OsFaults.
Variable out : Stdout.
Variable self : RenameWorker.

(** [shutil.copy2(src, dst)] *)
Definition copy2 (src dst : Path) : M unit :=
  fun s =>
    if os (OpCopy src dst) (disk s) then Some (Raised OSError, s)
    else match disk s !! src with
         | None => Some (Raised FileNotFoundError, s)
         | Some f => Some (Ok tt, set_disk (<[dst := f]> (disk s)) s)
         end.

(** [p.unlink()] *)
Definition unlink (p : Path) : M unit :=
  fun s =>
    if os (OpUnlink p) (disk s) then Some (Raised OSError, s)
    else match disk s !! p with
         | None => Some (Raised FileNotFoundError, s)
         | Some _ => Some (Ok tt, set_disk (delete p (disk s)) s)
         end.

(** [src.rename(dst)] *)
Definition rename (src dst : Path) : M unit :=
  fun s =>
    if os (OpRename src dst) (disk s) then Some (Raised OSError, s)
    else match disk s !! src with
         | None => Some (Raised FileNotFoundError, s)
         | Some f =>
             Some (Ok tt, set_disk (<[dst := f]> (delete src (disk s))) s)
         end.

(** A probing loop on the disk as it stands; the disk has finitely many
    files, and more tests than that are never needed. *)
Definition probe (taken : gmap Path File -> Path -> bool)
    (candidate : nat -> Path) (first : Path) : M Path :=
  fun s =>
    match probe_loop (taken (disk s)) candidate (size (disk s) + 2) 1 first with
    | Some p => Some (Ok p, s)
    | None => None
    end.

(** [old_file.parent / f"{old_file.stem}_backup{old_file.suffix}"] *)
Definition backup_first (old_file : Path) : Path :=
  PyPath.join (PyPath.parent old_file)
    (PyPath.stem old_file ++ utf8 "_backup" ++ PyPath.suffix old_file).

(** [old_file.parent / f"{old_file.stem}_backup_{counter}{old_file.suffix}"] *)
Definition backup_numbered (old_file : Path) (counter : nat) : Path :=
  PyPath.join (PyPath.parent old_file)
    (PyPath.stem old_file ++ utf8 "_backup_" ++ PyStr.str_of_nat counter
     ++ PyPath.suffix old_file).

(** [original_new_path.parent / f"{stem}_{counter}{suffix}"] *)
Definition numbered (original_new_path : Path) (counter : nat) : Path :=
  PyPath.join (PyPath.parent original_new_path)
    (PyPath.stem original_new_path ++ utf8 "_" ++ PyStr.str_of_nat counter
     ++ PyPath.suffix original_new_path).

(** The backup block. *)
Definition backup_step (old_file : Path) : M unit :=
  there <- gets (fun s => Fs.path_exists (disk s) old_file) ;;
  if backup_enabled self && there
  then backup_path <- probe Fs.path_exists (backup_numbered old_file)
                        (backup_first old_file) ;;
       copy2 old_file backup_path
  else ret tt.

(** [new_path.exists() and new_path != old_file] *)
Definition occupied (old_file : Path) (d : gmap Path File) (p : Path) : bool :=
  Fs.path_exists d p && bool_decide (p ≠ old_file).

(** The conflict block; it yields the path the file is renamed to. *)
Definition resolve_step (old_file new_path : Path) : M Path :=
  if negb (overwrite_enabled self)
  then probe (occupied old_file) (numbered new_path) new_path
  else
    clash <- gets (fun s => occupied old_file (disk s) new_path) ;;
    (if clash : bool then unlink new_path else ret tt) ;;
    ret new_path.

(** [if old_file != new_path: old_file.rename(new_path); success_count += 1] *)
Definition rename_step (old_file new_path : Path) : M unit :=
  if bool_decide (old_file ≠ new_path)
  then rename old_file new_path ;;
       modify (fun s => set_success_count (success_count s + 1) s)
  else ret tt.

(** [progress = int((i + 1) / total_files * 100)] and the emission of
    [progress_updated]; [msleep] changes nothing. *)
Definition progress_step (total_files i : nat) (new_name : str) : M unit :=
  match PyFloat.percent (i + 1) total_files with
  | Ok progress => modify (add_signal (progress_updated progress new_name))
  | Raised e => raise e
  end.

(** The body of the inner [try]. *)
Definition process_file (total_files i : nat) (old_path : Path)
    (new_name : str) : M unit :=
  let old_file := old_path in
  let new_path := PyPath.join (target_folder self) new_name in
  backup_step old_file ;;
  new_path <- resolve_step old_file new_path ;;
  rename_step old_file new_path ;;
  progress_step total_files i new_name.

(** [print(f"重命名失败 {old_path}: {str(e)}")]: the line is written, or
    writing it raises. *)
Definition print_failure (old_path : Path) (e : Exn) : M unit :=
  fun s =>
    match out old_path e with
    | None => Some (Ok tt, add_line (old_path, e) s)
    | Some e' => Some (Raised e', s)
    end.

(** One turn of the loop: the inner [try] and its handler, which prints.
    What the handler raises leaves the turn. *)
Definition iteration (total_files i : nat) (entry : Path * str) : M unit :=
  let '(old_path, new_name) := entry in
  try_except (process_file total_files i old_path new_name)
             (print_failure old_path).

(** The statements of the outer [try] before [finished.emit(True, ...)]. *)
Definition batch : M unit :=
  let total_files := length (file_list self) in
  modify (set_success_count 0) ;;
  for_enumerate (iteration total_files) 0
    (zip (file_list self) (new_names self)).

(** The outer [try] around a loop: [finished(True, ...)] after it, and
    [finished(False, ...)] from the handler. *)
Definition run_around (loop : M unit) : M unit :=
  try_except
    (loop ;;
     n <- gets success_count ;;
     modify (add_signal (finished true (Completed n (length (file_list self))))))
    (fun e => modify (add_signal (finished false (Crashed e)))).

Definition run : M unit := run_around batch.

End Worker.

(** ** Vocabulary for the properties of the worker *)

(** The signals and the console are as they were. *)
Definition same_log (s s' : RunState) : Prop :=
  signals s' = signals s /\ console s' = console s.

(** A step that ends, and leaves the signals and the console alone. *)
Definition quiet {A} (m : M A) : Prop :=
  forall s, exists r s', m s = Some (r, s') /\ same_log s s'.

(** What one file leaves behind: a line on the console when it failed, a
    progress signal otherwise. *)
Definition failed_trace (old_path : Path) (s s' : RunState) : Prop :=
  signals s' = signals s /\ exists e, console s' = console s ++ [(old_path, e)].

Definition reported_trace (total_files i : nat) (new_name : str)
    (s s' : RunState) : Prop :=
  console s' = console s
  /\ exists progress, PyFloat.percent (i + 1) total_files = Ok progress
       /\ signals s' = signals s ++ [progress_updated progress new_name].

(** The number of progress signals, completion signals and console lines. *)
Definition traces (s : RunState) : nat := length (signals s) + length (console s).

(** ** What the specification promises, in its own words *)

(** [round(100 * processedCount / totalCount)] on exact rationals, ties to
    the even neighbour as Python's [round] does. *)
Definition spec_percent (processed total : nat) : Z :=
  let n := (100 * Z.of_nat processed)%Z in
  let d := Z.of_nat total in
  let q := (n / d)%Z in
  let r := (n mod d)%Z in
  if (2 * r <? d)%Z then q
  else if (d <? 2 * r)%Z then (q + 1)%Z
  else if Z.even q then q else (q + 1)%Z.

(** The comparison the specification describes for [caseSensitive = false]:
    names are equal when their lower-cased forms are. *)
Definition lower_char (c : N) : N :=
  if ((65 <=? c) && (c <=? 90))%N then (c + 32)%N else c.

Definition lower (s : str) : str := lower_char <$> s.

Definition spec_same_name (case_sensitive : bool) (a b : str) : bool :=
  if case_sensitive then bool_decide (a = b)
  else bool_decide (lower a = lower b).

(** ** Concrete environments for the examples *)

Module Sample.

(** An operating system that refuses nothing. *)
Definition willing : OsFaults := fun _ _ => false.

(** A standard output that takes every line. *)
Definition terminal : Stdout := fun _ _ => None.

(** A standard output whose encoding has no Chinese characters: the line
    of a failure, which starts with [重命名失败], cannot be written. *)
Definition ascii_stdout : Stdout := fun _ _ => Some UnicodeEncodeError.

(** A library whose regular-expression engine rejects every pattern; the
    examples that use it never reach the engine. *)
Definition inert : PyLib := {|
  re_sub_ic _ _ := Raised ReError;
  re_sub_deletes _ _ _ H :=
    False_ind _ (match H in (_ = r) return
                   match r with Ok _ => False | Raised _ => True end
                 with eq_refl => I end);
  strftime _ _ := [];
  str_round1 _ _ := [];
  format_value v _ _ _ := Ok v;
|}.

(** A path and a list of names, written by their literals. *)
Definition path (parts : list string) : Path := utf8 <$> parts.

Definition names (literals : list string) : list str := utf8 <$> literals.

Definition file (bytes : string) : File :=
  {| st_mtime := 0; st_size := N.of_nat (String.length bytes);
     data := utf8 bytes |}.

Definition fresh (d : gmap Path File) : RunState :=
  {| disk := d; signals := []; console := []; success_count := 0 |}.

(** The application with its default settings on folder [d], apart from
    the fields given. *)
Definition app (files : list Path) (template : string) (cleanup : bool)
    (mode : CleanupMode) (rules : string) (overwrite case : bool)
    : BatchRenameApp :=
  {| current_folder := path ["d"]; filtered_files := files;
     custom_format := utf8 template; start_number := 1; number_digits := 3;
     enable_cleanup := cleanup; cleanup_mode := mode;
     cleanup_rules := utf8 rules;
     keep_extension := true; backup_original := false;
     case_sensitive := case; overwrite_existing := overwrite |}.

Definition worker (files : list Path) (names : list str)
    (backup overwrite : bool) : RenameWorker :=
  {| file_list := files; new_names := names; target_folder := path ["d"];
     backup_enabled := backup; overwrite_enabled := overwrite |}.

(** A folder with [a.txt] and [a_1.txt]. *)
Definition two_files : gmap Path File :=
  list_to_map [ (path ["d"; "a.txt"], file "A");
                (path ["d"; "a_1.txt"], file "B") ].

(** A folder with [a.txt] only. *)
Definition one_file : gmap Path File :=
  list_to_map [ (path ["d"; "a.txt"], file "A") ].

(** A folder with [a.txt] and [b.txt]. *)
Definition a_and_b : gmap Path File :=
  list_to_map [ (path ["d"; "a.txt"], file "A");
                (path ["d"; "b.txt"], file "B") ].

(** A folder with [a.txt], [b.txt] and [c.txt]. *)
Definition three_files : gmap Path File :=
  list_to_map [ (path ["d"; "a.txt"], file "A");
                (path ["d"; "b.txt"], file "B");
                (path ["d"; "c.txt"], file "C") ].

(** An operating system that refuses to rename [p] (a file in use) and
    nothing else. *)
Definition locked (p : Path) : OsFaults :=
  fun op _ =>
    match op with
    | OpRename src _ => bool_decide (src = p)
    | _ => false
    end.

End Sample.

(** ** Scanning the folder *)

(** [scan_files], yielding the new [file_list]: the regular files that lie
    directly in the current folder, as full paths. The order in which the
    operating system lists them is not specified; the one taken here is
    that of [elements]. With no current folder the list stays as it is. *)
Definition scan_files (self : BatchRenameApp) (disk : gmap Path File)
    (file_list : list Path) : list Path :=
  match current_folder self with
  | [] => file_list
  | folder =>
      filter (fun p => is_Some (Fs.child_name folder p)) (elements (dom disk))
  end.

(** ** The selection *)

(** The loop of [get_selected_files]: [checked] holds the state of the
    check box of every row of the preview table, from row [i] on. An index
    beyond a list raises [IndexError]. *)
Fixpoint selected_from (i : nat) (checked : list bool)
    (filtered_files : list Path) (new_names : list str)
    : Try (list Path * list str) :=
  match checked with
  | [] => Ok ([], [])
  | c :: rest =>
      if c
      then match filtered_files !! i, new_names !! i with
           | Some f, Some n =>
               match selected_from (S i) rest filtered_files new_names with
               | Ok (fs, ns) => Ok (f :: fs, n :: ns)
               | Raised e => Raised e
               end
           | _, _ => Raised IndexError
           end
      else selected_from (S i) rest filtered_files new_names
  end.

Definition get_selected_files {lib : PyLib} (self : BatchRenameApp)
    (disk : gmap Path File) (checked : list bool)
    : Try (list Path * list str) :=
  match generate_new_names self disk with
  | Raised e => Raised e
  | Ok new_names => selected_from 0 checked (filtered_files self) new_names
  end.

(** ** From the preview to the worker *)

(** [start_rename_process]: the worker it creates. *)
Definition start_rename_process (self : BatchRenameApp)
    (file_list : list Path) (new_names : list str) : RenameWorker :=
  {| file_list := file_list; new_names := new_names;
     target_folder := current_folder self;
     backup_enabled := backup_original self;
     overwrite_enabled := overwrite_existing self |}.

(** What the user answers to the two questions of [execute_rename]: whether
    to go on in spite of conflicts, and whether to rename at all. *)
Record Replies : Type := {
  go_on_with_conflicts : bool;
  confirm_rename : bool;
}.

(** [execute_rename]: the worker that is started, if any. The names are
    generated twice, by [get_selected_files] and for [check_conflicts]. *)
Definition execute_rename {lib : PyLib} (self : BatchRenameApp)
    (disk : gmap Path File) (checked : list bool) (replies : Replies)
    : Try (option RenameWorker) :=
  match filtered_files self with
  | [] => Ok None
  | _ =>
      match get_selected_files self disk checked with
      | Raised e => Raised e
      | Ok (selected_files, selected_new_names) =>
          match selected_files with
          | [] => Ok None
          | _ =>
              match generate_new_names self disk with
              | Raised e => Raised e
              | Ok new_names =>
                  let conflicts := check_conflicts self disk new_names in
                  if negb (bool_decide (conflicts = ∅))
                     && negb (overwrite_existing self)
                     && negb (go_on_with_conflicts replies)
                  then Ok None
                  else if confirm_rename replies
                       then Ok (Some (start_rename_process self selected_files
                                        selected_new_names))
                       else Ok None
              end
          end
      end
  end.

(** ** More vocabulary for the properties *)

(** The rows of the preview whose box is checked: each file with the name
    generated for it. *)
Definition checked_rows (checked : list bool) (files : list Path)
    (names : list str) : list (Path * str) :=
  (filter (fun r => r.1 = true) (zip checked (zip files names))).*2.

(** Nothing of [d] is lost in [d']: a file that is not among [sources] is
    where it was, and the content of every file is still somewhere. *)
Definition kept (sources : list Path) (d d' : gmap Path File) : Prop :=
  (forall p f, d !! p = Some f -> p ∉ sources -> d' !! p = Some f)
  /\ (forall p f, d !! p = Some f -> exists q, d' !! q = Some f).

Definition is_progress (x : Signal) : bool :=
  match x with
  | progress_updated _ _ => true
  | finished _ _ => false
  end.

(** A character that [post_process_cleanup] trims from both ends. *)
Definition is_edge (c : N) : bool := Re.is_sep c || PyStr.isspace c.

(** White space is normal when it is made of single spaces only;
    [after_space] tells that the character before [s] is white space. *)
Fixpoint spaces_normal (after_space : bool) (s : str) : bool :=
  match s with
  | [] => true
  | c :: s' =>
      if PyStr.isspace c
      then negb after_space && bool_decide (c = ch " ") && spaces_normal true s'
      else spaces_normal false s'
  end.

(** No two [-]/[_] in a row; [after_sep] tells that the character before
    [s] is one. *)
Fixpoint seps_single (after_sep : bool) (s : str) : bool :=
  match s with
  | [] => true
  | c :: s' =>
      if Re.is_sep c then negb after_sep && seps_single true s'
      else seps_single false s'
  end.

(** The names that [post_process_cleanup] leaves as they are. *)
Definition tidy (s : str) : Prop :=
  spaces_normal false s = true /\ seps_single false s = true
  /\ (forall c, head s = Some c -> is_edge c = false)
  /\ (forall c, last s = Some c -> is_edge c = false).

(** The names that [format_vars] defines. *)
Definition placeholders : list str :=
  utf8 <$>
  [ "name"; "original"; "date"; "datetime"; "time"; "year"; "month"; "day";
    "index"; "size"; "size_kb"; "size_mb"; "ext"; "parent" ].

(** A template cut in pieces: text without braces, and fields that are a
    bare name in braces. *)
Inductive Piece : Type :=
  | Lit (text : str)
  | Key (key : str).

Definition piece_text (p : Piece) : str :=
  match p with
  | Lit text => text
  | Key key => ch "{" :: key ++ [ch "}"]
  end.

Definition template_of (pieces : list Piece) : str :=
  foldr (fun p s => piece_text p ++ s) [] pieces.

Definition brace_free (c : N) : bool :=
  negb (bool_decide (c = ch "{")) && negb (bool_decide (c = ch "}")).

Definition well_formed (p : Piece) : bool :=
  match p with
  | Lit text => forallb brace_free text
  | Key key => bool_decide (key ∈ placeholders)
  end.

(** The text a piece stands for, given the values of the names. *)
Definition piece_value (vars : gmap str str) (p : Piece) : str :=
  match p with
  | Lit text => text
  | Key key => default [] (vars !! key)
  end.

Definition expand (vars : gmap str str) (pieces : list Piece) : str :=
  foldr (fun p s => piece_value vars p ++ s) [] pieces.

(** A character that [parse_field] takes as part of a field name. *)
Definition name_char (c : N) : bool :=
  negb (bool_decide (c = ch "{")) && negb (bool_decide (c = ch "["))
  && negb (bool_decide (c = ch "}")) && negb (bool_decide (c = ch ":"))
  && negb (bool_decide (c = ch "!")).

(** The number that a string of ASCII digits writes. *)
Definition decimal_value (s : str) : N :=
  fold_left (fun acc c => (acc * 10 + (c - 48))%N) s 0%N.

(** ** Filtering and sorting *)

(** [s.lower()], which follows the case mappings of Unicode, is taken as a
    parameter. *)
Class PyCase : Type := {
  str_lower : str -> str;
}.

(** More of [str], [re] and [os.path], as [filter_and_sort_files] uses
    them. *)
Module PyText.

(** The class [\d] of [re] for [str] patterns: a decimal digit. *)
Definition isdecimal (c : N) : bool := bool_decide (is_Some (PyStr.decimal c)).

(** The characters of Unicode 14 that are digits without being decimal
    digits (superscripts, subscripts, circled digits and the like), as runs
    [(first, count)]. *)
Definition other_digit_runs : list (N * N) :=
  [ (178, 2); (185, 1); (4969, 9); (6618, 1); (8304, 1); (8308, 6);
    (8320, 10); (9312, 9); (9332, 9); (9352, 9); (9450, 1); (9461, 9);
    (9471, 1); (10102, 9); (10112, 9); (10122, 9); (68160, 4); (69216, 9);
    (69714, 9); (127232, 11) ]%N.

(** [c.isdigit()] for one character. *)
Definition isdigit_char (c : N) : bool :=
  isdecimal c
  || existsb (fun run => (run.1 <=? c) && (c <? run.1 + run.2))%N other_digit_runs.

(** [s.isdigit()] *)
Definition isdigit (s : str) : bool :=
  match s with
  | [] => false
  | _ => forallb isdigit_char s
  end.

(** The number that a string of decimal digits writes; [None] when a
    character is not a decimal digit. *)
Fixpoint decimal_number (acc : N) (s : str) : option N :=
  match s with
  | [] => Some acc
  | c :: s' =>
      match PyStr.decimal c with
      | Some d => decimal_number (acc * 10 + d)%N s'
      | None => None
      end
  end.

(** [int(s)] for a non-empty string of digits: its value when all of them
    are decimal digits; a digit that is not decimal raises, and so does a
    string of more than 4300 digits. *)
Definition int_of (s : str) : Try N :=
  if 4300 <? length s then Raised ValueError
  else match decimal_number 0 s with
       | Some n => Ok n
       | None => Raised ValueError
       end.

(** [s.split(sep)] for a separator of one character; [cur] is the current
    piece, reversed. *)
Fixpoint split_go (sep : N) (cur : str) (s : str) : list str :=
  match s with
  | [] => [reverse cur]
  | c :: s' =>
      if bool_decide (c = sep)
      then reverse cur :: split_go sep [] s'
      else split_go sep (c :: cur) s'
  end.

Definition split (sep : N) (s : str) : list str := split_go sep [] s.

(** [needle in hay] *)
Fixpoint contains (needle hay : str) : bool :=
  PyStr.startswith needle hay
  || match hay with
     | [] => false
     | _ :: hay' => contains needle hay'
     end.

(** [re.split(r'(\d+)', s)]: the pieces between the runs of digits and the
    runs themselves, in turn. [cur] is the current piece, reversed, and
    [in_digits] tells that it is a run of digits. *)
Fixpoint split_digits_go (in_digits : bool) (cur : str) (s : str) : list str :=
  match s with
  | [] => if in_digits then [reverse cur; []] else [reverse cur]
  | c :: s' =>
      if isdecimal c
      then (if in_digits then split_digits_go true (c :: cur) s'
            else reverse cur :: split_digits_go true [c] s')
      else (if in_digits
            then reverse cur :: split_digits_go false [c] s'
            else split_digits_go false (c :: cur) s')
  end.

Definition split_digits (s : str) : list str := split_digits_go false [] s.

(** [re.findall(r'\d+', s)]: the runs of digits. [cur] is the run being
    read, reversed. *)
Fixpoint findall_digits_go (cur : option str) (s : str) : list str :=
  match s with
  | [] =>
      match cur with
      | Some run => [reverse run]
      | None => []
      end
  | c :: s' =>
      if isdecimal c
      then findall_digits_go (Some (c :: default [] cur)) s'
      else match cur with
           | Some run => reverse run :: findall_digits_go None s'
           | None => findall_digits_go None s'
           end
  end.

Definition findall_digits (s : str) : list str := findall_digits_go None s.

(** [os.path.splitext(name)[1]] for a name without separator: the text
    from the last dot on, when a character other than a dot precedes that
    dot. *)
Definition splitext_ext (name : str) : str :=
  match PyStr.rfind (ch ".") name with
  | Some i =>
      if forallb (fun c => bool_decide (c = ch ".")) (take i name) then []
      else drop i name
  | None => []
  end.

(** [a < b] on strings: the first character that differs decides, by its
    code point, then the length. *)
Fixpoint str_lt (a b : str) : bool :=
  match a, b with
  | [], [] => false
  | [], _ :: _ => true
  | _ :: _, [] => false
  | x :: a', y :: b' => if (x =? y)%N then str_lt a' b' else (x <? y)%N
  end.

End PyText.

(** [list.sort(key=..., reverse=...)]: the keys are computed first, one per
    element and in order, and the first exception of [key] is the outcome.
    The order of the result is the stable one: elements whose keys are
    equal keep their order, also when [reverse] is set. *)
Module PySort.

Section Sort.
Context {A K : Type}.
Variable lt : K -> K -> bool.

Fixpoint decorate (key : A -> Try K) (l : list A) : Try (list (K * A)) :=
  match l with
  | [] => Ok []
  | x :: rest =>
      match key x with
      | Raised e => Raised e
      | Ok k =>
          match decorate key rest with
          | Raised e => Raised e
          | Ok d => Ok ((k, x) :: d)
          end
      end
  end.

(** The place of [x] among sorted elements that followed it in the list:
    after those with a smaller key, before the first other one. *)
Fixpoint insert_asc (x : K * A) (l : list (K * A)) : list (K * A) :=
  match l with
  | [] => [x]
  | y :: rest => if lt y.1 x.1 then y :: insert_asc x rest else x :: l
  end.

Fixpoint insert_desc (x : K * A) (l : list (K * A)) : list (K * A) :=
  match l with
  | [] => [x]
  | y :: rest => if lt x.1 y.1 then y :: insert_desc x rest else x :: l
  end.

Definition sort_decorated (reverse : bool) (l : list (K * A)) : list (K * A) :=
  foldr (if reverse then insert_desc else insert_asc) [] l.

Definition sort (key : A -> Try K) (reverse : bool) (l : list A) : Try (list A) :=
  match decorate key l with
  | Raised e => Raised e
  | Ok d => Ok ((sort_decorated reverse d).*2)
  end.

End Sort.

(** [a < b] on lists of integers: the first difference decides, then the
    length. *)
Fixpoint list_lt (a b : list N) : bool :=
  match a, b with
  | [], [] => false
  | [], _ :: _ => true
  | _ :: _, [] => false
  | x :: a', y :: b' => if (x =? y)%N then list_lt a' b' else (x <? y)%N
  end.

(** An element of a natural-sort key: a piece of text, or a number. *)
Inductive Part : Type :=
  | Text (s : str)
  | Num (n : N).

(** [a < b] on lists of texts and numbers: the first pair of elements that
    are not equal decides, and raises [TypeError] when one is a text and
    the other a number. *)
Fixpoint parts_lt (a b : list Part) : Try bool :=
  match a, b with
  | [], [] => Ok false
  | [], _ :: _ => Ok true
  | _ :: _, [] => Ok false
  | Text s :: a', Text t :: b' =>
      if bool_decide (s = t) then parts_lt a' b' else Ok (PyText.str_lt s t)
  | Num n :: a', Num m :: b' =>
      if (n =? m)%N then parts_lt a' b' else Ok (n <? m)%N
  | _ :: _, _ :: _ => Raised TypeError
  end.

(** [random.shuffle(x)]: [for i in reversed(range(1, len(x))):
    j = randbelow(i + 1); x[i], x[j] = x[j], x[i]]. The draws of the
    generator are the stream [draws]; [k] counts them. *)
Definition swap {A} (i j : nat) (x : list A) : list A :=
  match x !! i, x !! j with
  | Some a, Some b => <[i := b]> (<[j := a]> x)
  | _, _ => x
  end.

Fixpoint shuffle_from {A} (draws : nat -> nat) (k i : nat) (x : list A) : list A :=
  match i with
  | O => x
  | S i' => shuffle_from draws (S k) i' (swap i (draws k mod (S i)) x)
  end.

Definition shuffle {A} (draws : nat -> nat) (x : list A) : list A :=
  shuffle_from draws 0 (length x - 1) x.

End PySort.

(** The two widgets that [filter_and_sort_files] reads, and what stands
    outside the disk: the creation times that [os.path.getctime] reports
    and the draws of the random generator. *)
Record FilterSettings : Type := {
  extension_filter : str;
  sort_option : str;
  getctime : Path -> Try Z;
  draws : nat -> nat;
}.

(** [os.path.getmtime(x)] and [os.path.getsize(x)] *)
Definition getmtime (disk : gmap Path File) (x : Path) : Try Z :=
  match disk !! x with
  | Some f => Ok (st_mtime f)
  | None => Raised FileNotFoundError
  end.

Definition getsize (disk : gmap Path File) (x : Path) : Try N :=
  match disk !! x with
  | Some f => Ok (st_size f)
  | None => Raised FileNotFoundError
  end.

(** [[int(n) for n in numbers]]: the first failure, or all the values. *)
Fixpoint ints_of (numbers : list str) : Try (list N) :=
  match numbers with
  | [] => Ok []
  | n :: rest =>
      match PyText.int_of n with
      | Raised e => Raised e
      | Ok v =>
          match ints_of rest with
          | Raised e => Raised e
          | Ok vs => Ok (v :: vs)
          end
      end
  end.

(** The key of the numeric sort. *)
Definition extract_numbers (filename : Path) : Try (list N) :=
  match PyText.findall_digits (PyPath.name filename) with
  | [] => Ok [0%N]
  | numbers => ints_of numbers
  end.

(** [[int(text) if text.isdigit() else text for text in ...]] *)
Fixpoint parts_of (texts : list str) : Try (list PySort.Part) :=
  match texts with
  | [] => Ok []
  | text :: rest =>
      match (if PyText.isdigit text
             then match PyText.int_of text with
                  | Ok n => Ok (PySort.Num n)
                  | Raised e => Raised e
                  end
             else Ok (PySort.Text text)) with
      | Raised e => Raised e
      | Ok p =>
          match parts_of rest with
          | Raised e => Raised e
          | Ok ps => Ok (p :: ps)
          end
      end
  end.

(** The order of natural-sort keys that the sort uses. Keys made by
    [natural_sort_key] never compare a text with a number (see
    [natural_keys_compare]), so the [TypeError] of [parts_lt] does not
    occur, and which value stands for it here is immaterial. *)
Definition natural_lt (a b : list PySort.Part) : bool :=
  match PySort.parts_lt a b with
  | Ok r => r
  | Raised _ => false
  end.

Section FilterAndSort.
Context {cases : PyCase}.

(** [[ext.strip().lower() for ext in extension_filter.split(',')]], each
    with a leading dot added unless it has one. *)
Definition with_dot (ext : str) : str :=
  if PyStr.startswith (utf8 ".") ext then ext else utf8 "." ++ ext.

Definition parse_extensions (extension_filter : str) : list str :=
  (fun ext => with_dot (str_lower (PyStr.strip ext)))
    <$> PyText.split (ch ",") extension_filter.

(** The extension filter: [filtered] before it is sorted. *)
Definition filter_by_extension (file_list : list Path) (extension_filter : str)
    : list Path :=
  let extension_filter := PyStr.strip extension_filter in
  if bool_decide (extension_filter = []) then file_list
  else
    let extensions := parse_extensions extension_filter in
    filter (fun f => str_lower (PyPath.suffix f) ∈ extensions) file_list.

(** The key of the natural sort. *)
Definition natural_sort_key (filename : Path) : Try (list PySort.Part) :=
  let name := str_lower (PyPath.name filename) in
  parts_of (PyText.split_digits name).

(** [filter_and_sort_files], yielding the new [filtered_files]. *)
Definition filter_and_sort_files (settings : FilterSettings)
    (disk : gmap Path File) (file_list : list Path) : Try (list Path) :=
  match file_list with
  | [] => Ok []
  | _ =>
      let filtered := filter_by_extension file_list (extension_filter settings) in
      let sort_option := sort_option settings in
      if PyText.contains (utf8 "修改时间") sort_option
      then PySort.sort Z.ltb (getmtime disk)
             (PyText.contains (utf8 "新到旧") sort_option) filtered
      else if PyText.contains (utf8 "创建时间") sort_option
      then PySort.sort Z.ltb (getctime settings)
             (PyText.contains (utf8 "新到旧") sort_option) filtered
      else if PyText.contains (utf8 "文件名(数字排序)") sort_option
      then PySort.sort PySort.list_lt extract_numbers false filtered
      else if PyText.contains (utf8 "文件名(自然排序)") sort_option
      then PySort.sort natural_lt natural_sort_key false filtered
      else if PyText.contains (utf8 "文件名") sort_option
      then PySort.sort PyText.str_lt
             (fun x => Ok (str_lower (PyPath.name x)))
             (PyText.contains (utf8 "Z-A") sort_option) filtered
      else if PyText.contains (utf8 "文件大小") sort_option
      then PySort.sort N.ltb (getsize disk)
             (PyText.contains (utf8 "大到小") sort_option) filtered
      else if PyText.contains (utf8 "文件类型") sort_option
      then PySort.sort PyText.str_lt
             (fun x => Ok (str_lower (PyText.splitext_ext (PyPath.name x))))
             (PyText.contains (utf8 "Z-A") sort_option) filtered
      else if PyText.contains (utf8 "文件扩展名") sort_option
      then PySort.sort PyText.str_lt
             (fun x => Ok (str_lower (PyPath.suffix x)))
             (PyText.contains (utf8 "Z-A") sort_option) filtered
      else if PyText.contains (utf8 "随机排序") sort_option
      then Ok (PySort.shuffle (draws settings) filtered)
      else Ok filtered
  end.

End FilterAndSort.

(** The items of the sort combo box. *)
Definition sort_items : list str :=
  utf8 <$>
  [ "修改时间(新到旧)"; "修改时间(旧到新)";
    "创建时间(新到旧)"; "创建时间(旧到新)";
    "文件名(A-Z)"; "文件名(Z-A)";
    "文件名(数字排序)"; "文件名(自然排序)";
    "文件大小(大到小)"; "文件大小(小到大)";
    "文件类型(A-Z)"; "文件类型(Z-A)";
    "文件扩展名(A-Z)"; "文件扩展名(Z-A)";
    "随机排序" ].

(** ** Vocabulary for the properties of sorting *)

(** Every element of the list stands in relation [R] to every later one. *)
Definition ordered {A} (R : A -> A -> Prop) (l : list A) : Prop :=
  forall i j x y, i < j -> l !! i = Some x -> l !! j = Some y -> R x y.

(** The order of two keys that a sort puts in this order: the second is
    not smaller than the first, or not greater when the sort is reversed. *)
Definition key_order {K} (lt : K -> K -> bool) (reverse : bool) (a b : K) : Prop :=
  if reverse then lt a b = false else lt b a = false.

(** The keys of the natural sort take turns: a text, a number, a text, and
    so on. [text_next] tells that a text is due. *)
Fixpoint alternating (text_next : bool) (parts : list PySort.Part) : bool :=
  match parts with
  | [] => true
  | PySort.Text _ :: rest => text_next && alternating false rest
  | PySort.Num _ :: rest => negb text_next && alternating true rest
  end.

(** A settings object whose case mapping leaves every string as it is, for
    the examples. *)
Module Plain.

Definition cases : PyCase := {| str_lower s := s |}.

Definition settings (filter option : string) : FilterSettings :=
  {| extension_filter := utf8 filter; sort_option := utf8 option;
     getctime _ := Ok 0%Z; draws _ := 0 |}.

(** A folder with [a.txt], two bytes written at time 5, and [b.txt], one
    byte written at time 9. *)
Definition folder : gmap Path File :=
  list_to_map
    [ (Sample.path ["d"; "a.txt"],
       {| st_mtime := 5; st_size := 2; data := utf8 "AA" |});
      (Sample.path ["d"; "b.txt"],
       {| st_mtime := 9; st_size := 1; data := utf8 "B" |}) ].

Definition a_txt : Path := Sample.path ["d"; "a.txt"].
Definition b_txt : Path := Sample.path ["d"; "b.txt"].
Definition c_txt : Path := Sample.path ["d"; "c.txt"].

End Plain.

(** * Properties *)

(** ** Strings and paths *)

Lemma of_ascii_inj (s t : string) : PyStr.of_ascii s = PyStr.of_ascii t -> s = t.
Proof.
  unfold PyStr.of_ascii. intros Heq.
  assert (Hinj : Inj (=) (=) N_of_ascii).
  { intros a b Hab. rewrite <- (ascii_N_embedding a), <- (ascii_N_embedding b).
    by rewrite Hab. }
  apply (inj (fmap N_of_ascii)) in Heq.
  rewrite <- (string_of_list_ascii_of_string s),
          <- (string_of_list_ascii_of_string t). by rewrite Heq.
Qed.

Lemma numbered_name_inj (pre post : str) (c c' : nat) :
  pre ++ PyStr.str_of_nat c ++ post = pre ++ PyStr.str_of_nat c' ++ post ->
  c = c'.
Proof.
  intros Heq. apply app_inv_head, app_inv_tail in Heq.
  unfold PyStr.str_of_nat in Heq. apply of_ascii_inj in Heq.
  by apply (inj pretty) in Heq.
Qed.

Lemma join_inj (p : Path) (a b : str) :
  PyPath.join p a = PyPath.join p b -> a = b.
Proof. unfold PyPath.join. intros Heq. apply app_inv_head in Heq. congruence. Qed.

Lemma numbered_inj (p : Path) (c c' : nat) :
  numbered p c = numbered p c' -> c = c'.
Proof.
  unfold numbered. intros Heq%join_inj.
  apply app_inv_head in Heq.
  by apply (numbered_name_inj (utf8 "_")) in Heq.
Qed.

Lemma backup_numbered_inj (p : Path) (c c' : nat) :
  backup_numbered p c = backup_numbered p c' -> c = c'.
Proof.
  unfold backup_numbered. intros Heq%join_inj.
  apply app_inv_head in Heq.
  by apply (numbered_name_inj (utf8 "_backup_")) in Heq.
Qed.

(** ** Cleanup *)

Lemma length_lstrip_by p s : length (PyStr.lstrip_by p s) <= length s.
Proof. induction s as [|c s IH]; simpl; [done|]. destruct (p c); simpl; lia. Qed.

Lemma length_rstrip_by p s : length (PyStr.rstrip_by p s) <= length s.
Proof.
  induction s as [|c s IH]; [done|]. cbn [PyStr.rstrip_by].
  destruct (PyStr.rstrip_by p s); [destruct (p c)|]; simpl in *; lia.
Qed.

Lemma length_strip_by p s : length (PyStr.strip_by p s) <= length s.
Proof.
  unfold PyStr.strip_by.
  pose proof (length_rstrip_by p (PyStr.lstrip_by p s)).
  pose proof (length_lstrip_by p s). lia.
Qed.

Lemma length_sub_spaces_go b s : length (Re.sub_spaces_go b s) <= length s.
Proof.
  revert b. induction s as [|c s IH]; intros b; [done|]. simpl.
  destruct (PyStr.isspace c); [destruct b|]; simpl;
    try pose proof (IH true); try pose proof (IH false); lia.
Qed.

Lemma length_flush_run run :
  length (Re.flush_run run) = match run with Some _ => 1 | None => 0 end.
Proof. by destruct run as [[c [|]]|]. Qed.

Lemma length_sub_sep_runs_go run s :
  length (Re.sub_sep_runs_go run s) <= length (Re.flush_run run) + length s.
Proof.
  revert run. induction s as [|c s IH]; intros run.
  - simpl. lia.
  - cbn [Re.sub_sep_runs_go]. destruct (Re.is_sep c).
    + etrans; [apply IH|]. rewrite !length_flush_run. destruct run; simpl; lia.
    + rewrite length_app. simpl. pose proof (IH None). simpl in *. lia.
Qed.

Lemma post_process_shorter s : length (post_process_cleanup s) <= length s.
Proof.
  unfold post_process_cleanup, Re.trim_edges, PyStr.strip.
  etrans; [apply length_strip_by|].
  etrans; [apply length_strip_by|].
  etrans; [apply length_sub_spaces_go|].
  etrans; [apply length_strip_by|].
  etrans; [apply (length_sub_sep_runs_go None)|].
  apply length_sub_spaces_go.
Qed.

Lemma length_remove_go old skip s : length (PyStr.remove_go old skip s) <= length s.
Proof.
  revert skip. induction s as [|c s IH]; intros skip; [done|].
  cbn [PyStr.remove_go]. destruct skip as [|k].
  - destruct (PyStr.startswith old (c :: s)); simpl;
      [pose proof (IH (length old - 1)) | pose proof (IH 0)]; lia.
  - pose proof (IH k). simpl. lia.
Qed.

Lemma length_remove_all s old : length (PyStr.remove_all s old) <= length s.
Proof. destruct old; [done|]. apply length_remove_go. Qed.

Section CleanupFacts.
Context {lib : PyLib}.

Lemma apply_regex_outcome (cleaned_name pattern : str) :
  match apply_regex cleaned_name pattern with
  | Ok result => length result <= length cleaned_name
  | Raised e => engine_raised e
  end.
Proof.
  unfold apply_regex.
  destruct (re_sub_ic pattern cleaned_name) as [result|e] eqn:Hsub.
  - by apply sublist_length, (re_sub_deletes pattern).
  - destruct e; try (split; [done | by eauto]). lia.
Qed.

Lemma apply_regex_rule_outcome (cleaned_name rule : str) :
  match apply_regex_rule cleaned_name rule with
  | Ok result => length result <= length cleaned_name
  | Raised e => engine_raised e
  end.
Proof.
  unfold apply_regex_rule. case_bool_decide; [done|]. apply apply_regex_outcome.
Qed.

Lemma for_rules_outcome (step : str -> str -> Try str) (rules : list str) :
  (forall s rule, match step s rule with
                  | Ok result => length result <= length s
                  | Raised e => engine_raised e
                  end) ->
  forall cleaned_name,
    match for_rules step rules cleaned_name with
    | Ok result => length result <= length cleaned_name
    | Raised e => engine_raised e
    end.
Proof.
  intros Hstep. induction rules as [|rule rules IH]; intros s; [cbn; lia|].
  cbn [for_rules]. specialize (Hstep s rule).
  destruct (step s rule) as [s'|e]; [|done].
  specialize (IH s'). destruct (for_rules step rules s'); [lia | done].
Qed.

Lemma text_rules_return (rules : list str) (cleaned_name : str) :
  exists result, for_rules apply_text_rule rules cleaned_name = Ok result
    /\ length result <= length cleaned_name.
Proof.
  revert cleaned_name. induction rules as [|rule rules IH]; intros s.
  - exists s. split; [done | lia].
  - cbn [for_rules]. unfold apply_text_rule at 1. case_bool_decide.
    + apply IH.
    + destruct (IH (PyStr.remove_all s (PyStr.strip rule))) as (r & -> & Hlen).
      exists r. split; [done|]. pose proof (length_remove_all s (PyStr.strip rule)).
      lia.
Qed.

(** The mode-specific pass deletes characters, or raises what the engine
    of regular expressions raised; the text mode always returns. *)
Lemma mode_pass_outcome (self : BatchRenameApp) (filename : str) :
  match mode_pass self filename with
  | Ok result => length result <= length filename
  | Raised e => engine_raised e /\ cleanup_mode self <> CustomTextMode
  end.
Proof.
  unfold mode_pass. destruct (cleanup_mode self).
  - pose proof (for_rules_outcome apply_regex smart_patterns
                  apply_regex_outcome filename) as Hout.
    destruct (for_rules _ _ _); done.
  - case_bool_decide; [done|].
    by destruct (text_rules_return
                   (PyStr.split_lines (PyStr.strip (cleanup_rules self))) filename)
      as (r & -> & Hlen).
  - case_bool_decide; [done|].
    pose proof (for_rules_outcome apply_regex_rule
                  (PyStr.split_lines (PyStr.strip (cleanup_rules self)))
                  apply_regex_rule_outcome filename) as Hout.
    destruct (for_rules _ _ _); done.
Qed.

Lemma clean_filename_disabled (self : BatchRenameApp) (filename : str) :
  enable_cleanup self = false -> clean_filename self filename = Ok filename.
Proof. intros H. unfold clean_filename. by rewrite H. Qed.

Lemma clean_filename_enabled (self : BatchRenameApp) (filename : str) :
  enable_cleanup self = true ->
  clean_filename self filename =
    match mode_pass self filename with
    | Raised e => Raised e
    | Ok cleaned_name =>
        let cleaned := PyStr.strip (post_process_cleanup cleaned_name) in
        if length cleaned <? 2 then Ok filename else Ok cleaned
    end.
Proof.
  intros H. unfold clean_filename. rewrite H. simpl.
  destruct (mode_pass self filename) as [cleaned_name|e]; [|done].
  destruct (PyStr.strip _) as [|c t] eqn:E; [done|].
  rewrite bool_decide_eq_false_2 by done. done.
Qed.

End CleanupFacts.

(** C1, as the code has it. What [clean_filename] returns is the stem it
    was given or a string of at least two characters. With cleanup
    disabled it returns the stem. With cleanup enabled, when the
    mode-specific pass followed by post-processing leaves, once trimmed,
    fewer than two characters (none included), it returns the stem
    unchanged, whatever its length, and otherwise that trimmed result. A
    stem of fewer than two characters therefore comes back as it is, and a
    stem of at least two characters never becomes a shorter name than two.
    It returns unless a substitution of the smart or the regex mode raises
    an exception other than [re.error], and then raises that exception. *)
Theorem clean_filename_guard {lib : PyLib} (self : BatchRenameApp)
    (filename : str) :
  (forall result, clean_filename self filename = Ok result ->
     result = filename \/ 2 <= length result)
  /\ (enable_cleanup self = false ->
      clean_filename self filename = Ok filename)
  /\ (forall cleaned_name,
        enable_cleanup self = true ->
        mode_pass self filename = Ok cleaned_name ->
        length (PyStr.strip (post_process_cleanup cleaned_name)) < 2 ->
        clean_filename self filename = Ok filename)
  /\ (forall cleaned_name,
        enable_cleanup self = true ->
        mode_pass self filename = Ok cleaned_name ->
        2 <= length (PyStr.strip (post_process_cleanup cleaned_name)) ->
        clean_filename self filename
        = Ok (PyStr.strip (post_process_cleanup cleaned_name)))
  /\ (forall result, length filename < 2 ->
        clean_filename self filename = Ok result -> result = filename)
  /\ (forall result, 2 <= length filename ->
        clean_filename self filename = Ok result -> 2 <= length result)
  /\ (forall e, clean_filename self filename = Raised e <->
        enable_cleanup self = true /\ mode_pass self filename = Raised e)
  /\ (forall e, mode_pass self filename = Raised e ->
        cleanup_mode self <> CustomTextMode
        /\ e <> ReError
        /\ exists pattern subject, re_sub_ic pattern subject = Raised e).
Proof.
  destruct (enable_cleanup self) eqn:En.
  all: assert (Hraised : forall e, mode_pass self filename = Raised e ->
        cleanup_mode self <> CustomTextMode
        /\ e <> ReError
        /\ exists pattern subject, re_sub_ic pattern subject = Raised e)
    by (intros e He; pose proof (mode_pass_outcome self filename) as Hpass;
        rewrite He in Hpass; by destruct Hpass as [[? ?] ?]).
  2:{ rewrite (clean_filename_disabled self filename En).
      split_and!; try done.
      - intros result [= <-]. by left.
      - by intros result _ [= <-].
      - by intros result ? [= <-].
      - intros e. split; [done | by intros [? _]]. }
  rewrite (clean_filename_enabled self filename En).
  pose proof (mode_pass_outcome self filename) as Hpass.
  destruct (mode_pass self filename) as [cleaned_name|e0].
  2:{ split_and!; try done. intros e. split; [by intros [= <-] | by intros [_ [= <-]]]. }
  cbv zeta.
  pose proof (post_process_shorter cleaned_name) as Hpost.
  pose proof (length_strip_by PyStr.isspace (post_process_cleanup cleaned_name))
    as Hstrip. fold (PyStr.strip (post_process_cleanup cleaned_name)) in Hstrip.
  destruct (length _ <? 2) eqn:Hlen.
  - apply Nat.ltb_lt in Hlen. split_and!; try done.
    + intros result [= <-]. by left.
    + intros c _ [= <-] ?. lia.
    + by intros result _ [= <-].
    + by intros result ? [= <-].
    + intros e. split; [done | by intros [_ ?]].
  - apply Nat.ltb_ge in Hlen. split_and!; try done.
    + intros result [= <-]. by right.
    + intros c _ [= <-] ?. lia.
    + by intros c _ [= <-] _.
    + intros result ? [= <-]. lia.
    + by intros result ? [= <-].
    + intros e. split; [done | by intros [_ ?]].
Qed.

(** At the stem [foo_a] with the text rule [foo]: the passes leave [a], so
    the stem comes back unchanged. *)
Lemma clean_filename_guard_witness :
  clean_filename (lib := Sample.inert)
    (Sample.app [] "{name}" true CustomTextMode "foo" false false)
    (utf8 "foo_a")
  = Ok (utf8 "foo_a").
Proof.
  apply (proj1 (proj2 (proj2
           (clean_filename_guard (lib := Sample.inert)
              (Sample.app [] "{name}" true CustomTextMode "foo" false false)
              (utf8 "foo_a")))) (utf8 "_a"));
    [reflexivity | vm_compute; reflexivity | vm_compute; lia].
Defined.

(** C1 as stated fails: with cleanup enabled and no rule, the one-character
    stem [a] comes back as it is, a single-character result. *)
Lemma clean_filename_single_character :
  clean_filename (lib := Sample.inert)
    (Sample.app [] "{name}" true CustomTextMode "" false false) (utf8 "a")
  = Ok (utf8 "a")
  /\ length (utf8 "a") = 1.
Proof. split; reflexivity. Qed.

(** A character outside ASCII counts as one character: at the stem [foo中]
    the text rule [foo] leaves [中] alone, and the stem comes back
    unchanged. *)
Example one_character_left :
  clean_filename (lib := Sample.inert)
    (Sample.app [] "{name}" true CustomTextMode "foo" false false)
    (utf8 "foo中")
  = Ok (utf8 "foo中")
  /\ length (utf8 "中") = 1.
Proof. split; vm_compute; reflexivity. Qed.

(** ** Conflict detection *)

Lemma child_name_spec (folder p : Path) (n : str) :
  Fs.child_name folder p = Some n <-> p = folder ++ [n].
Proof.
  unfold Fs.child_name. split.
  - case_bool_decide as Ht; [|done].
    destruct (drop (length folder) p) as [|x [|y r]] eqn:Hd; try done.
    intros [= ->]. rewrite <- (take_drop (length folder) p). by rewrite Ht, Hd.
  - intros ->. rewrite take_app_length, drop_app_length.
    by rewrite bool_decide_eq_true_2.
Qed.

Lemma elem_of_listdir_files (disk : gmap Path File) (folder : Path) (n : str) :
  n ∈ Fs.listdir_files disk folder <-> is_Some (disk !! (folder ++ [n])).
Proof.
  unfold Fs.listdir_files. rewrite elem_of_list_to_set, list_elem_of_omap.
  split.
  - intros (p & Hp & Hc). apply child_name_spec in Hc as ->.
    by apply elem_of_elements, elem_of_dom in Hp.
  - intros Hs. exists (folder ++ [n]). split.
    + by apply elem_of_elements, elem_of_dom.
    + by apply child_name_spec.
Qed.

Lemma count_name_keys (x : str) (i : nat) (nc : list (str * list nat)) :
  (count_name x i nc).*1 = if bool_decide (x ∈ nc.*1) then nc.*1 else nc.*1 ++ [x].
Proof.
  induction nc as [|[n idxs] nc IH]; [done|].
  cbn [count_name]. rewrite fmap_cons. cbn [fst].
  destruct (decide (n = x)) as [->|Hne].
  - rewrite (bool_decide_eq_true_2 (x = x)) by done.
    by rewrite bool_decide_eq_true_2 by apply list_elem_of_here.
  - rewrite (bool_decide_eq_false_2 (n = x)) by done.
    rewrite fmap_cons, IH. cbn [fst].
    destruct (decide (x ∈ nc.*1)) as [Hx|Hx].
    + rewrite (bool_decide_eq_true_2 (x ∈ nc.*1)) by done.
      by rewrite bool_decide_eq_true_2 by (by apply list_elem_of_further).
    + rewrite (bool_decide_eq_false_2 (x ∈ nc.*1)) by done.
      rewrite bool_decide_eq_false_2; [done|].
      intros [->|?]%elem_of_cons; done.
Qed.

Lemma count_name_elem (x : str) (i : nat) (nc : list (str * list nat))
    (n : str) (idxs : list nat) :
  NoDup nc.*1 ->
  (n, idxs) ∈ count_name x i nc <->
    (n ≠ x /\ (n, idxs) ∈ nc)
    \/ (n = x /\ exists idxs0, idxs = idxs0 ++ [i]
                 /\ ((x, idxs0) ∈ nc \/ ((x ∉ nc.*1) /\ idxs0 = []))).
Proof.
  induction nc as [|[m js] nc IH]; intros Hnd.
  - simpl. rewrite list_elem_of_singleton. split.
    + intros [= -> ->]. right. split; [done|]. exists []. split; [done|].
      right. split; [|done]. apply not_elem_of_nil.
    + intros [[_ []%elem_of_nil] | [-> (idxs0 & -> & [[]%elem_of_nil | [_ ->]])]].
      done.
  - rewrite fmap_cons in Hnd |- *. cbn [fst] in Hnd |- *.
    apply NoDup_cons in Hnd as [Hm Hnd]. specialize (IH Hnd).
    assert (Hkey : forall js', (m, js') ∈ nc -> False).
    { intros js' Hin. apply Hm. apply list_elem_of_fmap. by exists (m, js'). }
    cbn [count_name]. destruct (decide (m = x)) as [Hmx|Hmx].
    + rewrite (bool_decide_eq_true_2 (m = x)) by done. subst m.
      rewrite elem_of_cons. setoid_rewrite elem_of_cons. split.
      * intros [[= -> ->] | Hin].
        -- right. split; [done|]. exists js. split; [done|]. left. by left.
        -- left. split; [|by right]. intros ->. by eapply Hkey.
      * intros [[Hne [[= ? ?]|Hin]] | [-> (idxs0 & -> & [[[= ->]|Hin] | [Hnot _]])]].
        -- done.
        -- by right.
        -- by left.
        -- exfalso. by eapply Hkey.
        -- exfalso. apply Hnot. by left.
    + rewrite (bool_decide_eq_false_2 (m = x)) by done.
      rewrite elem_of_cons, IH. setoid_rewrite elem_of_cons. split.
      * intros [[= -> ->] | [[Hne Hin] | [-> (idxs0 & -> & [Hin | [Hnot ->]])]]].
        -- left. split; [done | by left].
        -- left. split; [done | by right].
        -- right. split; [done|]. exists idxs0. split; [done|]. left. by right.
        -- right. split; [done|]. exists []. split; [done|]. right.
           split; [|done]. intros [?|?]; [congruence | done].
      * intros [[Hne [[= -> ->]|Hin]] | [-> (idxs0 & -> & [[[= ? ?]|Hin] | [Hnot ->]])]].
        -- by left.
        -- right. left. done.
        -- done.
        -- right. right. split; [done|]. exists idxs0. split; [done|]. by left.
        -- right. right. split; [done|]. exists []. split; [done|]. right.
           split; [|done]. intros ?. apply Hnot. by right.
Qed.

Lemma count_names_snoc (i : nat) (l : list str) (x : str)
    (nc : list (str * list nat)) :
  count_names i (l ++ [x]) nc = count_name x (i + length l) (count_names i l nc).
Proof.
  revert i nc. induction l as [|y l IH]; intros i nc; simpl.
  - by rewrite Nat.add_0_r.
  - rewrite IH. f_equal. lia.
Qed.

Lemma count_names_counted (l : list str) : counted l (count_names 0 l []).
Proof.
  induction l as [|x l IH] using rev_ind.
  - split; simpl.
    + constructor.
    + intros ?? []%elem_of_nil.
    + intros ??? []%elem_of_nil.
    + intros ?? Hl. by rewrite lookup_nil in Hl.
  - rewrite count_names_snoc. simpl. destruct IH as [Hk Hnd Hidx Hall].
    set (nc := count_names 0 l []) in *.
    split.
    + rewrite count_name_keys. case_bool_decide; [done|].
      apply NoDup_app. split; [done|]. split; [|apply NoDup_singleton].
      intros y Hy ->%list_elem_of_singleton. done.
    + intros n idxs [[_ Hin] | [-> (idxs0 & -> & [Hin | [_ ->]])]]%count_name_elem;
        [by eapply Hnd | | apply NoDup_singleton | done].
      apply NoDup_app. split; [by eapply Hnd|]. split; [|apply NoDup_singleton].
      intros j Hj ->%list_elem_of_singleton.
      apply (Hidx _ _ _ Hin) in Hj. apply lookup_lt_Some in Hj. lia.
    + intros n idxs i [[Hne Hin] | [-> (idxs0 & -> & Hcase)]]%count_name_elem;
        [|  | done].
      * rewrite (Hidx _ _ _ Hin). split.
        -- intros Hl. by rewrite lookup_app_l by (by eapply lookup_lt_Some).
        -- intros Hl. destruct (decide (i < length l)) as [Hlt|Hge].
           ++ by rewrite lookup_app_l in Hl.
           ++ rewrite lookup_app_r in Hl by lia.
              destruct (i - length l) as [|k]; simpl in Hl; [congruence|].
              by rewrite lookup_nil in Hl.
      * rewrite elem_of_app, list_elem_of_singleton. split.
        -- intros [Hi | ->].
           ++ destruct Hcase as [Hin | [_ ->]]; [|by apply elem_of_nil in Hi].
              apply (Hidx _ _ _ Hin) in Hi.
              by rewrite lookup_app_l by (by eapply lookup_lt_Some).
           ++ rewrite lookup_app_r by lia. by rewrite Nat.sub_diag.
        -- intros Hl. destruct (decide (i < length l)) as [Hlt|Hge].
           ++ rewrite lookup_app_l in Hl by done. left.
              destruct Hcase as [Hin | [Hnot _]].
              ** by apply (Hidx _ _ _ Hin).
              ** exfalso. apply Hnot. by eapply Hall.
           ++ right. apply lookup_lt_Some in Hl. rewrite length_app in Hl.
              simpl in Hl. lia.
    + intros i n Hl. rewrite count_name_keys.
      destruct (decide (i < length l)) as [Hlt|Hge].
      * rewrite lookup_app_l in Hl by done. apply Hall in Hl.
        case_bool_decide; [done|]. apply elem_of_app. by left.
      * rewrite lookup_app_r in Hl by lia.
        destruct (i - length l) as [|k]; simpl in Hl;
          [|by rewrite lookup_nil in Hl].
        injection Hl as ->. case_bool_decide; [done|].
        apply elem_of_app. right. by apply list_elem_of_singleton.
Qed.

Lemma flag_entry_writes ex ow c e :
  flag_entry ex ow c e = fold_left assign (writes ex ow e) c.
Proof.
  destruct e as [n idxs]. unfold flag_entry, writes.
  destruct (1 <? length idxs).
  - unfold flag_all. revert c. induction idxs as [|j idxs IH]; intros c; [done|].
    simpl. apply IH.
  - destruct (bool_decide (n ∈ ex) && negb ow); [|done].
    by destruct idxs.
Qed.

Lemma fold_flag_entry ex ow nc c :
  fold_left (flag_entry ex ow) nc c = fold_left assign (nc ≫= writes ex ow) c.
Proof.
  revert c. induction nc as [|e nc IH]; intros c; [done|].
  rewrite bind_cons, fold_left_app. simpl.
  by rewrite IH, flag_entry_writes.
Qed.

Lemma fold_assign_lookup (W : list (nat * Conflict)) (c : gmap nat Conflict)
    (i : nat) (k : Conflict) :
  NoDup W.*1 ->
  fold_left assign W c !! i = Some k <->
    (i, k) ∈ W \/ ((i ∉ W.*1) /\ c !! i = Some k).
Proof.
  revert c. induction W as [|[j k0] W IH]; intros c Hnd.
  - simpl. split; [intros ?; right; split; [apply not_elem_of_nil | done]|].
    intros [[]%elem_of_nil | [_ ?]]. done.
  - rewrite fmap_cons in Hnd |- *. cbn [fst] in *.
    apply NoDup_cons in Hnd as [Hj Hnd].
    simpl. rewrite (IH _ Hnd). unfold assign at 1. cbn [fst snd].
    rewrite !elem_of_cons. destruct (decide (i = j)) as [->|Hij].
    + rewrite lookup_insert_eq. split.
      * intros [Hin | [_ [= ->]]]; [|by left; left].
        exfalso. apply Hj. apply list_elem_of_fmap. by exists (j, k).
      * intros [[[= ->] | Hin] | [Hnot _]].
        -- right. done.
        -- by left.
        -- exfalso. apply Hnot. by left.
    + rewrite lookup_insert_ne by done. split.
      * intros [Hin | [Hnot Hc]]; [left; by right|].
        right. split; [|done]. intros [?|?]; done.
      * intros [[[= ? ?] | Hin] | [Hnot Hc]]; [done | by left |].
        right. split; [|done]. intros ?. apply Hnot. by right.
Qed.

Lemma writes_targets ex ow n idxs i k :
  (i, k) ∈ writes ex ow (n, idxs) -> i ∈ idxs.
Proof.
  unfold writes. destruct (1 <? length idxs).
  - intros (j & [= -> ->] & Hj)%list_elem_of_fmap. done.
  - destruct (bool_decide (n ∈ ex) && negb ow); [|by intros []%elem_of_nil].
    destruct idxs as [|j idxs]; [by intros []%elem_of_nil|].
    intros [= -> ->]%list_elem_of_singleton. apply list_elem_of_here.
Qed.

Lemma bind_fst {A} (f : A -> list (nat * Conflict)) (l : list A) :
  (l ≫= f).*1 = l ≫= (fun e => (f e).*1).
Proof.
  induction l as [|e l IH]; [done|].
  by rewrite !bind_cons, fmap_app, IH.
Qed.

Lemma assoc_unique {A B} (l : list (A * B)) (x : A) (y1 y2 : B) :
  NoDup l.*1 -> (x, y1) ∈ l -> (x, y2) ∈ l -> y1 = y2.
Proof.
  induction l as [|[a b] l IH]; intros Hnd H1 H2.
  - by apply elem_of_nil in H1.
  - rewrite fmap_cons in Hnd. cbn [fst] in Hnd.
    apply NoDup_cons in Hnd as [Ha Hnd].
    apply elem_of_cons in H1 as [[= -> ->] | H1], H2 as [[= ?] | H2].
    + done.
    + exfalso. apply Ha, list_elem_of_fmap. by exists (a, y2).
    + subst. exfalso. apply Ha, list_elem_of_fmap. by exists (a, y1).
    + by apply IH.
Qed.

Lemma writes_nodup ex ow l nc :
  counted l nc -> NoDup (nc ≫= writes ex ow).*1.
Proof.
  intros [Hk Hnd Hidx Hall]. rewrite bind_fst. apply NoDup_bind.
  - intros [n1 idxs1] [n2 idxs2] i H1 H2
      ([j k1] & -> & Hw1)%list_elem_of_fmap ([j' k2] & Hjj & Hw2)%list_elem_of_fmap.
    simpl in Hjj. subst j'.
    apply writes_targets in Hw1, Hw2.
    apply (Hidx _ _ _ H1) in Hw1. apply (Hidx _ _ _ H2) in Hw2.
    assert (n1 = n2) as -> by congruence.
    f_equal. by eapply assoc_unique.
  - intros [n idxs] Hin. unfold writes. destruct (1 <? length idxs).
    + rewrite <- list_fmap_compose.
      replace (fst ∘ (fun idx : nat => (idx, DuplicateName))) with (@id nat) by done.
      rewrite list_fmap_id. by eapply Hnd.
    + destruct (bool_decide (n ∈ ex) && negb ow); [|constructor].
      destruct idxs; [constructor | apply NoDup_singleton].
  - by apply NoDup_fmap_1 in Hk.
Qed.

Lemma check_conflicts_lookup (self : BatchRenameApp) (disk : gmap Path File)
    (names : list str) (i : nat) (k : Conflict) :
  check_conflicts self disk names !! i = Some k <->
    exists n idxs,
      (n, idxs) ∈ count_names 0 names []
      /\ (i, k) ∈ writes (Fs.listdir_files disk (current_folder self))
                    (overwrite_existing self) (n, idxs).
Proof.
  unfold check_conflicts. rewrite fold_flag_entry.
  rewrite fold_assign_lookup
    by (eapply writes_nodup, count_names_counted).
  rewrite lookup_empty. split.
  - intros [([n idxs] & Hw & Hin)%list_elem_of_bind | [_ [=]]]. eauto.
  - intros (n & idxs & Hin & Hw). left. apply list_elem_of_bind. eauto.
Qed.

Lemma nodup_two {A} (l : list A) (a b : A) :
  a ≠ b -> a ∈ l -> b ∈ l -> 1 < length l.
Proof.
  intros Hab Ha Hb. destruct l as [|x [|y l]]; simpl; [| |lia].
  - by apply elem_of_nil in Ha.
  - apply list_elem_of_singleton in Ha, Hb. congruence.
Qed.

Lemma short_list {A} (l : list A) (a : A) :
  a ∈ l -> ¬ (1 < length l) -> l = [a].
Proof.
  intros Ha Hlen. destruct l as [|x [|y l]]; simpl in Hlen; [| |lia].
  - by apply elem_of_nil in Ha.
  - apply list_elem_of_singleton in Ha. by subst.
Qed.

(** C5: whenever two entries of a plan carry the same target name, the
    conflict detector flags the entry as a duplicate ("重复名称"), whatever
    the application's settings are, [overwrite_existing] included. Applied
    to both indices it flags every entry of the group. *)
Theorem duplicates_always_flagged (self : BatchRenameApp)
    (disk : gmap Path File) (names : list str) (i j : nat) (name : str) :
  i ≠ j -> names !! i = Some name -> names !! j = Some name ->
  check_conflicts self disk names !! i = Some DuplicateName.
Proof.
  intros Hij Hi Hj. apply check_conflicts_lookup.
  destruct (count_names_counted names) as [Hk Hnd Hidx Hall].
  pose proof (Hall _ _ Hi) as ([n idxs] & Hn & Hin)%list_elem_of_fmap.
  simpl in Hn. subst n. exists name, idxs. split; [done|].
  apply (Hidx _ _ _ Hin) in Hi, Hj.
  unfold writes. pose proof (nodup_two _ _ _ Hij Hi Hj) as Hlen.
  apply Nat.ltb_lt in Hlen. rewrite Hlen.
  apply list_elem_of_fmap. eauto.
Qed.

(** C8, as the code has it: an entry is flagged "文件已存在" exactly when
    [overwrite_existing] is off, no other entry of the plan carries its
    target name, and a regular file of that name lies in the current
    folder. Files that are sources of the plan are not set apart: a target
    name that matches only a source of the plan is flagged too. *)
Theorem exists_on_disk_flag (self : BatchRenameApp) (disk : gmap Path File)
    (names : list str) (i : nat) :
  check_conflicts self disk names !! i = Some FileExists <->
    overwrite_existing self = false
    /\ exists name, names !! i = Some name
         /\ (forall j, names !! j = Some name -> j = i)
         /\ is_Some (disk !! (current_folder self ++ [name])).
Proof.
  rewrite check_conflicts_lookup.
  destruct (count_names_counted names) as [Hk Hnd Hidx Hall]. split.
  - intros (n & idxs & Hin & Hw). pose proof (writes_targets _ _ _ _ _ _ Hw) as Hi.
    unfold writes in Hw. destruct (1 <? length idxs) eqn:Hlen.
    { apply list_elem_of_fmap in Hw as (? & [= _] & _). }
    apply Nat.ltb_ge in Hlen.
    destruct (bool_decide _) eqn:Hex; simpl in Hw; [|by apply elem_of_nil in Hw].
    destruct (overwrite_existing self); simpl in Hw; [by apply elem_of_nil in Hw|].
    split; [done|]. exists n.
    apply bool_decide_eq_true_1, elem_of_listdir_files in Hex.
    assert (idxs = [i]) as -> by (apply short_list; [done | lia]).
    split; [by apply (Hidx _ _ _ Hin)|]. split; [|done].
    intros j Hj. apply (Hidx _ _ _ Hin) in Hj.
    by apply list_elem_of_singleton in Hj.
  - intros (How & n & Hi & Huniq & Hex).
    pose proof (Hall _ _ Hi) as ([n' idxs] & Hn & Hin)%list_elem_of_fmap.
    simpl in Hn. subst n'. exists n, idxs. split; [done|].
    assert (idxs = [i]) as ->.
    { apply short_list; [by apply (Hidx _ _ _ Hin)|].
      intros Hlen. destruct idxs as [|a [|b r]]; simpl in Hlen; try lia.
      pose proof (Hnd _ _ Hin) as Hnd'.
      apply NoDup_cons in Hnd' as [Hab _].
      apply Hab. assert (a = i) as ->.
      { apply Huniq, (Hidx _ _ _ Hin), list_elem_of_here. }
      assert (b = i) as ->.
      { apply Huniq, (Hidx _ _ _ Hin), list_elem_of_further, list_elem_of_here. }
      apply list_elem_of_here. }
    unfold writes. simpl. rewrite How.
    rewrite bool_decide_eq_true_2 by (by apply elem_of_listdir_files).
    simpl. apply list_elem_of_here.
Qed.

(** The two entries named [x.txt] with overwriting enabled: the first one is
    flagged. *)
Lemma duplicates_always_flagged_witness :
  check_conflicts (Sample.app [] "{name}" false SmartMode "" true false)
    Sample.one_file (Sample.names ["x.txt"; "x.txt"]) !! 0
  = Some DuplicateName.
Proof.
  apply (duplicates_always_flagged
           (Sample.app [] "{name}" false SmartMode "" true false)
           Sample.one_file (Sample.names ["x.txt"; "x.txt"]) 0 1
           (utf8 "x.txt"));
    [lia | reflexivity | reflexivity].
Defined.

(** C8 as stated fails: the folder holds [a.txt] only, the plan is that one
    file and keeps its name (template [{original}]), and the entry is
    flagged "文件已存在" although the only file of that name is the plan's
    own source. *)
Lemma own_source_is_flagged :
  filtered_files
    (Sample.app [Sample.path ["d"; "a.txt"]] "{original}" false SmartMode ""
       false false)
  = elements (dom Sample.one_file)
  /\ generate_new_names (lib := Sample.inert)
       (Sample.app [Sample.path ["d"; "a.txt"]] "{original}" false SmartMode ""
       false false)
       Sample.one_file
     = Ok (Sample.names ["a.txt"])
  /\ check_conflicts
       (Sample.app [Sample.path ["d"; "a.txt"]] "{original}" false SmartMode ""
       false false)
       Sample.one_file (Sample.names ["a.txt"]) !! 0
     = Some FileExists.
Proof. split; [|split]; vm_compute; reflexivity. Qed.

(** C9 fails on the code: [check_conflicts] never reads [case_sensitive].
    With the box unchecked ([b = false]) the names [File.txt] and
    [file.txt], equal once lower-cased, are not flagged as duplicates, and
    [A.TXT] is not matched with the file [a.txt] on disk; the result is the
    same with the box checked. *)
Theorem case_sensitive_is_not_consulted (b : bool) :
  spec_same_name false (utf8 "File.txt") (utf8 "file.txt") = true
  /\ check_conflicts (Sample.app [] "{name}" false SmartMode "" false b)
       Sample.one_file (Sample.names ["File.txt"; "file.txt"]) = ∅
  /\ spec_same_name false (utf8 "A.TXT") (utf8 "a.txt") = true
  /\ check_conflicts (Sample.app [] "{name}" false SmartMode "" false b)
       Sample.one_file (Sample.names ["A.TXT"]) = ∅.
Proof. destruct b; repeat split; vm_compute; reflexivity. Qed.


(** ** Probing loops *)

Lemma probe_loop_none (taken : Path -> bool) (candidate : nat -> Path)
    (fuel counter : nat) (cur : Path) :
  probe_loop taken candidate fuel counter cur = None ->
  forall k, counter <= k < counter + (fuel - 1) -> taken (candidate k) = true.
Proof.
  revert counter cur. induction fuel as [|fuel IH]; intros counter cur Hnone k Hk.
  - lia.
  - simpl in Hnone. destruct (taken cur); [|done].
    destruct fuel as [|fuel]; [lia|].
    destruct (decide (k = counter)) as [->|Hne].
    + simpl in Hnone. by destruct (taken (candidate counter)).
    + apply (IH _ _ Hnone). simpl in *. lia.
Qed.

Lemma probe_loop_some (taken : Path -> bool) (candidate : nat -> Path)
    (fuel counter : nat) (cur p : Path) :
  probe_loop taken candidate fuel counter cur = Some p ->
  taken p = false
  /\ (p = cur
      \/ exists n, counter <= n /\ p = candidate n /\ taken cur = true
           /\ forall k, counter <= k < n -> taken (candidate k) = true).
Proof.
  revert counter cur. induction fuel as [|fuel IH]; intros counter cur Hsome.
  - done.
  - simpl in Hsome. destruct (taken cur) eqn:Hcur.
    + apply IH in Hsome as [Hp [-> | (n & Hn & -> & Hc & Hall)]].
      * split; [done|]. right. exists counter. split_and!; [lia | done | done |].
        intros k Hk. lia.
      * split; [done|]. right. exists n. split_and!; [lia | done | done |].
        intros k Hk. destruct (decide (k = counter)) as [->|Hne]; [done|].
        apply Hall. lia.
    + injection Hsome as ->. split; [done | by left].
Qed.

Lemma probe_loop_total (d : gmap Path File) (taken : Path -> bool)
    (candidate : nat -> Path) (first : Path) :
  (forall p, taken p = true -> is_Some (d !! p)) ->
  (forall a b, candidate a = candidate b -> a = b) ->
  is_Some (probe_loop taken candidate (size d + 2) 1 first).
Proof.
  intros Htaken Hinj.
  destruct (probe_loop _ _ _ _ _) as [p|] eqn:Hloop; [by eexists|].
  exfalso.
  pose proof (probe_loop_none _ _ _ _ _ Hloop) as Hall.
  set (tried := candidate <$> seq 1 (size d + 1)).
  assert (Hnd : NoDup tried).
  { apply NoDup_fmap_2_strong; [|apply NoDup_seq]. intros a b _ _. apply Hinj. }
  assert (Hsub : (list_to_set tried : gset Path) ⊆ dom d).
  { intros p (k & -> & Hk%elem_of_seq)%elem_of_list_to_set%list_elem_of_fmap.
    apply elem_of_dom, Htaken, Hall. lia. }
  apply subseteq_size in Hsub.
  rewrite size_list_to_set in Hsub by done.
  rewrite size_dom in Hsub. unfold tried in Hsub.
  rewrite length_fmap, length_seq in Hsub. lia.
Qed.

(** ** Steps that end and leave the signals and the console alone *)

Lemma same_log_refl s : same_log s s.
Proof. by split. Qed.

Lemma same_log_trans s1 s2 s3 : same_log s1 s2 -> same_log s2 s3 -> same_log s1 s3.
Proof. intros [??] [??]. split; congruence. Qed.

Lemma same_log_set_disk d s : same_log s (set_disk d s).
Proof. by split. Qed.

Lemma quiet_ret {A} (a : A) : quiet (ret a).
Proof. intros s. exists (Ok a), s. split; [done | apply same_log_refl]. Qed.

Lemma quiet_gets {A} (f : RunState -> A) : quiet (gets f).
Proof. intros s. exists (Ok (f s)), s. split; [done | apply same_log_refl]. Qed.

Lemma quiet_bind {A B} (m : M A) (k : A -> M B) :
  quiet m -> (forall a, quiet (k a)) -> quiet (bind m k).
Proof.
  intros Hm Hk s. destruct (Hm s) as (r & s1 & Hrun & Hlog).
  unfold bind. rewrite Hrun. destruct r as [a|e].
  - destruct (Hk a s1) as (r2 & s2 & Hrun2 & Hlog2).
    exists r2, s2. split; [done | by eapply same_log_trans].
  - by exists (Raised e), s1.
Qed.

(** A file operation is refused, finds no file, or changes the disk only. *)
Ltac file_operation_is_quiet :=
  intros s;
  match goal with
  | |- context [if ?refused then _ else match ?found with _ => _ end] =>
      destruct refused;
      [ exists (Raised OSError), s; split; [done | apply same_log_refl]
      | destruct found;
        [ eexists _, _; split; [done | apply same_log_set_disk]
        | exists (Raised FileNotFoundError), s;
          split; [done | apply same_log_refl] ] ]
  end.

Lemma quiet_copy2 os src dst : quiet (copy2 os src dst).
Proof. unfold copy2. file_operation_is_quiet. Qed.

Lemma quiet_unlink os p : quiet (unlink os p).
Proof. unfold unlink. file_operation_is_quiet. Qed.

Lemma quiet_rename os src dst : quiet (rename os src dst).
Proof. unfold rename. file_operation_is_quiet. Qed.

Create HintDb quiet.
#[local] Hint Resolve quiet_ret quiet_gets quiet_copy2 quiet_unlink quiet_rename
  : quiet.

Lemma quiet_probe (taken : gmap Path File -> Path -> bool)
    (candidate : nat -> Path) (first : Path) :
  (forall d p, taken d p = true -> is_Some (d !! p)) ->
  (forall a b, candidate a = candidate b -> a = b) ->
  quiet (probe taken candidate first).
Proof.
  intros Htaken Hinj s. unfold probe.
  destruct (probe_loop_total (disk s) (taken (disk s)) candidate first
              (Htaken (disk s)) Hinj) as [p ->].
  exists (Ok p), s. split; [done | apply same_log_refl].
Qed.

Lemma path_exists_spec (d : gmap Path File) (p : Path) :
  Fs.path_exists d p = true <-> is_Some (d !! p).
Proof. unfold Fs.path_exists. apply bool_decide_eq_true. Qed.

Lemma occupied_spec (old_file : Path) (d : gmap Path File) (p : Path) :
  occupied old_file d p = true <-> is_Some (d !! p) /\ p ≠ old_file.
Proof.
  unfold occupied. rewrite andb_true_iff, path_exists_spec, bool_decide_eq_true.
  done.
Qed.

Lemma quiet_backup_step os self old_file : quiet (backup_step os self old_file).
Proof.
  unfold backup_step. apply quiet_bind; [auto with quiet|]. intros there.
  destruct (backup_enabled self && there); [|auto with quiet].
  apply quiet_bind; [|auto with quiet].
  apply quiet_probe.
  - intros d p. apply path_exists_spec.
  - apply backup_numbered_inj.
Qed.

Lemma quiet_resolve_step os self old_file new_path :
  quiet (resolve_step os self old_file new_path).
Proof.
  unfold resolve_step. destruct (negb (overwrite_enabled self)).
  - apply quiet_probe.
    + intros d p Hocc. by apply occupied_spec in Hocc as [? _].
    + apply numbered_inj.
  - apply quiet_bind; [auto with quiet|]. intros clash.
    apply quiet_bind; [|auto with quiet].
    destruct clash; auto with quiet.
Qed.

Lemma quiet_rename_step os old_file new_path :
  quiet (rename_step os old_file new_path).
Proof.
  unfold rename_step. case_bool_decide; [|auto with quiet].
  apply quiet_bind; [auto with quiet|]. intros _ s.
  eexists _, _. split; [done|]. by split.
Qed.

(** ** One file, and the loop over the files *)

Lemma process_file_outcome os self total_files i old_path new_name s :
  exists r s', process_file os self total_files i old_path new_name s = Some (r, s')
    /\ match r with
       | Ok _ => reported_trace total_files i new_name s s'
       | Raised _ => same_log s s'
       end.
Proof.
  unfold process_file.
  assert (Hq : quiet (backup_step os self old_path ;;
                      new_path <- resolve_step os self old_path
                                    (PyPath.join (target_folder self) new_name) ;;
                      rename_step os old_path new_path)).
  { apply quiet_bind; [apply quiet_backup_step|]. intros _.
    apply quiet_bind; [apply quiet_resolve_step|]. intros p.
    apply quiet_rename_step. }
  destruct (Hq s) as (r & s1 & Hrun & Hlog). revert Hrun.
  unfold bind.
  destruct (backup_step os self old_path s) as [[[[]|e] s0]|]; [| |done].
  2:{ intros [= <- <-]. by exists (Raised e), s0. }
  destruct (resolve_step _ _ _ _ s0) as [[[p|e] s0']|]; [| |done].
  2:{ intros [= <- <-]. by exists (Raised e), s0'. }
  destruct (rename_step os old_path p s0') as [[[[]|e] s2]|]; [| |done].
  2:{ intros [= <- <-]. by exists (Raised e), s2. }
  intros [= <- <-]. unfold progress_step.
  destruct Hlog as [Hsig Hcon].
  destruct (PyFloat.percent (i + 1) total_files) as [progress|e] eqn:Hp.
  - eexists (Ok tt), _. split; [done|]. split; [done|].
    exists progress. split; [done|]. simpl. by rewrite Hsig.
  - exists (Raised e), s2. split; [done | by split].
Qed.

(** One turn of the loop ends. It ends normally with the trace of the
    file, or it raises what [print] raised, with the signals and the
    console as they were. *)
Lemma iteration_outcome os out self total_files i old_path new_name s :
  exists r s',
    iteration os out self total_files i (old_path, new_name) s = Some (r, s')
    /\ match r with
       | Ok _ => failed_trace old_path s s'
                 \/ reported_trace total_files i new_name s s'
       | Raised e' => same_log s s' /\ exists e, out old_path e = Some e'
       end.
Proof.
  destruct (process_file_outcome os self total_files i old_path new_name s)
    as (r & s1 & Hrun & Hpost).
  unfold iteration, try_except. rewrite Hrun. destruct r as [[]|e].
  - exists (Ok tt), s1. split; [done | by right].
  - unfold print_failure. destruct (out old_path e) as [e'|] eqn:Hout.
    + exists (Raised e'), s1. split; [done|]. split; [done | by exists e].
    + eexists (Ok tt), _. split; [done|]. left. destruct Hpost as [Hsig Hcon].
      split; [done|]. exists e. simpl. by rewrite Hcon.
Qed.

(** The loop ends, whatever happens. *)
Lemma loop_returns os out self total_files (entries : list (Path * str)) i s :
  exists r s',
    for_enumerate (iteration os out self total_files) i entries s = Some (r, s').
Proof.
  revert i s. induction entries as [|[old_path new_name] entries IH]; intros i s.
  - by exists (Ok tt), s.
  - destruct (iteration_outcome os out self total_files i old_path new_name s)
      as (r & s1 & Hrun & _).
    cbn [for_enumerate]. unfold bind at 1. rewrite Hrun.
    destruct r as [[]|e]; [apply IH | by exists (Raised e), s1].
Qed.

Section Printed.
Variable os : OsFaults.
Variable out : Stdout.
Variable self : RenameWorker.
Hypothesis printed : forall old_path e, out old_path e = None.

(** While every line can be printed, every turn ends normally. *)
Lemma iteration_printed total_files i old_path new_name s :
  exists s',
    iteration os out self total_files i (old_path, new_name) s = Some (Ok tt, s')
    /\ (failed_trace old_path s s' \/ reported_trace total_files i new_name s s').
Proof.
  destruct (iteration_outcome os out self total_files i old_path new_name s)
    as ([[]|e'] & s1 & Hrun & Hpost).
  - by exists s1.
  - destruct Hpost as [_ [e He]]. by rewrite printed in He.
Qed.

Lemma loop_outcome total_files (entries : list (Path * str)) i s :
  exists s',
    for_enumerate (iteration os out self total_files) i entries s = Some (Ok tt, s')
    /\ traces s' = traces s + length entries.
Proof.
  revert i s. induction entries as [|[old_path new_name] entries IH]; intros i s.
  - exists s. split; [done|]. simpl. lia.
  - destruct (iteration_printed total_files i old_path new_name s)
      as (s1 & Hrun & Hpost).
    destruct (IH (S i) s1) as (s2 & Hrun2 & Hcount).
    exists s2. split.
    + cbn [for_enumerate]. unfold bind at 1. by rewrite Hrun.
    + rewrite Hcount. simpl. unfold traces.
      destruct Hpost as [[-> [e ->]] | [-> (p & _ & ->)]];
        rewrite length_app; simpl; lia.
Qed.

Lemma loop_app total_files (pre post : list (Path * str)) i s :
  exists s1,
    for_enumerate (iteration os out self total_files) i pre s = Some (Ok tt, s1)
    /\ for_enumerate (iteration os out self total_files) i (pre ++ post) s
       = for_enumerate (iteration os out self total_files) (i + length pre) post s1.
Proof.
  revert i s. induction pre as [|[old_path new_name] pre IH]; intros i s.
  - exists s. split; [done|]. simpl. by rewrite Nat.add_0_r.
  - destruct (iteration_printed total_files i old_path new_name s)
      as (s0 & Hrun & _).
    destruct (IH (S i) s0) as (s1 & Hpre & Happ).
    exists s1. cbn [for_enumerate app length]. unfold bind at 1 2.
    rewrite Hrun. split; [done|].
    rewrite Happ. f_equal. lia.
Qed.

End Printed.

(** Entries that went through, followed by more entries. *)
Lemma loop_prefix os out self total_files (pre post : list (Path * str)) i s s0 :
  for_enumerate (iteration os out self total_files) i pre s = Some (Ok tt, s0) ->
  for_enumerate (iteration os out self total_files) i (pre ++ post) s
  = for_enumerate (iteration os out self total_files) (i + length pre) post s0.
Proof.
  revert i s. induction pre as [|entry pre IH]; intros i s.
  - intros [= ->]. simpl. by rewrite Nat.add_0_r.
  - cbn [for_enumerate app length]. unfold bind at 1 2.
    destruct (iteration os out self total_files i entry s) as [[[[]|e] s1]|];
      [|done..].
    intros Hpre. rewrite (IH _ _ Hpre). f_equal. lia.
Qed.

(** The outer [try] around a loop, on the lists of the state. *)
Lemma run_around_outcome (self : RenameWorker) (loop : M unit) (s : RunState) :
  match loop s with
  | Some (r, s1) =>
      exists s',
        run_around self loop s = Some (Ok tt, s')
        /\ disk s' = disk s1 /\ console s' = console s1
        /\ success_count s' = success_count s1
        /\ signals s'
           = signals s1
             ++ [match r with
                 | Ok _ => finished true (Completed (success_count s1)
                                            (length (file_list self)))
                 | Raised e => finished false (Crashed e)
                 end]
  | None => run_around self loop s = None
  end.
Proof.
  unfold run_around, try_except, bind, gets, modify.
  destruct (loop s) as [[[[]|e] s1]|]; [| |done]; by eexists.
Qed.

(** C2 fails on the code. The handler of the inner [try] prints, and the
    [print] is not protected: when the file at some position fails with
    [e] and printing the line of that failure raises [e'], the exception
    leaves the loop. The files after it are not processed, whatever they
    are: the loop ends in the state [s1] that the failed file left, and the
    run ends with [finished(False, ...)]. *)
Theorem print_failure_aborts_the_batch (os : OsFaults) (out : Stdout)
    (self : RenameWorker) (pre rest : list (Path * str)) (old_path : Path)
    (new_name : str) (e e' : Exn) (s s0 s1 : RunState) :
  zip (file_list self) (new_names self) = pre ++ (old_path, new_name) :: rest ->
  for_enumerate (iteration os out self (length (file_list self))) 0 pre
    (set_success_count 0 s) = Some (Ok tt, s0) ->
  process_file os self (length (file_list self)) (length pre) old_path new_name s0
    = Some (Raised e, s1) ->
  out old_path e = Some e' ->
  batch os out self s = Some (Raised e', s1)
  /\ exists s',
       run os out self s = Some (Ok tt, s')
       /\ disk s' = disk s1
       /\ console s' = console s1
       /\ signals s' = signals s1 ++ [finished false (Crashed e')].
Proof.
  intros Hzip Hpre Hfile Hout.
  assert (Hbatch : batch os out self s = Some (Raised e', s1)).
  { unfold batch. unfold bind at 1. unfold modify at 1. rewrite Hzip.
    rewrite (loop_prefix _ _ _ _ _ _ _ _ _ Hpre).
    cbn [for_enumerate Nat.add]. unfold bind at 1.
    unfold iteration, try_except. rewrite Hfile. unfold print_failure.
    by rewrite Hout. }
  split; [done|].
  pose proof (run_around_outcome self (batch os out self) s) as Hrun.
  rewrite Hbatch in Hrun. destruct Hrun as (s' & Hrun & Hd & Hc & _ & Hs).
  by exists s'.
Qed.

(** C7, as the code has it. When the file failed (the body raised [e]) no
    progress signal is emitted: the signals are unchanged, and the turn
    prints the line of that failure, or raises what [print] raised. When
    the body went through, the turn ends normally and exactly one progress
    signal is emitted; for the entry at index [i] it carries
    [PyFloat.percent (i + 1) total_files], the double-precision value of
    [(i + 1) / total_files * 100] truncated by [int], not rounded. *)
Theorem progress_follows_success (os : OsFaults) (out : Stdout)
    (self : RenameWorker) (total_files i : nat) (old_path : Path)
    (new_name : str) (s : RunState) :
  exists r s1 r' s',
    process_file os self total_files i old_path new_name s = Some (r, s1)
    /\ iteration os out self total_files i (old_path, new_name) s = Some (r', s')
    /\ match r with
       | Raised e =>
           signals s' = signals s
           /\ match out old_path e with
              | None => r' = Ok tt
                        /\ s' = add_line (old_path, e) s1
                        /\ console s' = console s ++ [(old_path, e)]
              | Some e' => r' = Raised e' /\ s' = s1 /\ console s' = console s
              end
       | Ok _ => r' = Ok tt
                 /\ s' = s1
                 /\ console s' = console s
                 /\ exists progress,
                      PyFloat.percent (i + 1) total_files = Ok progress
                      /\ signals s' = signals s ++ [progress_updated progress new_name]
       end.
Proof.
  destruct (process_file_outcome os self total_files i old_path new_name s)
    as (r & s1 & Hrun & Hpost).
  exists r, s1. unfold iteration, try_except. rewrite Hrun.
  destruct r as [[]|e].
  - exists (Ok tt), s1. destruct Hpost as [Hcon Hsig]. done.
  - destruct Hpost as [Hsig Hcon]. unfold print_failure.
    destruct (out old_path e) as [e'|].
    + by exists (Raised e'), s1.
    + eexists (Ok tt), _. split; [done|]. split; [done|].
      split; [done|]. split; [done|]. split; [done|]. simpl. by rewrite Hcon.
Qed.

(** C10: the run always ends, and its last signal is the terminal one.
    Whenever the per-file loop runs to completion, this signal is
    [finished(True, ...)] with the success count, however many files
    failed; it is [finished(False, ...)] exactly when an exception leaves
    the loop. While the line of every failure can be printed the loop does
    run to completion. *)
Theorem run_finished_flag (os : OsFaults) (out : Stdout) (self : RenameWorker)
    (s : RunState) :
  exists r s1 s',
    batch os out self s = Some (r, s1)
    /\ run os out self s = Some (Ok tt, s')
    /\ disk s' = disk s1
    /\ console s' = console s1
    /\ success_count s' = success_count s1
    /\ signals s'
       = signals s1
         ++ [match r with
             | Ok _ => finished true (Completed (success_count s1)
                                        (length (file_list self)))
             | Raised e => finished false (Crashed e)
             end]
    /\ ((forall old_path e, out old_path e = None) -> r = Ok tt).
Proof.
  destruct (loop_returns os out self (length (file_list self))
              (zip (file_list self) (new_names self)) 0 (set_success_count 0 s))
    as (r & s1 & Hloop).
  assert (Hbatch : batch os out self s = Some (r, s1)) by done.
  pose proof (run_around_outcome self (batch os out self) s) as Hrun.
  rewrite Hbatch in Hrun. destruct Hrun as (s' & Hrun & Hd & Hc & Hn & Hs).
  exists r, s1, s'. split_and!; try done.
  intros Hprinted.
  destruct (loop_outcome os out self Hprinted (length (file_list self))
              (zip (file_list self) (new_names self)) 0 (set_success_count 0 s))
    as (s2 & Hloop2 & _).
  rewrite Hloop2 in Hloop. by injection Hloop as <- _.
Qed.

(** ** The conflict block and the rename *)

Lemma resolve_step_probe os self old_file new_path s :
  overwrite_enabled self = false ->
  exists p,
    resolve_step os self old_file new_path s = Some (Ok p, s)
    /\ probe_loop (occupied old_file (disk s)) (numbered new_path)
         (size (disk s) + 2) 1 new_path = Some p.
Proof.
  intros How. unfold resolve_step. rewrite How. simpl. unfold probe.
  destruct (probe_loop_total (disk s) (occupied old_file (disk s))
              (numbered new_path) new_path) as [p Hp].
  - intros q Hq. by apply occupied_spec in Hq as [? _].
  - apply numbered_inj.
  - exists p. by rewrite Hp.
Qed.

Lemma rename_step_same os old_file s :
  rename_step os old_file old_file s = Some (Ok tt, s).
Proof. unfold rename_step. by rewrite bool_decide_eq_false_2 by (by intros ?). Qed.

Lemma rename_step_moves os old_file new_path s f :
  old_file ≠ new_path ->
  os (OpRename old_file new_path) (disk s) = false ->
  disk s !! old_file = Some f ->
  rename_step os old_file new_path s
  = Some (Ok tt, {| disk := <[new_path := f]> (delete old_file (disk s));
                    signals := signals s; console := console s;
                    success_count := success_count s + 1 |}).
Proof.
  intros Hne Hos Hold. unfold rename_step, bind, rename, modify.
  rewrite bool_decide_eq_true_2 by done. by rewrite Hos, Hold.
Qed.

(** C4, as the code has it: with overwriting disabled, a target that exists
    on disk and is not the source, a source that exists and an operating
    system that lets it be renamed, the worker tries the names
    [stem_N suffix] for N = 1, 2, ... and stops at the first one that is
    either absent from the disk or the source file itself; every earlier
    one is on disk and is not the source. When it stopped at a name absent
    from the disk, the file is renamed to it, no other file is touched and
    the success count grows by one. When it stopped at the source itself,
    nothing is renamed and nothing is counted. *)
Theorem numbered_target_without_overwrite (os : OsFaults) (self : RenameWorker)
    (old_file new_path : Path) (f : File) (s : RunState) :
  overwrite_enabled self = false ->
  is_Some (disk s !! new_path) ->
  new_path ≠ old_file ->
  disk s !! old_file = Some f ->
  (forall dst, os (OpRename old_file dst) (disk s) = false) ->
  exists n,
    1 <= n
    /\ resolve_step os self old_file new_path s
       = Some (Ok (numbered new_path n), s)
    /\ (forall k, 1 <= k < n ->
          is_Some (disk s !! numbered new_path k)
          /\ numbered new_path k ≠ old_file)
    /\ ((numbered new_path n = old_file
         /\ rename_step os old_file (numbered new_path n) s = Some (Ok tt, s))
        \/ (numbered new_path n ≠ old_file
            /\ disk s !! numbered new_path n = None
            /\ rename_step os old_file (numbered new_path n) s
               = Some (Ok tt,
                       {| disk := <[numbered new_path n := f]>
                                    (delete old_file (disk s));
                          signals := signals s; console := console s;
                          success_count := success_count s + 1 |}))).
Proof.
  intros How Hthere Hne Hold Hos.
  destruct (resolve_step_probe os self old_file new_path s How) as (p & Hres & Hloop).
  apply probe_loop_some in Hloop as [Hfree Hcase].
  assert (Hocc : occupied old_file (disk s) new_path = true)
    by (by apply occupied_spec).
  destruct Hcase as [-> | (n & Hn & -> & _ & Hall)]; [congruence|].
  exists n. split; [done|]. split; [done|]. split.
  { intros k Hk. by apply occupied_spec, Hall. }
  destruct (decide (numbered new_path n = old_file)) as [Heq|Hneq].
  - left. split; [done|]. rewrite Heq. apply rename_step_same.
  - right. split; [done|].
    assert (Hnone : disk s !! numbered new_path n = None).
    { destruct (disk s !! numbered new_path n) as [g|] eqn:Hg; [|done].
      assert (occupied old_file (disk s) (numbered new_path n) = true)
        by (apply occupied_spec; split; [by rewrite Hg | done]).
      congruence. }
    split; [done|]. by apply rename_step_moves.
Qed.

Lemma resolve_step_source os self old_file new_path s s1 :
  resolve_step os self old_file new_path s = Some (Ok old_file, s1) -> s1 = s.
Proof.
  unfold resolve_step. destruct (negb (overwrite_enabled self)).
  - unfold probe. destruct (probe_loop _ _ _ _ _); [|done]. by intros [= _ ->].
  - unfold bind, gets. destruct (occupied old_file (disk s) new_path) eqn:Hocc.
    + apply occupied_spec in Hocc as [_ Hne].
      destruct (unlink os new_path s) as [[[[]|e] s2]|]; [|done..].
      unfold ret. intros [= -> _]. done.
    + unfold ret. by intros [= _ ->].
Qed.

Lemma backup_step_keeps_count os self old_file s r s0 :
  backup_step os self old_file s = Some (r, s0) ->
  success_count s0 = success_count s.
Proof.
  unfold backup_step, bind, gets.
  destruct (backup_enabled self && Fs.path_exists (disk s) old_file).
  - unfold probe. destruct (probe_loop _ _ _ _ _) as [p|]; [|done].
    unfold copy2. destruct (os _ _); [by intros [= _ <-]|].
    destruct (disk s !! old_file); by intros [= _ <-].
  - unfold ret. by intros [= _ <-].
Qed.

(** C6, as the code has it: when the resolved target of an entry is its
    source path, the conflict block has changed nothing, the rename is
    skipped, the success count stays as it was (the entry is not counted),
    and the progress signal of the entry is still emitted. [s0] is the
    state after the backup block. *)
Theorem identical_paths_not_counted (os : OsFaults) (self : RenameWorker)
    (total_files i : nat) (old_path : Path) (new_name : str)
    (progress : Z) (s s0 s1 : RunState) :
  backup_step os self old_path s = Some (Ok tt, s0) ->
  resolve_step os self old_path (PyPath.join (target_folder self) new_name) s0
    = Some (Ok old_path, s1) ->
  PyFloat.percent (i + 1) total_files = Ok progress ->
  s1 = s0
  /\ rename_step os old_path old_path s1 = Some (Ok tt, s1)
  /\ success_count s0 = success_count s
  /\ process_file os self total_files i old_path new_name s
     = Some (Ok tt, add_signal (progress_updated progress new_name) s0).
Proof.
  intros Hback Hres Hpct.
  pose proof (resolve_step_source _ _ _ _ _ _ Hres) as ->.
  split; [done|]. split; [apply rename_step_same|].
  split; [by eapply backup_step_keeps_count|].
  unfold process_file, bind. rewrite Hback, Hres, rename_step_same.
  unfold progress_step. by rewrite Hpct.
Qed.

(** ** Runs on concrete folders *)

(** In the folder with [a.txt] and [b.txt], renaming [b.txt] to the taken
    name [a.txt]: the facts of the theorem, at this input. *)
Lemma numbered_target_without_overwrite_witness :
  exists n,
    1 <= n
    /\ resolve_step Sample.willing
         (Sample.worker [Sample.path ["d"; "b.txt"]] (Sample.names ["a.txt"])
            false false)
         (Sample.path ["d"; "b.txt"]) (Sample.path ["d"; "a.txt"])
         (Sample.fresh Sample.a_and_b)
       = Some (Ok (numbered (Sample.path ["d"; "a.txt"]) n),
               Sample.fresh Sample.a_and_b)
    /\ (forall k, 1 <= k < n ->
          is_Some (disk (Sample.fresh Sample.a_and_b)
                     !! numbered (Sample.path ["d"; "a.txt"]) k)
          /\ numbered (Sample.path ["d"; "a.txt"]) k ≠ Sample.path ["d"; "b.txt"])
    /\ ((numbered (Sample.path ["d"; "a.txt"]) n = Sample.path ["d"; "b.txt"]
         /\ rename_step Sample.willing (Sample.path ["d"; "b.txt"])
              (numbered (Sample.path ["d"; "a.txt"]) n)
              (Sample.fresh Sample.a_and_b)
            = Some (Ok tt, Sample.fresh Sample.a_and_b))
        \/ (numbered (Sample.path ["d"; "a.txt"]) n ≠ Sample.path ["d"; "b.txt"]
            /\ disk (Sample.fresh Sample.a_and_b)
                 !! numbered (Sample.path ["d"; "a.txt"]) n = None
            /\ rename_step Sample.willing (Sample.path ["d"; "b.txt"])
                 (numbered (Sample.path ["d"; "a.txt"]) n)
                 (Sample.fresh Sample.a_and_b)
               = Some (Ok tt,
                       {| disk := <[numbered (Sample.path ["d"; "a.txt"]) n
                                      := Sample.file "B"]>
                                    (delete (Sample.path ["d"; "b.txt"])
                                       (disk (Sample.fresh Sample.a_and_b)));
                          signals := signals (Sample.fresh Sample.a_and_b);
                          console := console (Sample.fresh Sample.a_and_b);
                          success_count :=
                            success_count (Sample.fresh Sample.a_and_b) + 1 |}))).
Proof.
  apply (numbered_target_without_overwrite Sample.willing
           (Sample.worker [Sample.path ["d"; "b.txt"]] (Sample.names ["a.txt"])
              false false)
           (Sample.path ["d"; "b.txt"]) (Sample.path ["d"; "a.txt"])
           (Sample.file "B") (Sample.fresh Sample.a_and_b)).
  - reflexivity.
  - exists (Sample.file "A"). vm_compute. reflexivity.
  - discriminate.
  - vm_compute. reflexivity.
  - intros dst. reflexivity.
Defined.

(** The same input run as a whole: [b.txt] ends up as [a_1.txt]. *)
Example taken_target_gets_suffix :
  run Sample.willing Sample.terminal
    (Sample.worker [Sample.path ["d"; "b.txt"]] (Sample.names ["a.txt"])
       false false)
    (Sample.fresh Sample.a_and_b)
  = Some (Ok tt,
          {| disk := list_to_map [ (Sample.path ["d"; "a.txt"], Sample.file "A");
                                   (Sample.path ["d"; "a_1.txt"], Sample.file "B") ];
             signals := [ progress_updated 100 (utf8 "a.txt");
                          finished true (Completed 1 1) ];
             console := [];
             success_count := 1 |}).
Proof. vm_compute. reflexivity. Qed.

(** C4 as stated fails: the folder holds [a.txt] and [a_1.txt], and
    [a_1.txt] is to become [a.txt] with overwriting disabled. The target
    exists and is not the source, yet the first numbered name, [a_1.txt],
    is the source itself: the probing stops on a name that is on disk and
    the file is not renamed. *)
Lemma numbering_stops_at_the_source :
  resolve_step Sample.willing
    (Sample.worker [Sample.path ["d"; "a_1.txt"]] (Sample.names ["a.txt"])
       false false)
    (Sample.path ["d"; "a_1.txt"]) (Sample.path ["d"; "a.txt"])
    (Sample.fresh Sample.two_files)
  = Some (Ok (Sample.path ["d"; "a_1.txt"]), Sample.fresh Sample.two_files)
  /\ Fs.path_exists Sample.two_files (Sample.path ["d"; "a_1.txt"]) = true
  /\ run Sample.willing Sample.terminal
       (Sample.worker [Sample.path ["d"; "a_1.txt"]] (Sample.names ["a.txt"])
          false false)
       (Sample.fresh Sample.two_files)
     = Some (Ok tt,
             {| disk := Sample.two_files;
                signals := [ progress_updated 100 (utf8 "a.txt");
                             finished true (Completed 0 1) ];
                console := [];
                success_count := 0 |}).
Proof. split; [|split]; vm_compute; reflexivity. Qed.

(** The file [a.txt] keeps its name: the facts of the theorem, at this
    input. *)
Lemma identical_paths_not_counted_witness :
  Sample.fresh Sample.one_file = Sample.fresh Sample.one_file
  /\ rename_step Sample.willing (Sample.path ["d"; "a.txt"])
       (Sample.path ["d"; "a.txt"]) (Sample.fresh Sample.one_file)
     = Some (Ok tt, Sample.fresh Sample.one_file)
  /\ success_count (Sample.fresh Sample.one_file)
     = success_count (Sample.fresh Sample.one_file)
  /\ process_file Sample.willing
       (Sample.worker [Sample.path ["d"; "a.txt"]] (Sample.names ["a.txt"])
          false false) 1 0
       (Sample.path ["d"; "a.txt"]) (utf8 "a.txt") (Sample.fresh Sample.one_file)
     = Some (Ok tt, add_signal (progress_updated 100 (utf8 "a.txt"))
                      (Sample.fresh Sample.one_file)).
Proof.
  apply (identical_paths_not_counted Sample.willing
           (Sample.worker [Sample.path ["d"; "a.txt"]] (Sample.names ["a.txt"])
              false false) 1 0
           (Sample.path ["d"; "a.txt"]) (utf8 "a.txt") 100%Z
           (Sample.fresh Sample.one_file) (Sample.fresh Sample.one_file)
           (Sample.fresh Sample.one_file));
    vm_compute; reflexivity.
Defined.

(** C6 as stated fails: the only entry keeps its name, so its source and
    its target are the same path; the rename is skipped and the completion
    signal reports 0 successes out of 1. *)
Lemma unchanged_name_is_not_a_success :
  PyPath.join (Sample.path ["d"]) (utf8 "a.txt") = Sample.path ["d"; "a.txt"]
  /\ run Sample.willing Sample.terminal
       (Sample.worker [Sample.path ["d"; "a.txt"]] (Sample.names ["a.txt"])
          false false)
       (Sample.fresh Sample.one_file)
     = Some (Ok tt,
             {| disk := Sample.one_file;
                signals := [ progress_updated 100 (utf8 "a.txt");
                             finished true (Completed 0 1) ];
                console := [];
                success_count := 0 |}).
Proof. split; vm_compute; reflexivity. Qed.

(** C7 as stated fails: three files, the first of which the operating
    system refuses to rename. No progress signal is emitted for the failed
    file, and the signal after the second file carries 66 where
    [round(100 * 2 / 3)] is 67. *)
Lemma progress_skips_failures_and_truncates :
  run (Sample.locked (Sample.path ["d"; "a.txt"])) Sample.terminal
    (Sample.worker [ Sample.path ["d"; "a.txt"]; Sample.path ["d"; "b.txt"];
                     Sample.path ["d"; "c.txt"] ]
                   (Sample.names ["x.txt"; "y.txt"; "z.txt"]) false false)
    (Sample.fresh Sample.three_files)
  = Some (Ok tt,
          {| disk := list_to_map [ (Sample.path ["d"; "a.txt"], Sample.file "A");
                                   (Sample.path ["d"; "y.txt"], Sample.file "B");
                                   (Sample.path ["d"; "z.txt"], Sample.file "C") ];
             signals := [ progress_updated 66 (utf8 "y.txt");
                          progress_updated 100 (utf8 "z.txt");
                          finished true (Completed 2 3) ];
             console := [ (Sample.path ["d"; "a.txt"], OSError) ];
             success_count := 2 |})
  /\ spec_percent 2 3 = 67%Z
  /\ PyFloat.percent 2 3 = Ok 66%Z.
Proof. split; [|split]; vm_compute; reflexivity. Qed.

(** Truncation of the double-precision product can fall below the exact
    quotient: [29 / 100 * 100] is [28.999999999999996]. *)
Example percent_29_of_100 :
  PyFloat.percent 29 100 = Ok 28%Z /\ spec_percent 29 100 = 29%Z.
Proof. split; vm_compute; reflexivity. Qed.

(** Every file of the batch fails, and the run still ends with
    [finished(True, ...)], reporting 0 of 2. *)
Example all_files_fail :
  run (fun _ _ => true) Sample.terminal
    (Sample.worker [Sample.path ["d"; "a.txt"]; Sample.path ["d"; "b.txt"]]
       (Sample.names ["x.txt"; "y.txt"]) true false)
    (Sample.fresh Sample.a_and_b)
  = Some (Ok tt,
          {| disk := Sample.a_and_b;
             signals := [ finished true (Completed 0 2) ];
             console := [ (Sample.path ["d"; "a.txt"], OSError);
                          (Sample.path ["d"; "b.txt"], OSError) ];
             success_count := 0 |}).
Proof. vm_compute. reflexivity. Qed.

(** The file [a.txt] is in use and the standard output cannot encode the
    line of the failure: the facts of the theorem, at this input. *)
Lemma print_failure_aborts_the_batch_witness :
  batch (Sample.locked (Sample.path ["d"; "a.txt"])) Sample.ascii_stdout
    (Sample.worker [Sample.path ["d"; "a.txt"]; Sample.path ["d"; "b.txt"]]
       (Sample.names ["x.txt"; "y.txt"]) false false)
    (Sample.fresh Sample.a_and_b)
  = Some (Raised UnicodeEncodeError, Sample.fresh Sample.a_and_b)
  /\ exists s',
       run (Sample.locked (Sample.path ["d"; "a.txt"])) Sample.ascii_stdout
         (Sample.worker [Sample.path ["d"; "a.txt"]; Sample.path ["d"; "b.txt"]]
            (Sample.names ["x.txt"; "y.txt"]) false false)
         (Sample.fresh Sample.a_and_b)
       = Some (Ok tt, s')
       /\ disk s' = disk (Sample.fresh Sample.a_and_b)
       /\ console s' = console (Sample.fresh Sample.a_and_b)
       /\ signals s'
          = signals (Sample.fresh Sample.a_and_b)
            ++ [finished false (Crashed UnicodeEncodeError)].
Proof.
  apply (print_failure_aborts_the_batch
           (Sample.locked (Sample.path ["d"; "a.txt"])) Sample.ascii_stdout
           (Sample.worker [Sample.path ["d"; "a.txt"]; Sample.path ["d"; "b.txt"]]
              (Sample.names ["x.txt"; "y.txt"]) false false)
           [] [(Sample.path ["d"; "b.txt"], utf8 "y.txt")]
           (Sample.path ["d"; "a.txt"]) (utf8 "x.txt")
           OSError UnicodeEncodeError
           (Sample.fresh Sample.a_and_b) (Sample.fresh Sample.a_and_b)
           (Sample.fresh Sample.a_and_b));
    vm_compute; reflexivity.
Defined.

(** The same run as a whole: [a.txt] fails, the line cannot be printed, and
    [b.txt], which could have been renamed, is left under its name; the run
    ends with [finished(False, ...)]. On a standard output that takes the
    line, [b.txt] is renamed and the run ends with [finished(True, ...)]. *)
Example second_file_is_left_behind :
  run (Sample.locked (Sample.path ["d"; "a.txt"])) Sample.ascii_stdout
    (Sample.worker [Sample.path ["d"; "a.txt"]; Sample.path ["d"; "b.txt"]]
       (Sample.names ["x.txt"; "y.txt"]) false false)
    (Sample.fresh Sample.a_and_b)
  = Some (Ok tt,
          {| disk := Sample.a_and_b;
             signals := [ finished false (Crashed UnicodeEncodeError) ];
             console := [];
             success_count := 0 |})
  /\ run (Sample.locked (Sample.path ["d"; "a.txt"])) Sample.terminal
       (Sample.worker [Sample.path ["d"; "a.txt"]; Sample.path ["d"; "b.txt"]]
          (Sample.names ["x.txt"; "y.txt"]) false false)
       (Sample.fresh Sample.a_and_b)
     = Some (Ok tt,
             {| disk := list_to_map
                          [ (Sample.path ["d"; "a.txt"], Sample.file "A");
                            (Sample.path ["d"; "y.txt"], Sample.file "B") ];
                signals := [ progress_updated 100 (utf8 "y.txt");
                             finished true (Completed 1 2) ];
                console := [ (Sample.path ["d"; "a.txt"], OSError) ];
                success_count := 1 |}).
Proof. split; vm_compute; reflexivity. Qed.

(** ** Name synthesis *)

Section SynthesisFacts.
Context {lib : PyLib}.

(** The part of the fallback that works: a [KeyError] or a [ValueError]
    of [format] yields the default name. *)
Lemma synthesize_falls_back (self : BatchRenameApp) (disk : gmap Path File)
    (template : str) (i : nat) (file_path : Path) (file_stat : File)
    (cleaned_name : str) :
  clean_filename self (PyPath.stem file_path) = Ok cleaned_name ->
  disk !! file_path = Some file_stat ->
  (let vars := format_vars self i file_path file_stat cleaned_name
                 (if keep_extension self then PyPath.suffix file_path
                  else []) in
   PyFormat.format vars template = Raised KeyError
   \/ PyFormat.format vars template = Raised ValueError) ->
  synthesize self disk template i file_path
  = Ok (PyPath.stem file_path ++ utf8 "_" ++ index_text self i
        ++ (if keep_extension self then PyPath.suffix file_path
            else [])).
Proof.
  intros Hclean Hstat Hfmt. unfold synthesize. rewrite Hclean, Hstat.
  cbv zeta in Hfmt. by destruct Hfmt as [-> | ->].
Qed.

(** A replacement field without a name is looked up among the positional
    arguments, of which there are none. *)
Lemma format_positional_field (kwargs : gmap str str) (rest : str) :
  PyFormat.format kwargs (utf8 "{}" ++ rest) = Raised IndexError.
Proof. reflexivity. Qed.

End SynthesisFacts.

(** C3 fails on the code: with the template [{}] (or [{0}]) and one file in
    the folder, [str.format] raises [IndexError], which the handler for
    [(KeyError, ValueError)] does not catch: [generate_new_names] raises
    instead of yielding the fallback name [a_001.txt]. A template with an
    unknown name, [{nope}], does yield the fallback. *)
Theorem positional_field_escapes (lib : PyLib) :
  generate_new_names
    (Sample.app [Sample.path ["d"; "a.txt"]] "{}" false SmartMode "" false false)
    Sample.one_file
  = Raised IndexError
  /\ generate_new_names
       (Sample.app [Sample.path ["d"; "a.txt"]] "{0}" false SmartMode ""
          false false)
       Sample.one_file
     = Raised IndexError
  /\ generate_new_names
       (Sample.app [Sample.path ["d"; "a.txt"]] "{nope}" false SmartMode ""
          false false)
       Sample.one_file
     = Ok (Sample.names ["a_001.txt"]).
Proof. split; [|split]; vm_compute; reflexivity. Qed.

(** * Further properties *)

(** ** Conflict detection, both kinds *)

(** An entry of [name_counts] with several indices: each of them is flagged
    as a duplicate, and nothing else is. *)
Lemma writes_duplicate ex ow (l : list str) nc n idxs i :
  counted l nc -> (n, idxs) ∈ nc ->
  (i, DuplicateName) ∈ writes ex ow (n, idxs) <->
    l !! i = Some n /\ exists j, j ≠ i /\ l !! j = Some n.
Proof.
  intros [Hk Hnd Hidx Hall] Hin. unfold writes. split.
  - destruct (1 <? length idxs) eqn:Hlen.
    + apply Nat.ltb_lt in Hlen.
      intros (i' & [= <-] & Hi)%list_elem_of_fmap.
      split; [by apply (Hidx _ _ _ Hin)|].
      destruct idxs as [|a [|b r]]; simpl in Hlen; try lia.
      pose proof (Hnd _ _ Hin) as Hnd'. apply NoDup_cons in Hnd' as [Hab _].
      destruct (decide (a = i)) as [->|Ha].
      * exists b. split.
        -- intros ->. apply Hab, list_elem_of_here.
        -- apply (Hidx _ _ _ Hin), list_elem_of_further, list_elem_of_here.
      * exists a. split; [done|]. apply (Hidx _ _ _ Hin), list_elem_of_here.
    + destruct (bool_decide _ && negb ow); [|by intros []%elem_of_nil].
      destruct idxs; [by intros []%elem_of_nil|].
      by intros [=]%list_elem_of_singleton.
  - intros [Hi (j & Hji & Hj)]. apply (Hidx _ _ _ Hin) in Hi, Hj.
    pose proof (nodup_two _ _ _ Hji Hj Hi) as Hlen.
    apply Nat.ltb_lt in Hlen. rewrite Hlen. apply list_elem_of_fmap. eauto.
Qed.


Lemma counted_entry (l : list str) nc i n :
  counted l nc -> l !! i = Some n -> exists idxs, (n, idxs) ∈ nc.
Proof.
  intros [Hk Hnd Hidx Hall] Hi.
  pose proof (Hall _ _ Hi) as ([n' idxs] & Hn & Hin)%list_elem_of_fmap.
  simpl in Hn. subst n'. eauto.
Qed.

(** X1: an entry of the plan is flagged as a duplicate ("重复名称") exactly
    when another entry carries the same target name, letter for letter;
    neither the files of the folder nor any setting has a part in it. *)
Theorem duplicate_flag_exact (self : BatchRenameApp) (disk : gmap Path File)
    (names : list str) (i : nat) :
  check_conflicts self disk names !! i = Some DuplicateName <->
    exists name j, j ≠ i /\ names !! i = Some name /\ names !! j = Some name.
Proof.
  rewrite check_conflicts_lookup.
  pose proof (count_names_counted names) as Hc. split.
  - intros (n & idxs & Hin & Hw).
    apply (writes_duplicate _ _ _ _ _ _ _ Hc Hin) in Hw as [Hi (j & Hji & Hj)].
    eauto.
  - intros (n & j & Hji & Hi & Hj).
    destruct (counted_entry _ _ _ _ Hc Hi) as [idxs Hin].
    exists n, idxs. split; [done|].
    apply (writes_duplicate _ _ _ _ _ _ _ Hc Hin). eauto.
Qed.



(** ** The index of a file *)

Lemma pretty_char_code (d : N) :
  (d < 10)%N -> N_of_ascii (pretty_N_char d) = (48 + d)%N.
Proof.
  intros Hd.
  assert (Hcases : (d = 0 \/ d = 1 \/ d = 2 \/ d = 3 \/ d = 4 \/ d = 5
                    \/ d = 6 \/ d = 7 \/ d = 8 \/ d = 9)%N) by lia.
  by repeat (destruct Hcases as [-> | Hcases]; [done|]); subst.
Qed.

Lemma decimal_value_pretty_go (x : N) :
  exists k : N, forall acc s,
    fold_left (fun acc c => (acc * 10 + (c - 48))%N)
      (PyStr.of_ascii (pretty_N_go x s)) acc
    = fold_left (fun acc c => (acc * 10 + (c - 48))%N)
        (PyStr.of_ascii s) (acc * 10 ^ k + x)%N.
Proof.
  induction (N.lt_wf_0 x) as [x _ IH].
  destruct (decide (x = 0%N)) as [-> | Hx].
  - exists 0%N. intros acc s. rewrite pretty_N_go_0. f_equal. lia.
  - destruct (IH (x `div` 10)%N) as [k Hk]; [apply N.div_lt; lia|].
    exists (k + 1)%N. intros acc s. rewrite pretty_N_go_step by lia.
    rewrite Hk. unfold PyStr.of_ascii. cbn [list_ascii_of_string fmap list_fmap fold_left].
    rewrite pretty_char_code by (apply N.mod_lt; lia).
    f_equal. rewrite N.pow_add_r. change (10 ^ 1)%N with 10%N.
    pose proof (N.div_mod x 10 ltac:(lia)) as Hdiv.
    clear IH Hk. revert Hdiv.
    generalize (x `div` 10)%N, (x `mod` 10)%N, (10 ^ k)%N. intros q r P Hdiv. nia.
Qed.

Lemma decimal_value_str (n : nat) :
  decimal_value (PyStr.str_of_nat n) = N.of_nat n.
Proof.
  unfold decimal_value, PyStr.str_of_nat, pretty, pretty_nat, pretty, pretty_N.
  destruct (decide (N.of_nat n = 0%N)) as [-> | Hn]; [done|].
  destruct (decimal_value_pretty_go (N.of_nat n)) as [k Hk].
  rewrite Hk. cbn. lia.
Qed.

Lemma decimal_value_zfill (width : nat) (s : str) :
  decimal_value (PyStr.zfill width s) = decimal_value s.
Proof.
  unfold PyStr.zfill, decimal_value.
  induction (width - length s) as [|k IH]; [done|]. exact IH.
Qed.


Lemma index_text_value (self : BatchRenameApp) (i : nat) :
  decimal_value (index_text self i) = N.of_nat (start_number self + i).
Proof. unfold index_text. by rewrite decimal_value_zfill, decimal_value_str. Qed.

Lemma index_text_inj (self : BatchRenameApp) (i j : nat) :
  index_text self i = index_text self j -> i = j.
Proof.
  intros Heq. pose proof (index_text_value self i) as Hi.
  rewrite Heq, index_text_value in Hi. lia.
Qed.


(** ** Templates that are well formed *)

Lemma snoc_app (out : str) (c : N) (s : str) :
  PyFormat.snoc out c ++ s = out ++ c :: s.
Proof. unfold PyFormat.snoc. by rewrite <- app_assoc. Qed.

Section Templates.
Context {lib : PyLib}.
Variable vars : gmap str str.

Lemma scan_text (text : str) :
  forallb brace_free text = true ->
  forall out rest,
    PyFormat.scan vars PyFormat.Literal out (text ++ rest)
    = PyFormat.scan vars PyFormat.Literal (out ++ text) rest.
Proof.
  induction text as [|c text IH]; intros Hfree out rest.
  - by rewrite app_nil_r.
  - cbn [forallb] in Hfree. apply andb_true_iff in Hfree as [Hc Hfree].
    unfold brace_free in Hc. apply andb_true_iff in Hc as [Hopen Hclose].
    apply negb_true_iff in Hopen, Hclose.
    rewrite <- app_comm_cons.
    cbn [PyFormat.scan PyFormat.step]. rewrite Hopen, Hclose.
    rewrite IH by done. by rewrite snoc_app.
Qed.

Lemma scan_name (key : str) :
  forallb name_char key = true ->
  forall acc out rest,
    PyFormat.scan vars (PyFormat.FieldName acc) out (key ++ ch "}" :: rest)
    = match PyFormat.render vars (acc ++ key) None [] with
      | Ok v => PyFormat.scan vars PyFormat.Literal (out ++ v) rest
      | Raised e => Raised e
      end.
Proof.
  induction key as [|c key IH]; intros Hname acc out rest.
  - by rewrite app_nil_r.
  - cbn [forallb] in Hname. apply andb_true_iff in Hname as [Hc Hname].
    unfold name_char in Hc. rewrite !andb_true_iff, !negb_true_iff in Hc.
    destruct Hc as [[[[H1 H2] H3] H4] H5].
    rewrite <- app_comm_cons.
    cbn [PyFormat.scan PyFormat.step]. unfold PyFormat.name_step.
    rewrite H1, H2, H3, H4, H5. rewrite IH by done. by rewrite snoc_app.
Qed.

Lemma scan_field (key : str) (out rest : str) :
  forallb name_char key = true ->
  PyFormat.scan vars PyFormat.Literal out (ch "{" :: key ++ ch "}" :: rest)
  = match PyFormat.render vars key None [] with
    | Ok v => PyFormat.scan vars PyFormat.Literal (out ++ v) rest
    | Raised e => Raised e
    end.
Proof.
  intros Hname.
  cbn [PyFormat.scan]. change (PyFormat.step PyFormat.Literal (ch "{"))
    with (PyFormat.Next PyFormat.AfterOpen).
  cbv iota beta.
  destruct key as [|c key]; [done|].
  rewrite <- (scan_name (c :: key) Hname []).
  rewrite <- app_comm_cons.
  cbn [PyFormat.scan PyFormat.step].
  cbn [forallb] in Hname. apply andb_true_iff in Hname as [Hc _].
  unfold name_char in Hc. rewrite !andb_true_iff, !negb_true_iff in Hc.
  destruct Hc as [[[[-> _] _] _] _]. done.
Qed.

Lemma render_defined (key v : str) :
  PyFormat.split_first key = (key, []) ->
  key <> [] ->
  PyFormat.get_integer key = Ok None ->
  vars !! key = Some v ->
  PyFormat.render vars key None [] = Ok v.
Proof.
  intros Hsplit Hkey Hint Hv. unfold PyFormat.render.
  rewrite Hsplit, Hint, bool_decide_eq_false_2 by done. by rewrite Hv.
Qed.

Lemma placeholder_facts (key : str) :
  key ∈ placeholders ->
  forallb name_char key = true
  /\ PyFormat.split_first key = (key, [])
  /\ key <> []
  /\ PyFormat.get_integer key = Ok None.
Proof.
  unfold placeholders. cbn [fmap list_fmap]. intros Hkey.
  repeat (apply elem_of_cons in Hkey as [-> | Hkey];
          [by split_and!; vm_compute |]).
  by apply elem_of_nil in Hkey.
Qed.

Lemma format_pieces (pieces : list Piece) :
  forallb well_formed pieces = true ->
  (forall key, key ∈ placeholders -> is_Some (vars !! key)) ->
  forall out,
    PyFormat.scan vars PyFormat.Literal out (template_of pieces)
    = Ok (out ++ expand vars pieces).
Proof.
  intros Hwf Hvars. induction pieces as [|p pieces IH]; intros out.
  - cbn. by rewrite app_nil_r.
  - cbn [forallb] in Hwf. apply andb_true_iff in Hwf as [Hp Hwf].
    cbn [template_of expand foldr]. fold (template_of pieces). fold (expand vars pieces).
    destruct p as [text | key]; cbn [piece_text piece_value well_formed] in *.
    + rewrite scan_text by done. rewrite IH by done. by rewrite app_assoc.
    + apply bool_decide_eq_true in Hp.
      destruct (placeholder_facts key Hp) as (Hname & Hsplit & Hne & Hint).
      destruct (Hvars key Hp) as [v Hv].
      rewrite <- app_comm_cons, <- app_assoc. cbn [app].
      rewrite scan_field by done.
      rewrite (render_defined key v) by done.
      rewrite IH by done. rewrite Hv. cbn [default]. by rewrite app_assoc.
Qed.

End Templates.

(** ** The names of a whole list *)

Section Names.
Context {lib : PyLib}.

Lemma format_vars_defined (self : BatchRenameApp) (i : nat) (file_obj : Path)
    (file_stat : File) (cleaned_name extension key : str) :
  key ∈ placeholders ->
  is_Some (format_vars self i file_obj file_stat cleaned_name extension !! key).
Proof.
  intros Hkey. apply elem_of_dom. unfold format_vars.
  rewrite dom_list_to_map_L. apply elem_of_list_to_set. exact Hkey.
Qed.


Lemma format_vars_index (self : BatchRenameApp) (i : nat) (file_obj : Path)
    (file_stat : File) (cleaned_name extension : str) :
  format_vars self i file_obj file_stat cleaned_name extension !! utf8 "index"
  = Some (index_text self i).
Proof. reflexivity. Qed.

Lemma synthesize_pieces (self : BatchRenameApp) (disk : gmap Path File)
    (pieces : list Piece) (i : nat) (file_path : Path) (file_stat : File)
    (cleaned_name : str) :
  forallb well_formed pieces = true ->
  clean_filename self (PyPath.stem file_path) = Ok cleaned_name ->
  disk !! file_path = Some file_stat ->
  let extension := if keep_extension self then PyPath.suffix file_path
                   else [] in
  let vars := format_vars self i file_path file_stat cleaned_name extension in
  synthesize self disk (template_of pieces) i file_path
  = Ok (expand vars pieces ++ extension).
Proof.
  intros Hwf Hclean Hstat extension vars. unfold synthesize.
  rewrite Hclean, Hstat.
  fold extension. fold vars. unfold PyFormat.format.
  rewrite format_pieces; [done | done |].
  intros key Hkey. by apply format_vars_defined.
Qed.

Lemma synthesize_all_ok (self : BatchRenameApp) (disk : gmap Path File)
    (template : str) (files : list Path) :
  forall k names,
    synthesize_all self disk template k files = Ok names <->
    length names = length files
    /\ forall i file_path, files !! i = Some file_path ->
         exists new_name, names !! i = Some new_name
           /\ synthesize self disk template (k + i) file_path = Ok new_name.
Proof.
  induction files as [|file_path files IH]; intros k names.
  - cbn. split.
    + intros [= <-]. split; [done|]. intros i f Hf. done.
    + intros [Hlen _]. by destruct names.
  - cbn [synthesize_all]. split.
    + destruct (synthesize self disk template k file_path) as [new_name|] eqn:Hone;
        [|done].
      destruct (synthesize_all self disk template (S k) files) as [rest|] eqn:Hrest;
        [|done].
      intros [= <-]. apply IH in Hrest as [Hlen Hrest]. split; [cbn; lia|].
      intros [|i] f Hf.
      * injection Hf as <-. exists new_name. by rewrite Nat.add_0_r.
      * destruct (Hrest i f Hf) as (n & Hn & Hsyn). exists n.
        split; [done|]. by replace (k + S i) with (S k + i) by lia.
    + intros [Hlen Hall]. destruct names as [|new_name rest]; [done|].
      destruct (Hall 0 file_path eq_refl) as (n & [= <-] & Hone).
      rewrite Nat.add_0_r in Hone. rewrite Hone.
      assert (Hrest : synthesize_all self disk template (S k) files = Ok rest).
      { apply IH. split; [cbn in Hlen; lia|]. intros i f Hf.
        destruct (Hall (S i) f Hf) as (n & Hn & Hsyn). exists n.
        split; [done|]. by replace (S k + i) with (k + S i) by lia. }
      by rewrite Hrest.
Qed.


Lemma synthesize_needs_file (self : BatchRenameApp) (disk : gmap Path File)
    (template : str) (i : nat) (file_path : Path) (new_name : str) :
  synthesize self disk template i file_path = Ok new_name ->
  is_Some (disk !! file_path)
  /\ exists cleaned_name,
       clean_filename self (PyPath.stem file_path) = Ok cleaned_name.
Proof.
  unfold synthesize.
  destruct (clean_filename self (PyPath.stem file_path)) as [c|]; [|done].
  destruct (disk !! file_path); [|done]. eauto.
Qed.

Lemma generate_unfold (self : BatchRenameApp) (disk : gmap Path File) :
  generate_new_names self disk
  = synthesize_all self disk
      (if bool_decide (PyStr.strip (custom_format self) = [])
       then utf8 "{name}_{index}" else PyStr.strip (custom_format self))
      0 (filtered_files self).
Proof. unfold generate_new_names. by destruct (filtered_files self). Qed.

Lemma generated_names_match (self : BatchRenameApp) (disk : gmap Path File)
    (names : list str) :
  generate_new_names self disk = Ok names ->
  length names = length (filtered_files self)
  /\ forall file_path, file_path ∈ filtered_files self -> is_Some (disk !! file_path).
Proof.
  rewrite generate_unfold. intros Hgen.
  apply synthesize_all_ok in Hgen as [Hlen Hall]. split; [done|].
  intros f Hf. apply list_elem_of_lookup in Hf as [i Hi].
  destruct (Hall i f Hi) as (n & _ & Hsyn).
  by apply synthesize_needs_file in Hsyn as [? _].
Qed.



(** X6: when [generate_new_names] returns, it returns one name for every
    file of the list, in order; every file of the list is on disk, and its
    stem was cleaned without an exception. A file that is gone, or a stem
    whose cleaning raises, makes the whole preview raise. *)
Theorem names_match_files (self : BatchRenameApp) (disk : gmap Path File)
    (names : list str) :
  generate_new_names self disk = Ok names ->
  length names = length (filtered_files self)
  /\ forall file_path, file_path ∈ filtered_files self ->
       is_Some (disk !! file_path)
       /\ exists cleaned_name,
            clean_filename self (PyPath.stem file_path) = Ok cleaned_name.
Proof.
  rewrite generate_unfold. intros Hgen.
  apply synthesize_all_ok in Hgen as [Hlen Hall]. split; [done|].
  intros f Hf. apply list_elem_of_lookup in Hf as [i Hi].
  destruct (Hall i f Hi) as (n & _ & Hsyn).
  by apply synthesize_needs_file in Hsyn.
Qed.



End Names.

(** ** Names made of the index *)

Lemma pretty_go_digits (x : N) (s : string) :
  Forall (fun c => (48 <= c <= 57)%N) (PyStr.of_ascii s) ->
  Forall (fun c => (48 <= c <= 57)%N) (PyStr.of_ascii (pretty_N_go x s)).
Proof.
  revert s. induction (N.lt_wf_0 x) as [x _ IH]. intros s Hs.
  destruct (decide (x = 0%N)) as [-> | Hx]; [by rewrite pretty_N_go_0|].
  rewrite pretty_N_go_step by lia. apply IH; [apply N.div_lt; lia|].
  unfold PyStr.of_ascii. cbn [list_ascii_of_string fmap list_fmap].
  constructor; [|done].
  pose proof (N.mod_lt x 10 ltac:(lia)) as Hlt.
  rewrite pretty_char_code by done. cbv beta.
  revert Hlt. generalize (x `mod` 10)%N. intros r Hlt. lia.
Qed.

Lemma index_text_digits (self : BatchRenameApp) (i : nat) :
  Forall (fun c => (48 <= c <= 57)%N) (index_text self i).
Proof.
  unfold index_text, PyStr.zfill. apply Forall_app. split.
  - apply Forall_replicate. vm_compute. by split.
  - unfold PyStr.str_of_nat, pretty, pretty_nat, pretty, pretty_N.
    case_decide.
    + repeat constructor; by vm_compute.
    + apply pretty_go_digits. constructor.
Qed.

Lemma rfind_drop (c : N) (s : str) (i : nat) :
  PyStr.rfind c s = Some i -> exists rest, drop i s = c :: rest.
Proof.
  revert i. induction s as [|a s IH]; intros i; [done|]. cbn [PyStr.rfind].
  destruct (PyStr.rfind c s) as [j|] eqn:Hfind.
  - intros [= <-]. destruct (IH j eq_refl) as [rest Hrest]. by exists rest.
  - case_bool_decide as Hac; [|done]. intros [= <-]. subst a. by exists s.
Qed.

Lemma suffix_starts_with_dot (p : Path) :
  PyPath.suffix p = [] \/ exists rest, PyPath.suffix p = ch "." :: rest.
Proof.
  unfold PyPath.suffix, PyPath.suffix_start.
  destruct (PyStr.rfind (ch ".") (PyPath.name p)) as [i|] eqn:Hfind; [|by left].
  destruct (_ && _); [|by left]. right. by eapply rfind_drop.
Qed.

Lemma digits_prefix_inj (d1 d2 e1 e2 : str) :
  Forall (fun c => (48 <= c <= 57)%N) d1 ->
  Forall (fun c => (48 <= c <= 57)%N) d2 ->
  (e1 = [] \/ exists rest, e1 = ch "." :: rest) ->
  (e2 = [] \/ exists rest, e2 = ch "." :: rest) ->
  d1 ++ e1 = d2 ++ e2 -> d1 = d2.
Proof.
  revert d2. induction d1 as [|c1 d1 IH]; intros [|c2 d2] H1 H2 He1 He2 Heq.
  - done.
  - exfalso. cbn in Heq. apply Forall_cons in H2 as [Hc _].
    destruct He1 as [-> | [rest ->]]; [done|]. injection Heq as <- _.
    vm_compute in Hc. by destruct Hc as [Hc _].
  - exfalso. cbn in Heq. apply Forall_cons in H1 as [Hc _].
    destruct He2 as [-> | [rest ->]]; [done|]. injection Heq as -> _.
    vm_compute in Hc. by destruct Hc as [Hc _].
  - cbn in Heq. injection Heq as -> Heq.
    apply Forall_cons in H1 as [_ H1], H2 as [_ H2].
    f_equal. by apply IH.
Qed.

Section IndexNames.
Context {lib : PyLib}.

(** X8: with the template [{index}] no two files of the list get the same
    name, whatever their names and extensions are: the plan has no
    duplicate. *)
Theorem index_template_names_differ (self : BatchRenameApp)
    (disk : gmap Path File) (names : list str) :
  PyStr.strip (custom_format self) = utf8 "{index}" ->
  generate_new_names self disk = Ok names ->
  NoDup names.
Proof.
  intros Htemplate Hgen. rewrite generate_unfold, Htemplate in Hgen.
  rewrite bool_decide_eq_false_2 in Hgen by done.
  apply synthesize_all_ok in Hgen as [Hlen Hall].
  assert (Hname : forall i n, names !! i = Some n ->
            exists e, n = index_text self i ++ e
              /\ (e = [] \/ exists rest, e = ch "." :: rest)).
  { intros i n Hn.
    destruct (lookup_lt_is_Some_2 (filtered_files self) i) as [f Hf].
    { rewrite <- Hlen. by eapply lookup_lt_Some. }
    destruct (Hall i f Hf) as (n' & Hn' & Hsyn). rewrite Hn in Hn'.
    injection Hn' as <-. cbn [Nat.add] in Hsyn.
    destruct (synthesize_needs_file _ _ _ _ _ _ Hsyn) as [[st Hst] [c Hc]].
    change (utf8 "{index}") with (template_of [Key (utf8 "index")]) in Hsyn.
    rewrite (synthesize_pieces self disk _ i f st c) in Hsyn by done.
    cbn [expand foldr piece_value] in Hsyn. rewrite format_vars_index in Hsyn.
    cbn [default] in Hsyn. rewrite app_nil_r in Hsyn.
    injection Hsyn as <-. eexists. split; [done|].
    destruct (keep_extension self); [apply suffix_starts_with_dot | by left]. }
  apply NoDup_alt. intros i j n Hi Hj.
  destruct (Hname i n Hi) as (e1 & -> & He1).
  destruct (Hname j _ Hj) as (e2 & Heq & He2).
  apply (index_text_inj self).
  apply (digits_prefix_inj _ _ e1 e2);
    [apply index_text_digits | apply index_text_digits | done | done | done].
Qed.

End IndexNames.

(** ** The selection *)

Lemma selected_from_rows (checked : list bool) (filtered_files : list Path)
    (new_names : list str) :
  forall i,
    (forall k, checked !! k = Some true ->
       i + k < length filtered_files `min` length new_names) ->
    let rows := (filter (fun r => r.1 = true)
                   (zip checked (zip (drop i filtered_files) (drop i new_names)))).*2 in
    selected_from i checked filtered_files new_names = Ok (rows.*1, rows.*2).
Proof.
  induction checked as [|c checked IH]; intros i Hin; [done|].
  cbn [selected_from].
  assert (Hrest : forall k, checked !! k = Some true ->
            S i + k < length filtered_files `min` length new_names).
  { intros k Hk. specialize (Hin (S k) Hk). lia. }
  specialize (IH (S i) Hrest). cbv zeta in IH.
  destruct c.
  - specialize (Hin 0 eq_refl). rewrite Nat.add_0_r in Hin.
    destruct (lookup_lt_is_Some_2 filtered_files i) as [f Hf]; [lia|].
    destruct (lookup_lt_is_Some_2 new_names i) as [n Hn]; [lia|].
    rewrite Hf, Hn, IH.
    rewrite (drop_S _ _ _ Hf), (drop_S _ _ _ Hn). cbn [zip zip_with].
    by rewrite filter_cons_True by done.
  - rewrite IH.
    destruct (drop i filtered_files) as [|f fs] eqn:Hfs.
    { assert (Hnil : drop (S i) filtered_files = [])
        by (apply drop_ge; apply drop_nil_inv in Hfs; lia).
      rewrite Hnil. cbn. by rewrite !zip_with_nil_r. }
    destruct (drop i new_names) as [|n ns] eqn:Hns.
    { assert (Hnil : drop (S i) new_names = [])
        by (apply drop_ge; apply drop_nil_inv in Hns; lia).
      rewrite Hnil. cbn. by rewrite !zip_with_nil_r. }
    assert (Hfs' : drop (S i) filtered_files = fs).
    { rewrite <- Nat.add_1_r, <- drop_drop, Hfs. done. }
    assert (Hns' : drop (S i) new_names = ns).
    { rewrite <- Nat.add_1_r, <- drop_drop, Hns. done. }
    rewrite Hfs', Hns'. cbn [zip zip_with].
    by rewrite filter_cons_False by (cbn; congruence).
Qed.

Lemma selected_from_stale (checked : list bool) (filtered_files : list Path)
    (new_names : list str) :
  forall i k,
    checked !! k = Some true ->
    length filtered_files `min` length new_names <= i + k ->
    selected_from i checked filtered_files new_names = Raised IndexError.
Proof.
  induction checked as [|c checked IH]; intros i k Hk Hout; [done|].
  cbn [selected_from]. destruct k as [|k].
  - injection Hk as ->. rewrite Nat.add_0_r in Hout.
    destruct (filtered_files !! i) as [f|] eqn:Hf; [|done].
    destruct (new_names !! i) as [n|] eqn:Hn; [|done].
    apply lookup_lt_Some in Hf, Hn. lia.
  - cbn in Hk. rewrite (IH (S i) k Hk) by lia.
    destruct c; [|done]. by destruct (filtered_files !! i), (new_names !! i).
Qed.

Lemma selected_from_checked (checked : list bool) (filtered_files : list Path)
    (new_names : list str) :
  length new_names = length filtered_files ->
  selected_from 0 checked filtered_files new_names
  = if bool_decide (true ∈ drop (length filtered_files) checked)
    then Raised IndexError
    else Ok ((checked_rows checked filtered_files new_names).*1,
             (checked_rows checked filtered_files new_names).*2).
Proof.
  intros Hlen. case_bool_decide as Hstale.
  - apply list_elem_of_lookup in Hstale as [k Hk]. rewrite lookup_drop in Hk.
    eapply selected_from_stale; [exact Hk|]. lia.
  - rewrite selected_from_rows; [by rewrite !drop_0|]. intros k Hk.
    destruct (decide (k < length filtered_files)) as [|Hout]; [lia|].
    destruct Hstale. apply list_elem_of_lookup.
    exists (k - length filtered_files).
    rewrite lookup_drop. by replace (_ + (k - _)) with k by lia.
Qed.

(** X9: the files that [get_selected_files] returns and their new names stay
    paired: they are the rows of the preview whose box is checked, in
    order, each file with the name generated for it. A checked row beyond
    the list of files raises [IndexError], and what [generate_new_names]
    raises is raised. *)
Theorem selection_keeps_pairs {lib : PyLib} (self : BatchRenameApp)
    (disk : gmap Path File) (checked : list bool) :
  match generate_new_names self disk with
  | Raised e => get_selected_files self disk checked = Raised e
  | Ok names =>
      get_selected_files self disk checked
      = if bool_decide (true ∈ drop (length (filtered_files self)) checked)
        then Raised IndexError
        else Ok ((checked_rows checked (filtered_files self) names).*1,
                 (checked_rows checked (filtered_files self) names).*2)
  end.
Proof.
  unfold get_selected_files.
  destruct (generate_new_names self disk) as [names|e] eqn:Hgen; [|done].
  apply selected_from_checked. by apply generated_names_match in Hgen as [? _].
Qed.

(** ** A plan without conflicts *)

Section Moves.
Variable os : OsFaults.
Variable out : Stdout.
Variable self : RenameWorker.
Hypothesis printed : forall old_path e, out old_path e = None.
Hypothesis no_backup : backup_enabled self = false.



End Moves.






Section Pipeline.
Context {lib : PyLib}.

Lemma execute_rename_worker (self : BatchRenameApp) (disk : gmap Path File)
    (checked : list bool) (replies : Replies) (names : list str)
    (worker : RenameWorker) :
  generate_new_names self disk = Ok names ->
  execute_rename self disk checked replies = Ok (Some worker) ->
  worker = start_rename_process self
             (checked_rows checked (filtered_files self) names).*1
             (checked_rows checked (filtered_files self) names).*2.
Proof.
  intros Hgen Hexec. unfold execute_rename, get_selected_files in Hexec.
  rewrite Hgen in Hexec.
  rewrite selected_from_checked in Hexec
    by (by apply generated_names_match in Hgen as [? _]).
  destruct (filtered_files self) as [|f0 files] eqn:Hfiles; [done|].
  destruct (bool_decide _); [done|].
  destruct ((checked_rows checked (f0 :: files) names).*1); [done|].
  destruct (_ && _); [done|].
  destruct (confirm_rename replies); [|done]. by injection Hexec as <-.
Qed.

(** X10: [execute_rename] never takes a row out of the plan because of a
    conflict. When it starts a worker, the user has confirmed, and has
    chosen to go on if there were conflicts and overwriting is off; the
    worker then gets every checked row, the rows that are flagged
    included, with the current folder as its target and the two check
    boxes for backups and overwriting. *)
Theorem conflicts_do_not_filter_the_plan (self : BatchRenameApp)
    (disk : gmap Path File) (checked : list bool) (replies : Replies)
    (names : list str) (worker : RenameWorker) :
  generate_new_names self disk = Ok names ->
  execute_rename self disk checked replies = Ok (Some worker) ->
  file_list worker = (checked_rows checked (filtered_files self) names).*1
  /\ new_names worker = (checked_rows checked (filtered_files self) names).*2
  /\ target_folder worker = current_folder self
  /\ backup_enabled worker = backup_original self
  /\ overwrite_enabled worker = overwrite_existing self
  /\ confirm_rename replies = true
  /\ (check_conflicts self disk names = ∅
      \/ overwrite_existing self = true
      \/ go_on_with_conflicts replies = true).
Proof.
  intros Hgen Hexec.
  pose proof (execute_rename_worker _ _ _ _ _ _ Hgen Hexec) as ->.
  split_and!; try done.
  - unfold execute_rename, get_selected_files in Hexec.
    rewrite Hgen in Hexec.
    destruct (filtered_files self); [done|].
    destruct (selected_from _ _ _ _) as [[[|f fs] ns]|]; [done| |done].
    destruct (_ && _); [done|]. by destruct (confirm_rename replies).
  - unfold execute_rename, get_selected_files in Hexec.
    rewrite Hgen in Hexec.
    destruct (filtered_files self); [done|].
    destruct (selected_from _ _ _ _) as [[[|f fs] ns]|]; [done| |done].
    destruct (bool_decide (check_conflicts self disk names = ∅)) eqn:Hc.
    { left. by apply bool_decide_eq_true_1 in Hc. }
    destruct (overwrite_existing self); [by right; left|].
    destruct (go_on_with_conflicts replies); [by right; right|]. done.
Qed.


End Pipeline.

(** ** What each block of the worker does to the disk *)

Lemma backup_step_effect os self old_file s r s0 :
  backup_step os self old_file s = Some (r, s0) ->
  (s0 = s /\ (r = Ok tt -> backup_enabled self = false \/ disk s !! old_file = None))
  \/ (r = Ok tt
      /\ exists b f,
           disk s !! b = None /\ disk s !! old_file = Some f
           /\ (b = backup_first old_file
               \/ exists n, 1 <= n /\ b = backup_numbered old_file n)
           /\ s0 = set_disk (<[b := f]> (disk s)) s).
Proof.
  unfold backup_step, bind, gets.
  destruct (backup_enabled self) eqn:Hb; simpl.
  2:{ intros [= <- <-]. left. split; [done|]. by left. }
  destruct (Fs.path_exists (disk s) old_file) eqn:Hex.
  2:{ intros [= <- <-]. left. split; [done|]. right.
      unfold Fs.path_exists in Hex. apply bool_decide_eq_false_1 in Hex.
      by apply eq_None_not_Some. }
  unfold probe.
  destruct (probe_loop _ _ _ _ _) as [b|] eqn:Hloop; [|done].
  apply probe_loop_some in Hloop as [Hfree Hcase].
  assert (Hnone : disk s !! b = None).
  { unfold Fs.path_exists in Hfree. apply bool_decide_eq_false_1 in Hfree.
    by apply eq_None_not_Some. }
  unfold copy2. destruct (os _ _).
  { intros [= <- <-]. left. by split. }
  destruct (disk s !! old_file) as [f|] eqn:Hold.
  2:{ intros [= <- <-]. left. by split. }
  intros [= <- <-]. right. split; [done|]. exists b, f.
  split; [done|]. split; [done|]. split; [|done].
  destruct Hcase as [-> | (n & Hn & -> & _)]; [by left | right; eauto].
Qed.

Lemma resolve_step_keep os self old_file new_path s r s1 :
  overwrite_enabled self = false ->
  resolve_step os self old_file new_path s = Some (r, s1) ->
  s1 = s /\ exists p, r = Ok p /\ (disk s !! p = None \/ p = old_file).
Proof.
  intros How. destruct (resolve_step_probe os self old_file new_path s How)
    as (p & Hres & Hloop).
  rewrite Hres. intros [= <- <-]. split; [done|]. exists p. split; [done|].
  apply probe_loop_some in Hloop as [Hfree _].
  destruct (disk s !! p) as [g|] eqn:Hg; [|by left]. right.
  destruct (decide (p = old_file)) as [|Hne]; [done|].
  assert (occupied old_file (disk s) p = true)
    by (apply occupied_spec; split; [by rewrite Hg | done]).
  congruence.
Qed.

Lemma rename_step_effect os old_file new_path s r s2 :
  rename_step os old_file new_path s = Some (r, s2) ->
  (s2 = s /\ (r = Ok tt -> old_file = new_path))
  \/ (r = Ok tt /\ old_file ≠ new_path
      /\ exists f, disk s !! old_file = Some f
           /\ s2 = {| disk := <[new_path := f]> (delete old_file (disk s));
                      signals := signals s; console := console s;
                      success_count := success_count s + 1 |}).
Proof.
  unfold rename_step. case_bool_decide as Hne.
  - unfold bind, rename, modify. destruct (os _ _).
    { intros [= <- <-]. left. by split. }
    destruct (disk s !! old_file) as [f|] eqn:Hold.
    + intros [= <- <-]. right. split; [done|]. split; [done|]. by exists f.
    + intros [= <- <-]. left. by split.
  - intros [= <- <-]. left. split; [done|]. intros _.
    destruct (decide (old_file = new_path)); [done|]. by destruct Hne.
Qed.

Lemma progress_step_effect total_files i new_name s r s' :
  progress_step total_files i new_name s = Some (r, s') ->
  disk s' = disk s /\ success_count s' = success_count s
  /\ console s' = console s
  /\ match r with
     | Ok _ => exists progress, signals s' = signals s ++ [progress_updated progress new_name]
     | Raised _ => signals s' = signals s
     end.
Proof.
  unfold progress_step. destruct (PyFloat.percent _ _) as [p|e].
  - intros [= <- <-]. simpl. eauto.
  - intros [= <- <-]. done.
Qed.

Lemma resolve_step_keeps_count os self old_file new_path s r s1 :
  resolve_step os self old_file new_path s = Some (r, s1) ->
  success_count s1 = success_count s.
Proof.
  unfold resolve_step. destruct (negb (overwrite_enabled self)).
  - unfold probe. destruct (probe_loop _ _ _ _ _); [|done]. by intros [= _ <-].
  - unfold bind, gets. destruct (occupied old_file (disk s) new_path).
    + unfold unlink. destruct (os _ _); [by intros [= _ <-]|].
      destruct (disk s !! new_path); by intros [= _ <-].
    + by intros [= _ <-].
Qed.

Lemma quiet_run {A} (m : M A) s r s' :
  quiet m -> m s = Some (r, s') -> same_log s s'.
Proof. intros Hq Hrun. destruct (Hq s) as (r0 & s0 & Hrun0 & Hlog). congruence. Qed.

Ltac nothing_emitted :=
  exists []; rewrite app_nil_r;
  split; [congruence | split; [simpl; lia | done]].

(** One file, in any mode: the count grows by one at most, the console is
    left alone, and at most one signal, a progress signal, is emitted. *)
Lemma process_file_counts os self total_files i old_path new_name s r s' :
  process_file os self total_files i old_path new_name s = Some (r, s') ->
  success_count s <= success_count s' <= success_count s + 1
  /\ console s' = console s
  /\ exists emitted,
       signals s' = signals s ++ emitted
       /\ length emitted <= 1 /\ forallb is_progress emitted = true.
Proof.
  unfold process_file, bind.
  destruct (backup_step os self old_path s) as [[[[]|e] s0]|] eqn:Hb; [| |done].
  2:{ intros [= <- <-].
      pose proof (backup_step_keeps_count _ _ _ _ _ _ Hb) as Hc.
      destruct (quiet_run _ _ _ _ (quiet_backup_step os self old_path) Hb) as [Hs Hl].
      split; [lia|]. split; [done|]. nothing_emitted. }
  pose proof (backup_step_keeps_count _ _ _ _ _ _ Hb) as Hc0.
  destruct (quiet_run _ _ _ _ (quiet_backup_step os self old_path) Hb) as [Hs0 Hl0].
  destruct (resolve_step _ _ _ _ s0) as [[[p|e] s1]|] eqn:Hr; [| |done].
  2:{ intros [= <- <-].
      pose proof (resolve_step_keeps_count _ _ _ _ _ _ _ Hr) as Hc.
      destruct (quiet_run _ _ _ _ (quiet_resolve_step os self old_path _) Hr) as [Hs Hl].
      split; [lia|]. split; [congruence|]. nothing_emitted. }
  pose proof (resolve_step_keeps_count _ _ _ _ _ _ _ Hr) as Hc1.
  destruct (quiet_run _ _ _ _ (quiet_resolve_step os self old_path _) Hr) as [Hs1 Hl1].
  destruct (rename_step os old_path p s1) as [[[[]|e] s2]|] eqn:Hn; [| |done].
  2:{ intros [= <- <-].
      destruct (quiet_run _ _ _ _ (quiet_rename_step os old_path p) Hn) as [Hs Hl].
      apply rename_step_effect in Hn as [[-> _] | [[=] _]].
      split; [lia|]. split; [congruence|]. nothing_emitted. }
  destruct (quiet_run _ _ _ _ (quiet_rename_step os old_path p) Hn) as [Hs2 Hl2].
  assert (Hc2 : success_count s1 <= success_count s2 <= success_count s1 + 1).
  { apply rename_step_effect in Hn as [[-> _] | (_ & _ & f & _ & ->)]; simpl; lia. }
  intros Hp. apply progress_step_effect in Hp as (_ & Hc3 & Hl3 & Hs3).
  split; [lia|]. split; [congruence|].
  destruct r as [[]|e].
  - destruct Hs3 as [progress Hs3]. exists [progress_updated progress new_name].
    split; [congruence | done].
  - nothing_emitted.
Qed.

Lemma iteration_counts os out self total_files i entry s r s' :
  iteration os out self total_files i entry s = Some (r, s') ->
  success_count s <= success_count s' <= success_count s + 1
  /\ exists emitted,
       signals s' = signals s ++ emitted
       /\ length emitted <= 1 /\ forallb is_progress emitted = true.
Proof.
  destruct entry as [old_path new_name]. unfold iteration, try_except.
  destruct (process_file _ _ _ _ _ _ s) as [[[[]|e] s1]|] eqn:Hp; [| |done].
  - intros [= <- <-]. by apply process_file_counts in Hp as (? & _ & ?).
  - apply process_file_counts in Hp as (Hc & _ & He).
    unfold print_failure. destruct (out old_path e); by intros [= <- <-].
Qed.

Lemma loop_counts os out self total_files entries i s r s' :
  for_enumerate (iteration os out self total_files) i entries s = Some (r, s') ->
  success_count s <= success_count s' <= success_count s + length entries
  /\ exists emitted,
       signals s' = signals s ++ emitted
       /\ length emitted <= length entries /\ forallb is_progress emitted = true.
Proof.
  revert i s. induction entries as [|entry entries IH]; intros i s.
  - intros [= <- <-]. split; [simpl; lia|]. nothing_emitted.
  - cbn [for_enumerate]. unfold bind at 1.
    destruct (iteration os out self total_files i entry s) as [[r1 s1]|] eqn:Hrun;
      [|done].
    apply iteration_counts in Hrun as (Hc1 & e1 & Hs1 & Hl1 & Hp1).
    destruct r1 as [[]|e].
    + intros Hrest. apply IH in Hrest as (Hc2 & e2 & Hs2 & Hl2 & Hp2).
      split; [simpl; lia|]. exists (e1 ++ e2).
      split; [by rewrite Hs2, Hs1, app_assoc|].
      split; [rewrite length_app; simpl; lia|].
      by rewrite forallb_app, Hp1, Hp2.
    + intros [= <- <-]. split; [simpl; lia|]. exists e1.
      split; [done|]. split; [simpl; lia | done].
Qed.

(** X12: what a run emits, whatever happens to the files: progress signals,
    at most one for every file, and then exactly one [finished] signal,
    which is the last one. The success count never exceeds the number of
    files, and [finished(True, ...)] carries it. *)
Theorem signals_and_count (os : OsFaults) (out : Stdout) (self : RenameWorker)
    (s : RunState) :
  exists s' emitted last_signal,
    run os out self s = Some (Ok tt, s')
    /\ signals s' = signals s ++ emitted ++ [last_signal]
    /\ forallb is_progress emitted = true
    /\ length emitted <= length (file_list self)
    /\ success_count s' <= length (file_list self)
    /\ (last_signal
        = finished true (Completed (success_count s') (length (file_list self)))
        \/ exists e, last_signal = finished false (Crashed e)).
Proof.
  destruct (loop_returns os out self (length (file_list self))
              (zip (file_list self) (new_names self)) 0 (set_success_count 0 s))
    as (r & s1 & Hloop).
  pose proof (loop_counts _ _ _ _ _ _ _ _ _ Hloop) as (Hc & emitted & Hs & Hl & Hp).
  assert (Hzip : length (zip (file_list self) (new_names self))
                 <= length (file_list self)).
  { rewrite length_zip_with. lia. }
  assert (Hbatch : batch os out self s = Some (r, s1)) by done.
  pose proof (run_around_outcome self (batch os out self) s) as Hrun.
  rewrite Hbatch in Hrun. destruct Hrun as (s' & Hrun & _ & _ & Hn & Hsig).
  eexists s', emitted, _. split; [done|]. simpl in *.
  split; [by rewrite Hsig, Hs, <- app_assoc|]. split; [done|].
  split; [lia|]. split; [lia|].
  destruct r as [[]|e]; [left; by rewrite Hn | right; by exists e].
Qed.

(** X13: with backups enabled, the copy of a file goes to a path on which
    there is no file: to [stem_backup.ext], or, when that is taken, to the
    first of [stem_backup_1.ext], [stem_backup_2.ext], ... that is free.
    No file is overwritten by it, and the file itself stays where it is
    until it is renamed. *)
Theorem backup_copy_is_fresh (os : OsFaults) (self : RenameWorker)
    (old_file : Path) (f : File) (s : RunState) :
  backup_enabled self = true ->
  disk s !! old_file = Some f ->
  (forall dst, os (OpCopy old_file dst) (disk s) = false) ->
  exists b,
    backup_step os self old_file s = Some (Ok tt, set_disk (<[b := f]> (disk s)) s)
    /\ disk s !! b = None
    /\ <[b := f]> (disk s) !! old_file = Some f
    /\ (b = backup_first old_file
        \/ exists n, 1 <= n /\ b = backup_numbered old_file n
             /\ is_Some (disk s !! backup_first old_file)
             /\ forall k, 1 <= k < n ->
                  is_Some (disk s !! backup_numbered old_file k)).
Proof.
  intros Hb Hold Hos. unfold backup_step, bind, gets. rewrite Hb.
  assert (Hex : Fs.path_exists (disk s) old_file = true)
    by (apply path_exists_spec; by rewrite Hold).
  rewrite Hex. simpl. unfold probe.
  destruct (probe_loop_total (disk s) (Fs.path_exists (disk s))
              (backup_numbered old_file) (backup_first old_file)) as [b Hloop].
  { intros p. apply path_exists_spec. }
  { apply backup_numbered_inj. }
  rewrite Hloop. apply probe_loop_some in Hloop as [Hfree Hcase].
  assert (Hnone : disk s !! b = None).
  { unfold Fs.path_exists in Hfree. apply bool_decide_eq_false_1 in Hfree.
    by apply eq_None_not_Some. }
  exists b. unfold copy2. rewrite Hos, Hold.
  split; [done|]. split; [done|]. split.
  - rewrite lookup_insert_ne; [done|]. intros ->. congruence.
  - destruct Hcase as [-> | (n & Hn & -> & Hfirst & Hall)]; [by left | right].
    exists n. split; [done|]. split; [done|].
    split; [by apply path_exists_spec|].
    intros k Hk. by apply path_exists_spec, Hall.
Qed.


(** ** Without overwriting *)

Lemma kept_refl (sources : list Path) d : kept sources d d.
Proof. split; eauto. Qed.

Lemma kept_trans (sources : list Path) d1 d2 d3 :
  kept sources d1 d2 -> kept sources d2 d3 -> kept sources d1 d3.
Proof.
  intros [Ha1 Hb1] [Ha2 Hb2]. split.
  - eauto.
  - intros p f Hp. destruct (Hb1 _ _ Hp) as [q Hq]. eauto.
Qed.

Lemma kept_insert_fresh (sources : list Path) (d : gmap Path File) b f :
  d !! b = None -> kept sources d (<[b := f]> d).
Proof.
  intros Hb. assert (forall p g, d !! p = Some g -> <[b := f]> d !! p = Some g).
  { intros p g Hp. rewrite lookup_insert_ne; [done|]. intros ->. congruence. }
  split; eauto.
Qed.

Lemma kept_move (sources : list Path) (d : gmap Path File) old_file new_path f :
  old_file ∈ sources -> d !! old_file = Some f -> d !! new_path = None ->
  kept sources d (<[new_path := f]> (delete old_file d)).
Proof.
  intros Hsrc Hold Hnew.
  assert (Hother : forall p g, d !! p = Some g -> p ≠ old_file ->
            <[new_path := f]> (delete old_file d) !! p = Some g).
  { intros p g Hp Hne. rewrite lookup_insert_ne by (intros ->; congruence).
    by rewrite lookup_delete_ne. }
  split.
  - intros p g Hp Hns. apply Hother; [done|]. by intros ->.
  - intros p g Hp. destruct (decide (p = old_file)) as [->|Hne].
    + exists new_path. rewrite lookup_insert_eq. congruence.
    + exists p. by apply Hother.
Qed.

Lemma process_file_keeps os self total_files i old_path new_name s r s' :
  overwrite_enabled self = false ->
  old_path ∈ file_list self ->
  process_file os self total_files i old_path new_name s = Some (r, s') ->
  kept (file_list self) (disk s) (disk s').
Proof.
  intros How Hsrc. unfold process_file, bind.
  destruct (backup_step os self old_path s) as [[r0 s0]|] eqn:Hb; [|done].
  assert (K0 : kept (file_list self) (disk s) (disk s0)).
  { apply backup_step_effect in Hb as [[-> _] | (_ & b & f & Hnone & _ & _ & ->)].
    - apply kept_refl.
    - by apply kept_insert_fresh. }
  destruct r0 as [[]|e]; [|intros [= <- <-]; done].
  destruct (resolve_step _ _ _ _ s0) as [[r1 s1]|] eqn:Hr; [|done].
  apply (resolve_step_keep _ _ _ _ _ _ _ How) in Hr as [-> (p & -> & Hp)].
  destruct (rename_step os old_path p s0) as [[r2 s2]|] eqn:Hn; [|done].
  assert (K2 : kept (file_list self) (disk s0) (disk s2)).
  { apply rename_step_effect in Hn as [[-> _] | (_ & Hne & f & Hold & ->)].
    - apply kept_refl.
    - simpl. apply kept_move; [done..|].
      destruct Hp as [Hnone | ->]; [done | by destruct Hne]. }
  destruct r2 as [[]|e].
  - intros Hp'. apply progress_step_effect in Hp' as (-> & _).
    by eapply kept_trans.
  - intros [= <- <-]. by eapply kept_trans.
Qed.

Lemma loop_keeps os out self total_files entries i s r s' :
  overwrite_enabled self = false ->
  (forall entry, entry ∈ entries -> entry.1 ∈ file_list self) ->
  for_enumerate (iteration os out self total_files) i entries s = Some (r, s') ->
  kept (file_list self) (disk s) (disk s').
Proof.
  intros How. revert i s. induction entries as [|[old_path new_name] entries IH];
    intros i s Hsrc.
  - intros [= <- <-]. apply kept_refl.
  - cbn [for_enumerate]. unfold bind at 1.
    destruct (iteration os out self total_files i (old_path, new_name) s)
      as [[r1 s1]|] eqn:Hit; [|done].
    assert (K1 : kept (file_list self) (disk s) (disk s1)).
    { unfold iteration, try_except in Hit.
      destruct (process_file _ _ _ _ _ _ s) as [[[[]|e] s0]|] eqn:Hp; [| |done].
      - injection Hit as <- <-. eapply process_file_keeps; [done| |done].
        apply (Hsrc (old_path, new_name)), list_elem_of_here.
      - assert (K0 : kept (file_list self) (disk s) (disk s0)).
        { eapply process_file_keeps; [done| |done].
          apply (Hsrc (old_path, new_name)), list_elem_of_here. }
        unfold print_failure in Hit.
        destruct (out old_path e); by injection Hit as <- <-. }
    destruct r1 as [[]|e].
    + intros Hrest. apply IH in Hrest.
      2:{ intros entry Hin. apply Hsrc. by apply list_elem_of_further. }
      by eapply kept_trans.
    + by intros [= <- <-].
Qed.

(** X15: with overwriting off a run loses nothing, whatever fails on the
    way: every file that is not one of the files to rename is where it
    was, with its content, and the content of every file of the disk is
    still on the disk under some path. *)
Theorem without_overwrite_nothing_is_lost (os : OsFaults) (out : Stdout)
    (self : RenameWorker) (s : RunState) :
  overwrite_enabled self = false ->
  exists s',
    run os out self s = Some (Ok tt, s')
    /\ (forall p f, disk s !! p = Some f -> p ∉ file_list self ->
          disk s' !! p = Some f)
    /\ (forall p f, disk s !! p = Some f -> exists q, disk s' !! q = Some f).
Proof.
  intros How.
  destruct (loop_returns os out self (length (file_list self))
              (zip (file_list self) (new_names self)) 0 (set_success_count 0 s))
    as (r & s1 & Hloop).
  assert (Hkept : kept (file_list self) (disk s) (disk s1)).
  { apply (loop_keeps _ _ _ _ _ _ _ _ _ How) in Hloop; [done|].
    intros [old_path new_name] Hin. simpl.
    apply elem_of_zip_l in Hin. done. }
  assert (Hbatch : batch os out self s = Some (r, s1)) by done.
  pose proof (run_around_outcome self (batch os out self) s) as Hrun.
  rewrite Hbatch in Hrun. destruct Hrun as (s' & Hrun & Hd & _).
  exists s'. split; [done|]. rewrite Hd. exact Hkept.
Qed.

(** X16: with overwriting on, a target that is taken by another file is
    deleted before the rename is tried. When the rename then fails, the
    file that was at the target is gone and the source has kept its name;
    when it goes through, the source has replaced it and is counted. *)
Theorem overwrite_deletes_the_target_first (os : OsFaults) (self : RenameWorker)
    (old_file new_path : Path) (f : File) (s : RunState) :
  overwrite_enabled self = true ->
  disk s !! old_file = Some f ->
  is_Some (disk s !! new_path) ->
  new_path ≠ old_file ->
  os (OpUnlink new_path) (disk s) = false ->
  (new_path <- resolve_step os self old_file new_path ;;
   rename_step os old_file new_path) s
  = if os (OpRename old_file new_path) (delete new_path (disk s))
    then Some (Raised OSError, set_disk (delete new_path (disk s)) s)
    else Some (Ok tt,
               {| disk := <[new_path := f]>
                            (delete old_file (delete new_path (disk s)));
                  signals := signals s; console := console s;
                  success_count := success_count s + 1 |}).
Proof.
  intros How Hold [g Hnew] Hne Hos.
  unfold bind, resolve_step. rewrite How. simpl. unfold bind, gets.
  assert (Hocc : occupied old_file (disk s) new_path = true)
    by (apply occupied_spec; split; [by rewrite Hnew | done]).
  rewrite Hocc. unfold unlink. rewrite Hos, Hnew. unfold ret.
  unfold rename_step. rewrite bool_decide_eq_true_2 by done.
  unfold bind, rename. simpl.
  destruct (os (OpRename old_file new_path) (delete new_path (disk s))); [done|].
  rewrite lookup_delete_ne by done. rewrite Hold. done.
Qed.

(** ** Post-processing *)

Lemma is_sep_not_space c : Re.is_sep c = true -> PyStr.isspace c = false.
Proof.
  unfold Re.is_sep. intros [H|H]%orb_true_iff;
    apply bool_decide_eq_true_1 in H; by subst.
Qed.

Lemma lstrip_by_first p s c :
  head (PyStr.lstrip_by p s) = Some c -> p c = false.
Proof.
  induction s as [|a s IH]; simpl; [done|].
  destruct (p a) eqn:Ha; [done|]. simpl. by intros [= <-].
Qed.

Lemma rstrip_by_cons p c s :
  p c = false ->
  PyStr.rstrip_by p (c :: s) = c :: PyStr.rstrip_by p s.
Proof.
  intros Hc. cbn [PyStr.rstrip_by].
  destruct (PyStr.rstrip_by p s); [by rewrite Hc | done].
Qed.

Lemma rstrip_by_first p s c :
  (forall a, head s = Some a -> p a = false) ->
  head (PyStr.rstrip_by p s) = Some c -> p c = false.
Proof.
  destruct s as [|a s]; [done|]. intros Hfirst.
  rewrite rstrip_by_cons by (by apply Hfirst). simpl. intros [= <-].
  by apply Hfirst.
Qed.

Lemma rstrip_by_last p s c :
  last (PyStr.rstrip_by p s) = Some c -> p c = false.
Proof.
  induction s as [|a s IH]; simpl; [done|].
  destruct (PyStr.rstrip_by p s) as [|b t] eqn:Ht.
  - destruct (p a) eqn:Ha; [done|]. simpl. by intros [= <-].
  - simpl in *. destruct t; apply IH.
Qed.

Lemma strip_by_edges p s :
  (forall c, head (PyStr.strip_by p s) = Some c -> p c = false)
  /\ (forall c, last (PyStr.strip_by p s) = Some c -> p c = false).
Proof.
  unfold PyStr.strip_by. split; intros c.
  - apply rstrip_by_first. intros a. apply lstrip_by_first.
  - apply rstrip_by_last.
Qed.

(** A string whose ends are not in the class is left alone. *)
Lemma lstrip_by_id p s :
  (forall c, head s = Some c -> p c = false) -> PyStr.lstrip_by p s = s.
Proof.
  destruct s as [|a s]; [done|]. intros H. simpl. by rewrite (H a).
Qed.

Lemma rstrip_by_id p s :
  (forall c, last s = Some c -> p c = false) -> PyStr.rstrip_by p s = s.
Proof.
  induction s as [|a s IH]; [done|]. intros H. simpl.
  destruct s as [|b s].
  - simpl. by rewrite (H a).
  - rewrite IH by (intros c Hc; by apply H). done.
Qed.

Lemma strip_by_id p s :
  (forall c, head s = Some c -> p c = false) ->
  (forall c, last s = Some c -> p c = false) ->
  PyStr.strip_by p s = s.
Proof.
  intros Hf Hl. unfold PyStr.strip_by. rewrite (lstrip_by_id p s Hf).
  by apply rstrip_by_id.
Qed.

(** White space *)

Lemma spaces_normal_weaken b s :
  spaces_normal b s = true -> spaces_normal false s = true.
Proof.
  destruct s as [|c s]; [done|]. simpl. destruct (PyStr.isspace c); [|done].
  destruct b; [done|]. done.
Qed.

Lemma sub_spaces_go_normal b s : spaces_normal b (Re.sub_spaces_go b s) = true.
Proof.
  revert b. induction s as [|c s IH]; intros b; [done|]. simpl.
  destruct (PyStr.isspace c) eqn:Hc.
  - destruct b; [apply IH|]. simpl. by rewrite IH.
  - simpl. rewrite Hc. apply IH.
Qed.

Lemma sub_spaces_go_id b s :
  spaces_normal b s = true -> Re.sub_spaces_go b s = s.
Proof.
  revert b. induction s as [|c s IH]; intros b; [done|]. simpl.
  destruct (PyStr.isspace c) eqn:Hc.
  - destruct b; [done|]. simpl.
    intros [Hsp Hrest]%andb_true_iff. apply bool_decide_eq_true_1 in Hsp.
    subst c. by rewrite IH.
  - intros Hrest. by rewrite IH.
Qed.

Lemma spaces_normal_lstrip p b s :
  spaces_normal b s = true -> spaces_normal false (PyStr.lstrip_by p s) = true.
Proof.
  revert b. induction s as [|c s IH]; intros b; [done|]. intros Hs.
  cbn [PyStr.lstrip_by]. destruct (p c).
  - simpl in Hs. destruct (PyStr.isspace c).
    + apply andb_true_iff in Hs as [_ Hs]. by eapply IH.
    + by eapply IH.
  - by eapply spaces_normal_weaken.
Qed.

Lemma spaces_normal_rstrip p b s :
  spaces_normal b s = true -> spaces_normal b (PyStr.rstrip_by p s) = true.
Proof.
  revert b. induction s as [|c s IH]; intros b; [done|]. intros Hs.
  cbn [PyStr.rstrip_by]. simpl in Hs.
  destruct (PyStr.isspace c) eqn:Hc.
  - apply andb_true_iff in Hs as [Hhd Hs]. apply IH in Hs.
    destruct (PyStr.rstrip_by p s); [destruct (p c)|]; simpl; rewrite ?Hc, ?Hhd; done.
  - apply IH in Hs.
    destruct (PyStr.rstrip_by p s); [destruct (p c)|]; simpl; rewrite ?Hc; done.
Qed.

(** Separators *)

Lemma seps_single_weaken b s :
  seps_single b s = true -> seps_single false s = true.
Proof.
  destruct s as [|c s]; [done|]. simpl. destruct (Re.is_sep c); [|done].
  by destruct b.
Qed.

Lemma seps_single_lstrip p b s :
  seps_single b s = true -> seps_single false (PyStr.lstrip_by p s) = true.
Proof.
  revert b. induction s as [|c s IH]; intros b; [done|]. intros Hs.
  cbn [PyStr.lstrip_by]. destruct (p c).
  - simpl in Hs. destruct (Re.is_sep c).
    + apply andb_true_iff in Hs as [_ Hs]. by eapply IH.
    + by eapply IH.
  - by eapply seps_single_weaken.
Qed.

Lemma seps_single_rstrip p b s :
  seps_single b s = true -> seps_single b (PyStr.rstrip_by p s) = true.
Proof.
  revert b. induction s as [|c s IH]; intros b; [done|]. intros Hs.
  cbn [PyStr.rstrip_by]. simpl in Hs.
  destruct (Re.is_sep c) eqn:Hc.
  - apply andb_true_iff in Hs as [Hhd Hs]. apply IH in Hs.
    destruct (PyStr.rstrip_by p s); [destruct (p c)|]; simpl; rewrite ?Hc, ?Hhd; done.
  - apply IH in Hs.
    destruct (PyStr.rstrip_by p s); [destruct (p c)|]; simpl; rewrite ?Hc; done.
Qed.

Lemma app_nil_string (s : str) : [] ++ s = s.
Proof. done. Qed.

Lemma app_cons_string (c : N) (s t : str) :
  (c :: s) ++ t = c :: (s ++ t).
Proof. done. Qed.

(** A pending run comes out as one separator. *)
Lemma flush_run_some r :
  Re.is_sep r.1 = true ->
  exists d, Re.flush_run (Some r) = [d] /\ Re.is_sep d = true.
Proof.
  destruct r as [c [|]]; simpl; intros Hc; [by exists (ch "_") | by exists c].
Qed.

Lemma sub_sep_runs_go_head r s :
  Re.is_sep r.1 = true ->
  exists d rest, Re.sub_sep_runs_go (Some r) s = d :: rest /\ Re.is_sep d = true.
Proof.
  revert r. induction s as [|c s IH]; intros r Hr.
  - destruct (flush_run_some r Hr) as (d & Hd & Hsep). exists d, [].
    by rewrite <- Hd.
  - cbn [Re.sub_sep_runs_go]. destruct (Re.is_sep c) eqn:Hc.
    + apply IH. by destruct r.
    + destruct (flush_run_some r Hr) as (d & -> & Hsep).
      rewrite app_cons_string, app_nil_string. eauto.
Qed.

Lemma seps_single_runs run s : seps_single false (Re.sub_sep_runs_go run s) = true.
Proof.
  revert run. induction s as [|c s IH]; intros run.
  - destruct run as [[d [|]]|]; simpl; [done| |done]. by destruct (Re.is_sep d).
  - cbn [Re.sub_sep_runs_go]. destruct (Re.is_sep c) eqn:Hc; [apply IH|].
    destruct run as [[d [|]]|]; cbn [Re.flush_run];
      rewrite ?app_cons_string, ?app_nil_string; simpl; rewrite Hc;
      try destruct (Re.is_sep d); apply IH.
Qed.

Lemma spaces_normal_runs s :
  (forall b, spaces_normal b s = true ->
             spaces_normal b (Re.sub_sep_runs_go None s) = true)
  /\ (forall r b, Re.is_sep r.1 = true -> spaces_normal false s = true ->
                  spaces_normal b (Re.sub_sep_runs_go (Some r) s) = true).
Proof.
  induction s as [|c s [IHnone IHsome]].
  - split; [done|]. intros r b Hr _.
    destruct (flush_run_some r Hr) as (d & Hd & Hsep).
    cbn [Re.sub_sep_runs_go]. rewrite Hd. simpl.
    by rewrite (is_sep_not_space d Hsep).
  - assert (Hplain : forall b, spaces_normal b (c :: s) = true ->
              spaces_normal b (c :: Re.sub_sep_runs_go None s) = true).
    { intros b. simpl. destruct (PyStr.isspace c).
      - intros [Hhd Hs]%andb_true_iff. rewrite Hhd. by apply IHnone.
      - apply IHnone. }
    split.
    + intros b Hs. cbn [Re.sub_sep_runs_go]. destruct (Re.is_sep c) eqn:Hc.
      * apply IHsome; [done|]. simpl in Hs.
        by rewrite (is_sep_not_space c Hc) in Hs.
      * cbn [Re.flush_run]. rewrite app_nil_string. by apply Hplain.
    + intros r b Hr Hs. cbn [Re.sub_sep_runs_go]. destruct (Re.is_sep c) eqn:Hc.
      * apply IHsome; [by destruct r|]. simpl in Hs.
        by rewrite (is_sep_not_space c Hc) in Hs.
      * destruct (flush_run_some r Hr) as (d & -> & Hsep).
        rewrite app_cons_string, app_nil_string.
        change (spaces_normal b (d :: ?t))
          with (if PyStr.isspace d
                then negb b && bool_decide (d = ch " ") && spaces_normal true t
                else spaces_normal false t).
        rewrite (is_sep_not_space d Hsep). by apply Hplain.
Qed.

Lemma sub_sep_runs_go_id s :
  (seps_single false s = true -> Re.sub_sep_runs_go None s = s)
  /\ (forall c, seps_single true s = true ->
                Re.sub_sep_runs_go (Some (c, false)) s = c :: s).
Proof.
  induction s as [|a s [IHnone IHsome]]; [done|]. split.
  - cbn [Re.sub_sep_runs_go seps_single]. destruct (Re.is_sep a).
    + simpl. apply IHsome.
    + intros Hs. cbn [Re.flush_run]. rewrite app_nil_string. by rewrite IHnone.
  - intros c. cbn [Re.sub_sep_runs_go seps_single]. destruct (Re.is_sep a).
    + done.
    + intros Hs. cbn [Re.flush_run].
      rewrite app_cons_string, app_nil_string. by rewrite IHnone.
Qed.

(** The first three substitutions already give the result. *)
Lemma first_pass_tidy s : tidy (Re.trim_edges (Re.sub_sep_runs (Re.sub_spaces s))).
Proof.
  unfold Re.trim_edges, PyStr.strip_by. split; [|split].
  - eapply spaces_normal_rstrip, spaces_normal_lstrip.
    apply (proj1 (spaces_normal_runs _)), sub_spaces_go_normal.
  - eapply seps_single_rstrip, seps_single_lstrip, seps_single_runs.
  - apply (strip_by_edges is_edge).
Qed.

Lemma tidy_fixed s : tidy s -> post_process_cleanup s = s.
Proof.
  intros (Hsp & Hsep & Hfirst & Hlast). unfold post_process_cleanup.
  assert (Hspaces : Re.sub_spaces s = s) by (by apply sub_spaces_go_id).
  assert (Hruns : Re.sub_sep_runs s = s) by (by apply sub_sep_runs_go_id).
  assert (Htrim : Re.trim_edges s = s) by (by apply strip_by_id).
  assert (Hstrip : PyStr.strip s = s).
  { apply strip_by_id; intros c Hc.
    - apply Hfirst in Hc. unfold is_edge in Hc. by apply orb_false_iff in Hc as [_ ?].
    - apply Hlast in Hc. unfold is_edge in Hc. by apply orb_false_iff in Hc as [_ ?]. }
  by rewrite Hspaces, Hruns, Htrim, Hspaces, Hstrip, Htrim.
Qed.

Lemma post_process_first_pass s :
  post_process_cleanup s = Re.trim_edges (Re.sub_sep_runs (Re.sub_spaces s)).
Proof.
  pose proof (first_pass_tidy s) as (Hsp & Hsep & Hfirst & Hlast).
  unfold post_process_cleanup.
  set (t := Re.trim_edges (Re.sub_sep_runs (Re.sub_spaces s))) in *.
  assert (Hspaces : Re.sub_spaces t = t) by (by apply sub_spaces_go_id).
  assert (Hstrip : PyStr.strip t = t).
  { apply strip_by_id; intros c Hc.
    - apply Hfirst in Hc. unfold is_edge in Hc.
      by apply orb_false_iff in Hc as [_ ?].
    - apply Hlast in Hc. unfold is_edge in Hc.
      by apply orb_false_iff in Hc as [_ ?]. }
  rewrite Hspaces, Hstrip. by apply strip_by_id.
Qed.

(** X17: what [post_process_cleanup] yields, for every name: white space
    only as single spaces, no two of [-] and [_] in a row, neither white
    space nor [-] nor [_] at either end, and no more characters than it
    was given. *)
Theorem post_process_is_tidy (s : str) :
  spaces_normal false (post_process_cleanup s) = true
  /\ seps_single false (post_process_cleanup s) = true
  /\ (forall c, head (post_process_cleanup s) = Some c -> is_edge c = false)
  /\ (forall c, last (post_process_cleanup s) = Some c -> is_edge c = false)
  /\ length (post_process_cleanup s) <= length s.
Proof.
  pose proof (first_pass_tidy s) as (Hsp & Hsep & Hfirst & Hlast).
  rewrite <- post_process_first_pass in Hsp, Hsep, Hfirst, Hlast.
  split; [done|]. split; [done|]. split; [done|]. split; [done|].
  apply post_process_shorter.
Qed.

(** X18: [post_process_cleanup] is idempotent, and its first three
    substitutions already give its result: the second normalisation of
    white space, [strip] and the second trimming change nothing. *)
Theorem post_process_idempotent (s : str) :
  post_process_cleanup (post_process_cleanup s) = post_process_cleanup s
  /\ post_process_cleanup s = Re.trim_edges (Re.sub_sep_runs (Re.sub_spaces s)).
Proof.
  split; [|apply post_process_first_pass].
  apply tidy_fixed. rewrite post_process_first_pass. apply first_pass_tidy.
Qed.


(** ** The cleaned name *)

Lemma tidy_strip s : tidy s -> PyStr.strip s = s.
Proof.
  intros (_ & _ & Hfirst & Hlast). apply strip_by_id; intros c Hc.
  - apply Hfirst in Hc. unfold is_edge in Hc. by apply orb_false_iff in Hc as [_ ?].
  - apply Hlast in Hc. unfold is_edge in Hc. by apply orb_false_iff in Hc as [_ ?].
Qed.

(** X19: a name that [clean_filename] changed is tidy: it is the
    post-processed result of the mode-specific pass, on which the final
    [strip] changes nothing. Cleaned or not, the name has no more
    characters than the stem. *)
Theorem cleaned_name_is_tidy {lib : PyLib} (self : BatchRenameApp)
    (filename result : str) :
  clean_filename self filename = Ok result ->
  length result <= length filename
  /\ (result = filename
      \/ (tidy result
          /\ exists cleaned_name,
               mode_pass self filename = Ok cleaned_name
               /\ result = post_process_cleanup cleaned_name)).
Proof.
  destruct (enable_cleanup self) eqn:En.
  2:{ rewrite (clean_filename_disabled self filename En).
      intros [= <-]. split; [done | by left]. }
  rewrite (clean_filename_enabled self filename En).
  pose proof (mode_pass_outcome self filename) as Hpass.
  destruct (mode_pass self filename) as [cleaned_name|e]; [|done].
  pose proof (first_pass_tidy cleaned_name) as Htidy.
  rewrite <- post_process_first_pass in Htidy.
  cbv zeta. rewrite (tidy_strip _ Htidy). destruct (_ <? 2).
  { intros [= <-]. split; [done | by left]. }
  intros [= <-]. split.
  - etrans; [apply post_process_shorter | done].
  - right. split; [done|]. by exists cleaned_name.
Qed.

(** X20: in the regex mode a rule that does not compile is skipped, and the
    other rules are applied as if it were not there. *)
Theorem uncompilable_rules_are_skipped {lib : PyLib} (broken : str -> bool)
    (rules : list str) (name : str) :
  (forall rule subject,
     broken rule = true -> re_sub_ic (PyStr.strip rule) subject = Raised ReError) ->
  for_rules apply_regex_rule rules name
  = for_rules apply_regex_rule (filter (fun rule => broken rule = false) rules) name.
Proof.
  intros Hbroken. revert name.
  induction rules as [|rule rules IH]; intros name; [done|].
  cbn [for_rules]. rewrite filter_cons. destruct (broken rule) eqn:Hb.
  - rewrite decide_False by done.
    assert (Hskip : apply_regex_rule name rule = Ok name).
    { unfold apply_regex_rule, apply_regex. case_bool_decide; [done|].
      by rewrite Hbroken. }
    rewrite Hskip. apply IH.
  - rewrite decide_True by done. cbn [for_rules].
    destruct (apply_regex_rule name rule); [apply IH | done].
Qed.

(** ** The further properties on concrete folders *)



(** The preview of the folder with [a.txt] and [b.txt]. *)
Lemma names_match_files_witness :
  length (Sample.names ["a.txt"; "b.txt"])
  = length (filtered_files
              (Sample.app [Sample.path ["d"; "a.txt"]; Sample.path ["d"; "b.txt"]]
                 "{name}" false SmartMode "" false false)).
Proof.
  apply (names_match_files (lib := Sample.inert)
           (Sample.app [Sample.path ["d"; "a.txt"]; Sample.path ["d"; "b.txt"]]
              "{name}" false SmartMode "" false false)
           Sample.a_and_b (Sample.names ["a.txt"; "b.txt"])).
  vm_compute. reflexivity.
Defined.


(** The template [{index}] on the folder with [a.txt] and [b.txt]. *)
Lemma index_template_names_differ_witness :
  NoDup (Sample.names ["001.txt"; "002.txt"]).
Proof.
  apply (index_template_names_differ (lib := Sample.inert)
           (Sample.app [Sample.path ["d"; "a.txt"]; Sample.path ["d"; "b.txt"]]
              "{index}" false SmartMode "" false false)
           Sample.a_and_b);
    vm_compute; reflexivity.
Defined.


(** The backup of [a.txt] in the folder that holds nothing else. *)
Lemma backup_copy_is_fresh_witness :
  exists b,
    backup_step Sample.willing
      (Sample.worker [Sample.path ["d"; "a.txt"]] (Sample.names ["x.txt"])
         true false)
      (Sample.path ["d"; "a.txt"]) (Sample.fresh Sample.one_file)
    = Some (Ok tt,
            set_disk (<[b := Sample.file "A"]> Sample.one_file)
              (Sample.fresh Sample.one_file))
    /\ Sample.one_file !! b = None.
Proof.
  destruct (backup_copy_is_fresh Sample.willing
              (Sample.worker [Sample.path ["d"; "a.txt"]] (Sample.names ["x.txt"])
                 true false)
              (Sample.path ["d"; "a.txt"]) (Sample.file "A")
              (Sample.fresh Sample.one_file))
    as (b & Hstep & Hfree & _).
  - reflexivity.
  - vm_compute. reflexivity.
  - intros dst. reflexivity.
  - exists b. split; [exact Hstep | exact Hfree].
Defined.


(** Renaming [b.txt] to the taken name [a.txt] without overwriting: the
    content of [a.txt] is where it was. *)
Lemma without_overwrite_nothing_is_lost_witness :
  exists s',
    run Sample.willing Sample.terminal
      (Sample.worker [Sample.path ["d"; "b.txt"]] (Sample.names ["a.txt"])
         false false)
      (Sample.fresh Sample.a_and_b)
    = Some (Ok tt, s')
    /\ disk s' !! Sample.path ["d"; "a.txt"] = Some (Sample.file "A").
Proof.
  destruct (without_overwrite_nothing_is_lost Sample.willing Sample.terminal
              (Sample.worker [Sample.path ["d"; "b.txt"]] (Sample.names ["a.txt"])
                 false false)
              (Sample.fresh Sample.a_and_b))
    as (s' & Hrun & Hkept & _).
  - reflexivity.
  - exists s'. split; [exact Hrun|].
    apply Hkept; [vm_compute; reflexivity|].
    intros Hin. apply list_elem_of_singleton in Hin. vm_compute in Hin.
    discriminate Hin.
Defined.

(** Renaming [b.txt] to the taken name [a.txt] with overwriting: [a.txt]
    is deleted, and [b.txt] takes its place. *)
Lemma overwrite_deletes_the_target_first_witness :
  (new_path <- resolve_step Sample.willing
                 (Sample.worker [Sample.path ["d"; "b.txt"]]
                    (Sample.names ["a.txt"]) false true)
                 (Sample.path ["d"; "b.txt"]) (Sample.path ["d"; "a.txt"]) ;;
   rename_step Sample.willing (Sample.path ["d"; "b.txt"]) new_path)
    (Sample.fresh Sample.a_and_b)
  = Some (Ok tt,
          {| disk := <[Sample.path ["d"; "a.txt"] := Sample.file "B"]>
                       (delete (Sample.path ["d"; "b.txt"])
                          (delete (Sample.path ["d"; "a.txt"]) Sample.a_and_b));
             signals := []; console := []; success_count := 1 |}).
Proof.
  apply (overwrite_deletes_the_target_first Sample.willing
           (Sample.worker [Sample.path ["d"; "b.txt"]] (Sample.names ["a.txt"])
              false true)
           (Sample.path ["d"; "b.txt"]) (Sample.path ["d"; "a.txt"])
           (Sample.file "B") (Sample.fresh Sample.a_and_b)).
  - reflexivity.
  - vm_compute. reflexivity.
  - exists (Sample.file "A"). vm_compute. reflexivity.
  - vm_compute. discriminate.
  - reflexivity.
Defined.

(** The stem [foo_bar] with the text rule [foo]: the cleaned name is
    [bar]. *)
Lemma cleaned_name_is_tidy_witness :
  length (utf8 "bar") <= length (utf8 "foo_bar")
  /\ (utf8 "bar" = utf8 "foo_bar"
      \/ (tidy (utf8 "bar")
          /\ exists cleaned_name,
               mode_pass (lib := Sample.inert)
                 (Sample.app [] "{name}" true CustomTextMode "foo" false false)
                 (utf8 "foo_bar")
               = Ok cleaned_name
               /\ utf8 "bar" = post_process_cleanup cleaned_name)).
Proof.
  apply (cleaned_name_is_tidy (lib := Sample.inert)
           (Sample.app [] "{name}" true CustomTextMode "foo" false false)
           (utf8 "foo_bar") (utf8 "bar")).
  vm_compute. reflexivity.
Defined.

(** With an engine that compiles no pattern, the rules [(] and [a+] leave
    the name as it is. *)
Lemma uncompilable_rules_are_skipped_witness :
  for_rules (apply_regex_rule (lib := Sample.inert))
    (Sample.names ["("; "a+"]) (utf8 "aa")
  = for_rules (apply_regex_rule (lib := Sample.inert))
      (filter (fun rule => (fun _ : str => true) rule = false)
         (Sample.names ["("; "a+"]))
      (utf8 "aa").
Proof.
  apply (uncompilable_rules_are_skipped (lib := Sample.inert) (fun _ => true)
           (Sample.names ["("; "a+"]) (utf8 "aa")).
  intros rule subject _. reflexivity.
Defined.

(** Two files that both get the name [x.txt], the user going on in spite of
    the conflicts: the worker gets both rows. *)
Lemma conflicts_do_not_filter_the_plan_witness :
  file_list
    (start_rename_process
       (Sample.app [Sample.path ["d"; "a.txt"]; Sample.path ["d"; "b.txt"]] "x"
          false SmartMode "" false false)
       [Sample.path ["d"; "a.txt"]; Sample.path ["d"; "b.txt"]]
       (Sample.names ["x.txt"; "x.txt"]))
  = (checked_rows [true; true]
       (filtered_files
          (Sample.app [Sample.path ["d"; "a.txt"]; Sample.path ["d"; "b.txt"]]
             "x" false SmartMode "" false false))
       (Sample.names ["x.txt"; "x.txt"])).*1.
Proof.
  apply (conflicts_do_not_filter_the_plan (lib := Sample.inert)
           (Sample.app [Sample.path ["d"; "a.txt"]; Sample.path ["d"; "b.txt"]]
              "x" false SmartMode "" false false)
           Sample.a_and_b [true; true]
           {| go_on_with_conflicts := true; confirm_rename := true |}
           (Sample.names ["x.txt"; "x.txt"])
           (start_rename_process
              (Sample.app [Sample.path ["d"; "a.txt"]; Sample.path ["d"; "b.txt"]]
                 "x" false SmartMode "" false false)
              [Sample.path ["d"; "a.txt"]; Sample.path ["d"; "b.txt"]]
              (Sample.names ["x.txt"; "x.txt"])));
    vm_compute; reflexivity.
Defined.

(** The same plan run: both entries are flagged as duplicates, and both
    files are renamed, the second one to [x_1.txt]. *)
Example conflicting_rows_are_renamed :
  check_conflicts
    (Sample.app [Sample.path ["d"; "a.txt"]; Sample.path ["d"; "b.txt"]] "x"
       false SmartMode "" false false)
    Sample.a_and_b (Sample.names ["x.txt"; "x.txt"])
  = {[ 0 := DuplicateName; 1 := DuplicateName ]}
  /\ run Sample.willing Sample.terminal
       (start_rename_process
          (Sample.app [Sample.path ["d"; "a.txt"]; Sample.path ["d"; "b.txt"]]
             "x" false SmartMode "" false false)
          [Sample.path ["d"; "a.txt"]; Sample.path ["d"; "b.txt"]]
          (Sample.names ["x.txt"; "x.txt"]))
       (Sample.fresh Sample.a_and_b)
     = Some (Ok tt,
             {| disk := list_to_map
                          [ (Sample.path ["d"; "x.txt"], Sample.file "A");
                            (Sample.path ["d"; "x_1.txt"], Sample.file "B") ];
                signals := [ progress_updated 50 (utf8 "x.txt");
                             progress_updated 100 (utf8 "x.txt");
                             finished true (Completed 2 2) ];
                console := [];
                success_count := 2 |}).
Proof. split; vm_compute; reflexivity. Qed.

(** ** Sorting *)

Section SortFacts.
Context {A K : Type}.
Variable lt : K -> K -> bool.

Lemma insert_asc_perm (x : K * A) (l : list (K * A)) :
  PySort.insert_asc lt x l ≡ₚ x :: l.
Proof.
  induction l as [|y l IH]; [done|]. cbn [PySort.insert_asc].
  destruct (lt y.1 x.1); [|done]. rewrite IH. apply Permutation_swap.
Qed.

Lemma insert_desc_perm (x : K * A) (l : list (K * A)) :
  PySort.insert_desc lt x l ≡ₚ x :: l.
Proof.
  induction l as [|y l IH]; [done|]. cbn [PySort.insert_desc].
  destruct (lt x.1 y.1); [|done]. rewrite IH. apply Permutation_swap.
Qed.

Lemma sort_decorated_perm (reverse : bool) (d : list (K * A)) :
  PySort.sort_decorated lt reverse d ≡ₚ d.
Proof.
  unfold PySort.sort_decorated. induction d as [|x d IH]; [done|].
  cbn [foldr]. destruct reverse.
  - by rewrite insert_desc_perm, IH.
  - by rewrite insert_asc_perm, IH.
Qed.

Lemma decorate_ok (key : A -> Try K) (l : list A) (d : list (K * A)) :
  PySort.decorate key l = Ok d ->
  d.*2 = l /\ forall k x, (k, x) ∈ d -> key x = Ok k.
Proof.
  revert d. induction l as [|x l IH]; intros d.
  - intros [= <-]. split; [done|]. intros k x Hin. by apply elem_of_nil in Hin.
  - cbn [PySort.decorate]. destruct (key x) as [k|] eqn:Hk; [|done].
    destruct (PySort.decorate key l) as [d'|]; [|done]. intros [= <-].
    destruct (IH d' eq_refl) as [Hsnd Hkeys]. split; [by rewrite fmap_cons, Hsnd|].
    intros k' x' [[= -> ->] | Hin]%elem_of_cons; [done | by apply Hkeys].
Qed.

Lemma decorate_raised (key : A -> Try K) (l : list A) (e : Exn) :
  PySort.decorate key l = Raised e <->
  exists i x, l !! i = Some x /\ key x = Raised e
    /\ forall j y, j < i -> l !! j = Some y -> exists k, key y = Ok k.
Proof.
  induction l as [|x l IH].
  - split; [done|]. by intros (i & x & Hx & _).
  - cbn [PySort.decorate]. destruct (key x) as [k|e'] eqn:Hk.
    + assert (Hshift : (exists i y, (x :: l) !! i = Some y /\ key y = Raised e
                /\ forall j z, j < i -> (x :: l) !! j = Some z -> exists k, key z = Ok k)
              <-> (exists i y, l !! i = Some y /\ key y = Raised e
                /\ forall j z, j < i -> l !! j = Some z -> exists k, key z = Ok k)).
      { split.
        - intros ([|i] & y & Hy & Hraise & Hbefore).
          + injection Hy as <-. congruence.
          + exists i, y. split; [done|]. split; [done|].
            intros j z Hj Hz. apply (Hbefore (S j) z); [lia | done].
        - intros (i & y & Hy & Hraise & Hbefore).
          exists (S i), y. split; [done|]. split; [done|].
          intros [|j] z Hj Hz.
          + injection Hz as <-. eauto.
          + apply (Hbefore j z); [lia | done]. }
      rewrite Hshift, <- IH.
      destruct (PySort.decorate key l) as [d'|e'']; [done|].
      split; congruence.
    + split.
      * intros [= ->]. exists 0, x. split; [done|]. split; [done|]. intros j y Hj. lia.
      * intros ([|i] & y & Hy & Hraise & Hbefore).
        -- injection Hy as <-. congruence.
        -- destruct (Hbefore 0 x) as [k Hk']; [lia | done | congruence].
Qed.

Lemma sort_perm (key : A -> Try K) (reverse : bool) (l sorted : list A) :
  PySort.sort lt key reverse l = Ok sorted -> sorted ≡ₚ l.
Proof.
  unfold PySort.sort. destruct (PySort.decorate key l) as [d|] eqn:Hd; [|done].
  intros [= <-]. apply decorate_ok in Hd as [<- _].
  by rewrite sort_decorated_perm.
Qed.

Lemma decorate_raised_inv (key : A -> Try K) (reverse : bool) (l : list A) (e : Exn) :
  PySort.sort lt key reverse l = Raised e ->
  exists x, x ∈ l /\ key x = Raised e.
Proof.
  unfold PySort.sort. destruct (PySort.decorate key l) as [d|e'] eqn:Hd; [done|].
  intros [= ->]. apply decorate_raised in Hd as (i & x & Hx & Hraise & _).
  exists x. split; [by eapply list_elem_of_lookup_2 | done].
Qed.

End SortFacts.

Lemma swap_perm {A} (i j : nat) (x : list A) : PySort.swap i j x ≡ₚ x.
Proof.
  unfold PySort.swap. destruct (x !! i) as [a|] eqn:Hi; [|done].
  destruct (x !! j) as [b|] eqn:Hj; [|done].
  by apply Permutation_insert_swap.
Qed.

Lemma shuffle_perm {A} (draws : nat -> nat) (x : list A) :
  PySort.shuffle draws x ≡ₚ x.
Proof.
  unfold PySort.shuffle. generalize 0 at 1. generalize (length x - 1).
  intros i. revert x. induction i as [|i IH]; intros x k; [done|].
  cbn [PySort.shuffle_from]. by rewrite IH, swap_perm.
Qed.

Ltac decide_option :=
  repeat match goal with
         | |- context [PyText.contains ?a ?b] =>
             let v := eval vm_compute in (PyText.contains a b) in
             change (PyText.contains a b) with v
         end;
  cbv iota.

(** ** The order of the sorted list *)

Lemma ordered_cons {A} (R : A -> A -> Prop) (x : A) (l : list A) :
  ordered R (x :: l) <-> (forall y, y ∈ l -> R x y) /\ ordered R l.
Proof.
  split.
  - intros Hord. split.
    + intros y [j Hj]%list_elem_of_lookup. apply (Hord 0 (S j)); [lia | done | done].
    + intros i j a b Hij Ha Hb. apply (Hord (S i) (S j)); [lia | done | done].
  - intros [Hhead Hord] [|i] [|j] a b Hij Ha Hb; try lia.
    + injection Ha as <-. apply Hhead. by eapply list_elem_of_lookup_2.
    + by apply (Hord i j); [lia | |].
Qed.

Section Order.
Context {A K : Type}.
Variable lt : K -> K -> bool.
Hypothesis lt_asym : forall a b, lt a b = true -> lt b a = false.
Hypothesis le_trans : forall a b c, lt b a = false -> lt c b = false -> lt c a = false.

Lemma insert_asc_ordered (x : K * A) (l : list (K * A)) :
  ordered (fun a b => lt b.1 a.1 = false) l ->
  ordered (fun a b => lt b.1 a.1 = false) (PySort.insert_asc lt x l).
Proof.
  induction l as [|y l IH]; intros Hord.
  - intros i j a b Hij Ha Hb. destruct i, j; try lia; by destruct j.
  - cbn [PySort.insert_asc]. destruct (lt y.1 x.1) eqn:Hyx.
    + apply ordered_cons in Hord as [Hhead Hord]. apply ordered_cons. split.
      * intros z Hz. rewrite insert_asc_perm in Hz.
        apply elem_of_cons in Hz as [-> | Hz]; [by apply lt_asym | by apply Hhead].
      * by apply IH.
    + apply ordered_cons. split; [|done].
      intros z [-> | Hz]%elem_of_cons; [done|].
      apply ordered_cons in Hord as [Hhead _].
      eapply le_trans; [exact Hyx | by apply Hhead].
Qed.

Lemma insert_desc_ordered (x : K * A) (l : list (K * A)) :
  ordered (fun a b => lt a.1 b.1 = false) l ->
  ordered (fun a b => lt a.1 b.1 = false) (PySort.insert_desc lt x l).
Proof.
  induction l as [|y l IH]; intros Hord.
  - intros i j a b Hij Ha Hb. destruct i, j; try lia; by destruct j.
  - cbn [PySort.insert_desc]. destruct (lt x.1 y.1) eqn:Hxy.
    + apply ordered_cons in Hord as [Hhead Hord]. apply ordered_cons. split.
      * intros z Hz. rewrite insert_desc_perm in Hz.
        apply elem_of_cons in Hz as [-> | Hz]; [by apply lt_asym | by apply Hhead].
      * by apply IH.
    + apply ordered_cons. split; [|done].
      intros z [-> | Hz]%elem_of_cons; [done|].
      apply ordered_cons in Hord as [Hhead _].
      eapply le_trans; [by apply Hhead | exact Hxy].
Qed.

Lemma sort_decorated_ordered (reverse : bool) (d : list (K * A)) :
  ordered (fun a b => key_order lt reverse a.1 b.1)
    (PySort.sort_decorated lt reverse d).
Proof.
  unfold PySort.sort_decorated, key_order. induction d as [|x d IH].
  - intros i j a b Hij Ha. done.
  - cbn [foldr]. destruct reverse.
    + by apply insert_desc_ordered.
    + by apply insert_asc_ordered.
Qed.

Lemma sort_ordered (key : A -> Try K) (reverse : bool) (l sorted : list A) :
  PySort.sort lt key reverse l = Ok sorted ->
  ordered (fun x y => exists kx ky, key x = Ok kx /\ key y = Ok ky
                        /\ key_order lt reverse kx ky) sorted.
Proof.
  unfold PySort.sort. destruct (PySort.decorate key l) as [d|] eqn:Hd; [|done].
  intros [= <-]. apply decorate_ok in Hd as [_ Hkeys].
  intros i j x y Hij Hx Hy.
  apply list_lookup_fmap_Some in Hx as ([kx x'] & -> & Hx).
  apply list_lookup_fmap_Some in Hy as ([ky y'] & -> & Hy).
  exists kx, ky. split_and!.
  - apply Hkeys. rewrite <- (sort_decorated_perm lt reverse d).
    by eapply list_elem_of_lookup_2.
  - apply Hkeys. rewrite <- (sort_decorated_perm lt reverse d).
    by eapply list_elem_of_lookup_2.
  - by apply (sort_decorated_ordered reverse d i j (kx, x') (ky, y')).
Qed.

End Order.

Lemma sort_outcome {A K} (lt : K -> K -> bool) (key : A -> Try K)
    (reverse : bool) (l : list A) :
  match PySort.sort lt key reverse l with
  | Ok _ => forall x, x ∈ l -> exists k, key x = Ok k
  | Raised e => exists x, x ∈ l /\ key x = Raised e
  end.
Proof.
  destruct (PySort.sort lt key reverse l) as [sorted|e] eqn:Hsort.
  - unfold PySort.sort in Hsort.
    destruct (PySort.decorate key l) as [d|] eqn:Hd; [|done].
    apply decorate_ok in Hd as [<- Hkeys].
    intros x ([k x'] & -> & Hin)%list_elem_of_fmap. exists k. by apply Hkeys.
  - by eapply decorate_raised_inv.
Qed.


(** The order of strings. *)

Lemma str_lt_asym (a b : str) :
  PyText.str_lt a b = true -> PyText.str_lt b a = false.
Proof.
  revert b. induction a as [|x a IH]; intros [|y b]; cbn; try done.
  destruct (N.eqb_spec x y) as [-> | Hxy].
  - rewrite N.eqb_refl. apply IH.
  - intros Hlt%N.ltb_lt. rewrite (proj2 (N.eqb_neq y x)) by done.
    apply N.ltb_ge. lia.
Qed.

Lemma str_le_trans (a b c : str) :
  PyText.str_lt b a = false -> PyText.str_lt c b = false ->
  PyText.str_lt c a = false.
Proof.
  revert b c. induction a as [|x a IH]; intros [|y b] [|z c]; cbn; try done.
  destruct (N.eqb_spec y x) as [-> | Hyx].
  - destruct (N.eqb_spec z x) as [-> | Hzx]; [apply IH | done].
  - intros Hyx'%N.ltb_ge. destruct (N.eqb_spec z y) as [-> | Hzy].
    + intros _. rewrite (proj2 (N.eqb_neq y x)) by done. by apply N.ltb_ge.
    + intros Hzy'%N.ltb_ge. destruct (N.eqb_spec z x) as [-> | Hzx]; [lia|].
      apply N.ltb_ge. lia.
Qed.

Section SortedLists.
Context {cases : PyCase}.

Lemma sorting_perm_lemma (settings : FilterSettings)
    (disk : gmap Path File) (file_list sorted : list Path) :
  filter_and_sort_files settings disk file_list = Ok sorted ->
  sorted ≡ₚ filter_by_extension file_list (extension_filter settings).
Proof.
  unfold filter_and_sort_files. destruct file_list as [|f0 files].
  { intros [= <-]. unfold filter_by_extension. by case_bool_decide. }
  repeat (match goal with
          | |- context [if ?b then _ else _] => destruct b
          end; [by (apply sort_perm || (intros [= <-]; apply shuffle_perm))|]).
  by intros [= <-].
Qed.

(** X21: whatever the sort option, the list that [filter_and_sort_files]
    yields holds the files that pass the extension filter, each as often as
    before: sorting and shuffling neither drop, add nor repeat a file. *)
Theorem sorting_keeps_the_files (settings : FilterSettings)
    (disk : gmap Path File) (file_list sorted : list Path) :
  filter_and_sort_files settings disk file_list = Ok sorted ->
  sorted ≡ₚ filter_by_extension file_list (extension_filter settings).
Proof. apply sorting_perm_lemma. Qed.

(** X22: sorting by size puts the files in the order of their sizes on disk,
    the smallest first, or the largest first for the descending option. *)
Theorem size_sort_orders (settings : FilterSettings) (disk : gmap Path File)
    (file_list sorted : list Path) (descending : bool) :
  sort_option settings
    = utf8 (if descending then "文件大小(大到小)" else "文件大小(小到大)") ->
  filter_and_sort_files settings disk file_list = Ok sorted ->
  ordered (fun f g => exists sf sg,
             disk !! f = Some sf /\ disk !! g = Some sg
             /\ if descending then (st_size sg <= st_size sf)%N
                else (st_size sf <= st_size sg)%N) sorted.
Proof.
  intros Hoption. unfold filter_and_sort_files.
  destruct file_list as [|f0 files]; [by intros [= <-] i j x y Hij Hx|].
  rewrite Hoption. destruct descending; decide_option; intros Hsort.
  all: apply (sort_ordered N.ltb) in Hsort; [|intros a b ?%N.ltb_lt; apply N.ltb_ge; lia
         | intros a b c ?%N.ltb_ge ?%N.ltb_ge; apply N.ltb_ge; lia].
  all: intros i j f g Hij Hf Hg;
       destruct (Hsort i j f g Hij Hf Hg) as (kf & kg & Hkf & Hkg & Hord);
       unfold getsize in Hkf, Hkg;
       destruct (disk !! f) as [sf|]; [|done];
       destruct (disk !! g) as [sg|]; [|done];
       injection Hkf as <-; injection Hkg as <-;
       exists sf, sg; split; [done|]; split; [done|];
       unfold key_order in Hord; apply N.ltb_ge in Hord; lia.
Qed.

(** X23: sorting by modification time puts the files in the order of their
    modification times on disk, the newest first or the oldest first as
    the option says. *)
Theorem time_sort_orders (settings : FilterSettings) (disk : gmap Path File)
    (file_list sorted : list Path) (newest_first : bool) :
  sort_option settings
    = utf8 (if newest_first then "修改时间(新到旧)" else "修改时间(旧到新)") ->
  filter_and_sort_files settings disk file_list = Ok sorted ->
  ordered (fun f g => exists sf sg,
             disk !! f = Some sf /\ disk !! g = Some sg
             /\ if newest_first then (st_mtime sg <= st_mtime sf)%Z
                else (st_mtime sf <= st_mtime sg)%Z) sorted.
Proof.
  intros Hoption. unfold filter_and_sort_files.
  destruct file_list as [|f0 files]; [by intros [= <-] i j x y Hij Hx|].
  rewrite Hoption. destruct newest_first; decide_option; intros Hsort.
  all: apply (sort_ordered Z.ltb) in Hsort; [|intros a b ?%Z.ltb_lt; apply Z.ltb_ge; lia
         | intros a b c ?%Z.ltb_ge ?%Z.ltb_ge; apply Z.ltb_ge; lia].
  all: intros i j f g Hij Hf Hg;
       destruct (Hsort i j f g Hij Hf Hg) as (kf & kg & Hkf & Hkg & Hord);
       unfold getmtime in Hkf, Hkg;
       destruct (disk !! f) as [sf|]; [|done];
       destruct (disk !! g) as [sg|]; [|done];
       injection Hkf as <-; injection Hkg as <-;
       exists sf, sg; split; [done|]; split; [done|];
       unfold key_order in Hord; apply Z.ltb_ge in Hord; lia.
Qed.

(** X24: sorting by name never fails, and puts the files in the order of
    their lower-cased names, compared character by character, or in the
    reverse of it: no file comes before one whose key is smaller (greater
    for the descending option). *)
Theorem name_sort_orders (settings : FilterSettings) (disk : gmap Path File)
    (file_list : list Path) (descending : bool) :
  sort_option settings = utf8 (if descending then "文件名(Z-A)" else "文件名(A-Z)") ->
  exists sorted,
    filter_and_sort_files settings disk file_list = Ok sorted
    /\ ordered (fun f g =>
                 let kf := str_lower (PyPath.name f) in
                 let kg := str_lower (PyPath.name g) in
                 if descending then PyText.str_lt kf kg = false
                 else PyText.str_lt kg kf = false) sorted.
Proof.
  intros Hoption. unfold filter_and_sort_files.
  destruct file_list as [|f0 files].
  { exists []. split; [done|]. by intros i j x y Hij Hx. }
  rewrite Hoption.
  destruct descending; decide_option.
  all: match goal with
       | |- exists sorted, ?run = _ /\ _ => destruct run as [sorted|e] eqn:Hsort
       end.
  2,4: exfalso; apply decorate_raised_inv in Hsort; by destruct Hsort as (x & _ & [=]).
  all: exists sorted; split; [done|];
       apply (sort_ordered PyText.str_lt str_lt_asym str_le_trans) in Hsort;
       intros i j f g Hij Hf Hg;
       destruct (Hsort i j f g Hij Hf Hg) as (kf & kg & [= <-] & [= <-] & Hord);
       unfold key_order in Hord; cbv zeta; done.
Qed.

(** X25: the sorts by size and by modification time read every file that
    passes the filter: they succeed when all of these are on disk, and
    raise [FileNotFoundError] when one of them is gone. *)
Theorem stat_sorts_need_the_files (settings : FilterSettings)
    (disk : gmap Path File) (file_list : list Path) :
  sort_option settings ∈ utf8 <$> [ "修改时间(新到旧)"; "修改时间(旧到新)";
                                    "文件大小(大到小)"; "文件大小(小到大)" ] ->
  let filtered := filter_by_extension file_list (extension_filter settings) in
  match filter_and_sort_files settings disk file_list with
  | Ok _ => forall f, f ∈ filtered -> is_Some (disk !! f)
  | Raised e => e = FileNotFoundError /\ exists f, f ∈ filtered /\ disk !! f = None
  end.
Proof.
  intros Hoption filtered. unfold filter_and_sort_files.
  destruct file_list as [|f0 files].
  { intros f Hf. unfold filtered, filter_by_extension in Hf.
    case_bool_decide; by apply elem_of_nil in Hf. }
  fold filtered. cbn [fmap list_fmap] in Hoption.
  repeat (apply elem_of_cons in Hoption as [-> | Hoption]);
    [| | | |by apply elem_of_nil in Hoption]; decide_option.
  1,2: pose proof (sort_outcome Z.ltb (getmtime disk)) as Hout.
  3,4: pose proof (sort_outcome N.ltb (getsize disk)) as Hout.
  all: match goal with
       | |- match PySort.sort ?lt ?key ?rev ?l with _ => _ end =>
           specialize (Hout rev l); destruct (PySort.sort lt key rev l) as [sorted|e]
       end.
  all: try (intros f Hf; destruct (Hout f Hf) as [k Hk];
            unfold getmtime, getsize in Hk; by destruct (disk !! f)).
  all: destruct Hout as (f & Hf & Hraise); unfold getmtime, getsize in Hraise;
       destruct (disk !! f) eqn:Hdisk; [done|]; injection Hraise as <-;
       split; [done|]; by exists f.
Qed.

End SortedLists.

(** ** The natural sort *)

Lemma forallb_reverse_cons (p : N -> bool) (c : N) (cur : str) :
  forallb p (reverse (c :: cur)) = forallb p (reverse cur) && p c.
Proof. rewrite reverse_cons, forallb_app. cbn. by rewrite andb_true_r. Qed.

Lemma reverse_cons_nonempty (c : N) (cur : str) : reverse (c :: cur) <> [].
Proof.
  rewrite reverse_cons. intros Heq. apply (f_equal length) in Heq.
  rewrite length_app in Heq. cbn in Heq. lia.
Qed.

Lemma isdigit_decimal (s : str) :
  s <> [] -> forallb PyText.isdecimal s = true -> PyText.isdigit s = true.
Proof.
  intros Hne Hall.
  assert (Hdigits : forallb PyText.isdigit_char s = true).
  { clear Hne. induction s as [|c s IH]; [done|]. cbn [forallb] in *.
    apply andb_true_iff in Hall as [Hc Hs]. rewrite IH by done.
    unfold PyText.isdigit_char. by rewrite Hc. }
  by destruct s.
Qed.

Lemma int_of_raises (text : str) (e : Exn) :
  PyText.int_of text = Raised e -> e = ValueError.
Proof.
  unfold PyText.int_of. destruct (4300 <? length text); [by intros [= <-]|].
  destruct (PyText.decimal_number 0 text); [done | by intros [= <-]].
Qed.

(** A piece of a name that is a run of digits becomes a number, a piece
    without digits becomes a text, when they become anything. *)
Lemma part_of_run (text : str) (rest : list str) (parts : list PySort.Part) :
  text <> [] -> forallb PyText.isdecimal text = true ->
  parts_of (text :: rest) = Ok parts ->
  exists n parts', parts = PySort.Num n :: parts' /\ parts_of rest = Ok parts'.
Proof.
  intros Hne Hall. cbn [parts_of]. rewrite isdigit_decimal by done.
  destruct (PyText.int_of text) as [n|]; [|done].
  destruct (parts_of rest) as [parts'|]; [|done]. intros [= <-]. eauto.
Qed.

Lemma part_of_gap (text : str) (rest : list str) (parts : list PySort.Part) :
  forallb (fun c => negb (PyText.isdecimal c)) text = true ->
  parts_of (text :: rest) = Ok parts ->
  exists parts', parts = PySort.Text text :: parts' /\ parts_of rest = Ok parts'.
Proof.
  intros Hall. cbn [parts_of].
  destruct (PyText.isdigit text) eqn:Hdigit.
  - unfold PyText.int_of. destruct (4300 <? length text); [done|].
    destruct text as [|c text]; [done|].
    cbn [forallb] in Hall. apply andb_true_iff in Hall as [Hc _].
    apply negb_true_iff in Hc. unfold PyText.isdecimal in Hc.
    apply bool_decide_eq_false_1 in Hc.
    cbn [PyText.decimal_number].
    destruct (PyStr.decimal c); [by destruct Hc | done].
  - destruct (parts_of rest) as [parts'|]; [|done]. intros [= <-]. eauto.
Qed.

Lemma split_digits_go_parts (s : str) :
  forall (in_digits : bool) (cur : str) (parts : list PySort.Part),
    (if in_digits
     then reverse cur <> [] /\ forallb PyText.isdecimal (reverse cur) = true
     else forallb (fun c => negb (PyText.isdecimal c)) (reverse cur) = true) ->
    parts_of (PyText.split_digits_go in_digits cur s) = Ok parts ->
    alternating (negb in_digits) parts = true.
Proof.
  induction s as [|c s IH]; intros in_digits cur parts Hcur Hparts.
  - cbn [PyText.split_digits_go] in Hparts. destruct in_digits.
    + destruct Hcur as [Hne Hall].
      apply part_of_run in Hparts as (n & parts' & -> & Hrest); [|done..].
      apply (part_of_gap []) in Hrest as (parts'' & -> & [= <-]); done.
    + apply part_of_gap in Hparts as (parts' & -> & [= <-]); done.
  - cbn [PyText.split_digits_go] in Hparts.
    destruct (PyText.isdecimal c) eqn:Hc, in_digits.
    + apply (IH true (c :: cur)); [|done]. destruct Hcur as [_ Hall].
      split; [apply reverse_cons_nonempty|].
      by rewrite forallb_reverse_cons, Hall, Hc.
    + apply part_of_gap in Hparts as (parts' & -> & Hrest); [|done].
      cbn [alternating negb andb].
      apply (IH true [c]); [|done]. cbn. by rewrite Hc.
    + destruct Hcur as [Hne Hall].
      apply part_of_run in Hparts as (n & parts' & -> & Hrest); [|done..].
      cbn [alternating negb andb].
      apply (IH false [c]); [|done]. cbn. by rewrite Hc.
    + apply (IH false (c :: cur)); [|done].
      by rewrite forallb_reverse_cons, Hcur, Hc.
Qed.

Lemma parts_of_raises (texts : list str) (e : Exn) :
  parts_of texts = Raised e ->
  e = ValueError
  /\ exists text, text ∈ texts /\ PyText.isdigit text = true
       /\ PyText.int_of text = Raised ValueError.
Proof.
  induction texts as [|text texts IH]; [done|]. cbn [parts_of].
  destruct (PyText.isdigit text) eqn:Hdigit.
  - destruct (PyText.int_of text) as [n|e'] eqn:Hint.
    + destruct (parts_of texts) as [ps|e'']; [done|]. intros [= ->].
      destruct (IH eq_refl) as (-> & t & Hin & Ht). split; [done|].
      exists t. split; [by right | done].
    + intros [= ->]. pose proof (int_of_raises _ _ Hint) as ->.
      split; [done|]. exists text. split; [by left | done].
  - destruct (parts_of texts) as [ps|e'']; [done|]. intros [= ->].
    destruct (IH eq_refl) as (-> & t & Hin & Ht). split; [done|].
    exists t. split; [by right | done].
Qed.

Lemma alternating_compare (text_next : bool) (a b : list PySort.Part) :
  alternating text_next a = true -> alternating text_next b = true ->
  exists r, PySort.parts_lt a b = Ok r.
Proof.
  revert text_next b. induction a as [|x a IH]; intros text_next [|y b] Ha Hb;
    cbn [PySort.parts_lt]; eauto.
  - destruct x; eauto.
  - destruct x as [s|n], y as [t|m], text_next; cbn in Ha, Hb; try done.
    + case_bool_decide; [by eapply IH | eauto].
    + destruct (n =? m)%N; [by eapply IH | eauto].
Qed.

Section NaturalSort.
Context {cases : PyCase}.

Lemma natural_key_alternates (filename : Path) (key : list PySort.Part) :
  natural_sort_key filename = Ok key -> alternating true key = true.
Proof.
  unfold natural_sort_key, PyText.split_digits.
  by apply (split_digits_go_parts _ false []).
Qed.

(** X26: two keys of the natural sort can always be compared: a key starts
    with a text and then numbers and texts take turns, so that a text is
    never compared with a number and [TypeError] cannot occur. What can
    occur is a [ValueError] while a key is made: a piece of the lower-cased
    name that [isdigit] accepts and [int] rejects, a superscript digit
    between runs of decimal digits for instance, makes the key raise. *)
Theorem natural_keys_compare (f g : Path) :
  (forall kf kg,
     natural_sort_key f = Ok kf -> natural_sort_key g = Ok kg ->
     alternating true kf = true /\ exists r, PySort.parts_lt kf kg = Ok r)
  /\ (forall e,
        natural_sort_key f = Raised e ->
        e = ValueError
        /\ exists text,
             text ∈ PyText.split_digits (str_lower (PyPath.name f))
             /\ PyText.isdigit text = true
             /\ PyText.int_of text = Raised ValueError).
Proof.
  split.
  - intros kf kg Hf%natural_key_alternates Hg%natural_key_alternates.
    split; [done|]. by eapply alternating_compare.
  - intros e. unfold natural_sort_key. apply parts_of_raises.
Qed.

End NaturalSort.

(** In a folder that holds [²1.txt], the natural sort raises: the piece
    [²] before the run [1] is a digit for [isdigit] and not one for [int].
    The sort by name puts the same folder in order. *)
Example natural_sort_superscript :
  filter_and_sort_files (cases := Plain.cases)
    (Plain.settings "" "文件名(自然排序)")
    (list_to_map [ (Sample.path ["d"; "²1.txt"], Sample.file "A");
                   (Sample.path ["d"; "a.txt"], Sample.file "B") ])
    [Sample.path ["d"; "²1.txt"]; Sample.path ["d"; "a.txt"]]
  = Raised ValueError
  /\ filter_and_sort_files (cases := Plain.cases)
       (Plain.settings "" "文件名(A-Z)")
       (list_to_map [ (Sample.path ["d"; "²1.txt"], Sample.file "A");
                      (Sample.path ["d"; "a.txt"], Sample.file "B") ])
       [Sample.path ["d"; "²1.txt"]; Sample.path ["d"; "a.txt"]]
     = Ok [Sample.path ["d"; "a.txt"]; Sample.path ["d"; "²1.txt"]].
Proof. split; vm_compute; reflexivity. Qed.

(** ** From the folder to the preview *)

Lemma scan_files_spec (self : BatchRenameApp) (disk : gmap Path File)
    (file_list : list Path) :
  current_folder self <> [] ->
  NoDup (scan_files self disk file_list)
  /\ forall p, p ∈ scan_files self disk file_list <->
       is_Some (disk !! p) /\ exists n, p = current_folder self ++ [n].
Proof.
  intros Hfolder. unfold scan_files.
  destruct (current_folder self) as [|c folder] eqn:Heq; [done|]. split.
  - apply NoDup_filter, NoDup_elements.
  - intros p. rewrite list_elem_of_filter, elem_of_elements, elem_of_dom.
    split.
    + intros [[n Hn] Hp]. split; [done|]. exists n. by apply child_name_spec.
    + intros [Hp [n Hn]]. split; [|done]. exists n. by apply child_name_spec.
Qed.

Section Preview.
Context {cases : PyCase}.

(** X27: after a scan, whatever the extension filter, and for each of the
    sort options by modification time, name, size, type or extension and
    for the random order, [filter_and_sort_files] succeeds, and the list it
    yields for the preview has no file twice and only files that are on
    disk, directly in the current folder. *)
Theorem preview_lists_the_folder (self : BatchRenameApp)
    (settings : FilterSettings) (disk : gmap Path File) (old_list : list Path) :
  current_folder self <> [] ->
  sort_option settings
    ∈ utf8 <$> [ "修改时间(新到旧)"; "修改时间(旧到新)";
                 "文件名(A-Z)"; "文件名(Z-A)";
                 "文件大小(大到小)"; "文件大小(小到大)";
                 "文件类型(A-Z)"; "文件类型(Z-A)";
                 "文件扩展名(A-Z)"; "文件扩展名(Z-A)";
                 "随机排序" ] ->
  exists filtered_files,
    filter_and_sort_files settings disk (scan_files self disk old_list)
    = Ok filtered_files
    /\ NoDup filtered_files
    /\ forall p, p ∈ filtered_files ->
         is_Some (disk !! p) /\ exists n, p = current_folder self ++ [n].
Proof.
  intros Hfolder Hoption.
  destruct (scan_files_spec self disk old_list Hfolder) as [Hnd Hscan].
  set (file_list := scan_files self disk old_list) in *.
  assert (Hfiltered : NoDup (filter_by_extension file_list (extension_filter settings))
            /\ forall p, p ∈ filter_by_extension file_list (extension_filter settings) ->
                 p ∈ file_list).
  { unfold filter_by_extension. case_bool_decide; [done|]. split.
    - by apply NoDup_filter.
    - intros p Hp. by apply list_elem_of_filter in Hp as [_ ?]. }
  destruct Hfiltered as [Hnd' Hsub].
  assert (Hok : exists sorted,
            filter_and_sort_files settings disk file_list = Ok sorted).
  { destruct (filter_and_sort_files settings disk file_list) as [sorted|e] eqn:Hrun;
      [by eexists|]. exfalso. unfold filter_and_sort_files in Hrun.
    destruct file_list as [|f0 files] eqn:Hfiles; [done|]. rewrite <- Hfiles in *.
    cbn [fmap list_fmap] in Hoption.
    repeat (apply elem_of_cons in Hoption as [Hopt | Hoption];
            [rewrite Hopt in Hrun; revert Hrun; decide_option; intros Hrun;
             try done;
             apply decorate_raised_inv in Hrun as (x & Hx & Hraise);
             try done;
             unfold getmtime, getsize in Hraise;
             apply Hsub, Hscan in Hx as [[st Hst] _]; by rewrite Hst in Hraise|]).
    by apply elem_of_nil in Hoption. }
  destruct Hok as [sorted Hsorted]. exists sorted. split; [done|].
  pose proof (sorting_perm_lemma settings disk file_list sorted Hsorted) as Hperm.
  split.
  - by rewrite Hperm.
  - intros p Hp. rewrite Hperm in Hp. by apply Hscan, Hsub.
Qed.

End Preview.

(** ** The numeric sort *)

Lemma list_lt_asym (a b : list N) :
  PySort.list_lt a b = true -> PySort.list_lt b a = false.
Proof. apply str_lt_asym. Qed.

Lemma list_le_trans (a b c : list N) :
  PySort.list_lt b a = false -> PySort.list_lt c b = false ->
  PySort.list_lt c a = false.
Proof. apply str_le_trans. Qed.

Lemma decimal_number_defined (s : str) :
  forallb PyText.isdecimal s = true ->
  forall acc, is_Some (PyText.decimal_number acc s).
Proof.
  induction s as [|c s IH]; intros Hall acc; [by eexists|].
  cbn [forallb] in Hall. apply andb_true_iff in Hall as [Hc Hall].
  unfold PyText.isdecimal in Hc. apply bool_decide_eq_true_1 in Hc as [d Hd].
  cbn [PyText.decimal_number]. rewrite Hd. by apply IH.
Qed.

Lemma int_of_defined (s : str) :
  forallb PyText.isdecimal s = true -> length s <= 4300 ->
  exists n, PyText.int_of s = Ok n.
Proof.
  intros Hall Hlen. unfold PyText.int_of.
  rewrite (proj2 (Nat.ltb_ge 4300 (length s))) by done.
  destruct (decimal_number_defined s Hall 0%N) as [n ->]. by exists n.
Qed.

Lemma findall_digits_go_runs (s : str) :
  forall (cur : option str) (run : str),
    match cur with
    | Some r => r <> [] /\ forallb PyText.isdecimal (reverse r) = true
    | None => True
    end ->
    run ∈ PyText.findall_digits_go cur s ->
    run <> [] /\ forallb PyText.isdecimal run = true
    /\ length run <= length (default [] cur) + length s.
Proof.
  induction s as [|c s IH]; intros cur run Hcur Hin.
  - cbn [PyText.findall_digits_go] in Hin. destruct cur as [r|].
    + apply list_elem_of_singleton in Hin as ->. destruct Hcur as [Hne Hall].
      split_and!; [|done|].
      * intros Hnil. apply Hne. apply (f_equal reverse) in Hnil.
        by rewrite reverse_involutive in Hnil.
      * rewrite length_reverse. cbn. lia.
    + by apply elem_of_nil in Hin.
  - cbn [PyText.findall_digits_go] in Hin.
    destruct (PyText.isdecimal c) eqn:Hc.
    + apply IH in Hin as (Hne & Hall & Hlen).
      * split_and!; [done..|]. cbn in *. lia.
      * split; [done|]. rewrite forallb_reverse_cons, Hc.
        destruct cur as [r|]; cbn [default from_option id]; [|done].
        by rewrite (proj2 Hcur).
    + destruct cur as [r|].
      * apply elem_of_cons in Hin as [-> | Hin].
        -- destruct Hcur as [Hne Hall]. split_and!; [|done|].
           ++ intros Hnil. apply Hne. apply (f_equal reverse) in Hnil.
              by rewrite reverse_involutive in Hnil.
           ++ rewrite length_reverse. cbn. lia.
        -- apply IH in Hin as (Hne & Hall & Hlen); [|done].
           split_and!; [done..|]. cbn in *. lia.
      * apply IH in Hin as (Hne & Hall & Hlen); [|done].
        split_and!; [done..|]. cbn in *. lia.
Qed.

Lemma ints_of_defined (numbers : list str) :
  (forall n, n ∈ numbers -> forallb PyText.isdecimal n = true /\ length n <= 4300) ->
  exists values, ints_of numbers = Ok values.
Proof.
  induction numbers as [|n numbers IH]; intros Hall; [by eexists|].
  cbn [ints_of]. destruct (Hall n) as [Hdec Hlen]; [by left|].
  destruct (int_of_defined n Hdec Hlen) as [v ->].
  destruct IH as [vs ->]; [|by eexists].
  intros m Hm. apply Hall. by right.
Qed.

Lemma extract_numbers_defined (filename : Path) :
  length (PyPath.name filename) <= 4300 ->
  exists key, extract_numbers filename = Ok key.
Proof.
  intros Hlen. unfold extract_numbers, PyText.findall_digits.
  destruct (PyText.findall_digits_go None (PyPath.name filename))
    as [|n numbers] eqn:Hruns; [by eexists|].
  apply ints_of_defined. intros m Hm. rewrite <- Hruns in Hm.
  apply findall_digits_go_runs in Hm as (_ & Hall & Hlen'); [|done].
  split; [done|]. cbn in Hlen'. lia.
Qed.

Section NumericSort.
Context {cases : PyCase}.

(** X28: the sort by the numbers in the names returns whenever no name has
    more than 4300 characters, and puts the files in the order of the
    lists of numbers that their names hold (the list [[0]] for a name
    without digits): no file comes before one whose list is smaller. *)
Theorem numeric_sort_orders (settings : FilterSettings) (disk : gmap Path File)
    (file_list : list Path) :
  sort_option settings = utf8 "文件名(数字排序)" ->
  (forall f, f ∈ file_list -> length (PyPath.name f) <= 4300) ->
  exists sorted,
    filter_and_sort_files settings disk file_list = Ok sorted
    /\ ordered (fun f g => exists kf kg,
                 extract_numbers f = Ok kf /\ extract_numbers g = Ok kg
                 /\ PySort.list_lt kg kf = false) sorted.
Proof.
  intros Hoption Hshort. unfold filter_and_sort_files.
  destruct file_list as [|f0 files] eqn:Hfiles.
  { exists []. split; [done|]. by intros i j x y Hij Hx. }
  rewrite <- Hfiles in *. rewrite Hoption. decide_option.
  destruct (PySort.sort _ _ _ _) as [sorted|e] eqn:Hsort.
  - exists sorted. split; [done|].
    apply (sort_ordered PySort.list_lt list_lt_asym list_le_trans) in Hsort.
    intros i j f g Hij Hf Hg.
    destruct (Hsort i j f g Hij Hf Hg) as (kf & kg & Hkf & Hkg & Hord).
    by exists kf, kg.
  - exfalso. apply decorate_raised_inv in Hsort as (x & Hx & Hraise).
    destruct (extract_numbers_defined x) as [key Hkey]; [|congruence].
    apply Hshort. unfold filter_by_extension in Hx.
    case_bool_decide; [done|]. by apply list_elem_of_filter in Hx as [_ ?].
Qed.

End NumericSort.

(** The files [f10.txt] and [f9.txt] by their numbers: [f9.txt] comes
    first; by name it is [f10.txt]. *)
Lemma numeric_sort_orders_witness :
  exists sorted,
    filter_and_sort_files (cases := Plain.cases)
      (Plain.settings "" "文件名(数字排序)") ∅
      [Sample.path ["d"; "f10.txt"]; Sample.path ["d"; "f9.txt"]]
    = Ok sorted
    /\ sorted !! 0 = Some (Sample.path ["d"; "f9.txt"]).
Proof.
  destruct (numeric_sort_orders (cases := Plain.cases)
              (Plain.settings "" "文件名(数字排序)") ∅
              [Sample.path ["d"; "f10.txt"]; Sample.path ["d"; "f9.txt"]])
    as (sorted & Hrun & _).
  - vm_compute. reflexivity.
  - intros f Hf. apply elem_of_cons in Hf as [-> | Hf];
      [|apply list_elem_of_singleton in Hf; subst f]; vm_compute; lia.
  - exists sorted. split; [exact Hrun|].
    assert (Hsorted : filter_and_sort_files (cases := Plain.cases)
                        (Plain.settings "" "文件名(数字排序)") ∅
                        [Sample.path ["d"; "f10.txt"]; Sample.path ["d"; "f9.txt"]]
                      = Ok [Sample.path ["d"; "f9.txt"];
                            Sample.path ["d"; "f10.txt"]])
      by (vm_compute; reflexivity).
    rewrite Hsorted in Hrun. injection Hrun as <-. reflexivity.
Defined.

(** ** Sorting a concrete folder *)

(** The folder of [Plain], sorted by size: [b.txt] comes first. *)
Lemma sorting_keeps_the_files_witness :
  [Plain.b_txt; Plain.a_txt]
  ≡ₚ filter_by_extension (cases := Plain.cases) [Plain.a_txt; Plain.b_txt]
       (extension_filter (Plain.settings "txt" "文件大小(小到大)")).
Proof.
  apply (sorting_keeps_the_files (cases := Plain.cases)
           (Plain.settings "txt" "文件大小(小到大)") Plain.folder
           [Plain.a_txt; Plain.b_txt] [Plain.b_txt; Plain.a_txt]).
  vm_compute. reflexivity.
Defined.

Lemma size_sort_orders_witness :
  exists sf sg,
    Plain.folder !! Plain.b_txt = Some sf
    /\ Plain.folder !! Plain.a_txt = Some sg
    /\ (st_size sf <= st_size sg)%N.
Proof.
  apply (size_sort_orders (cases := Plain.cases)
           (Plain.settings "" "文件大小(小到大)") Plain.folder
           [Plain.a_txt; Plain.b_txt] [Plain.b_txt; Plain.a_txt] false
           ltac:(vm_compute; reflexivity) ltac:(vm_compute; reflexivity)
           0 1 Plain.b_txt Plain.a_txt);
    [lia | reflexivity | reflexivity].
Defined.

(** The same folder, the newest file first: [b.txt] again. *)
Lemma time_sort_orders_witness :
  exists sf sg,
    Plain.folder !! Plain.b_txt = Some sf
    /\ Plain.folder !! Plain.a_txt = Some sg
    /\ (st_mtime sg <= st_mtime sf)%Z.
Proof.
  apply (time_sort_orders (cases := Plain.cases)
           (Plain.settings "" "修改时间(新到旧)") Plain.folder
           [Plain.a_txt; Plain.b_txt] [Plain.b_txt; Plain.a_txt] true
           ltac:(vm_compute; reflexivity) ltac:(vm_compute; reflexivity)
           0 1 Plain.b_txt Plain.a_txt);
    [lia | reflexivity | reflexivity].
Defined.

(** The same folder by name, from Z to A. *)
Lemma name_sort_orders_witness :
  exists sorted,
    filter_and_sort_files (cases := Plain.cases)
      (Plain.settings "" "文件名(Z-A)") Plain.folder [Plain.a_txt; Plain.b_txt]
    = Ok sorted.
Proof.
  destruct (name_sort_orders (cases := Plain.cases)
              (Plain.settings "" "文件名(Z-A)") Plain.folder
              [Plain.a_txt; Plain.b_txt] true)
    as (sorted & Hrun & _).
  - vm_compute. reflexivity.
  - exists sorted. exact Hrun.
Defined.

(** A list that names [c.txt], which is not in the folder: the sort by
    size raises. *)
Lemma stat_sorts_need_the_files_witness :
  exists f,
    f ∈ filter_by_extension (cases := Plain.cases) [Plain.a_txt; Plain.c_txt]
          (extension_filter (Plain.settings "" "文件大小(小到大)"))
    /\ Plain.folder !! f = None.
Proof.
  assert (Hoption : sort_option (Plain.settings "" "文件大小(小到大)")
                    ∈ utf8 <$> [ "修改时间(新到旧)"; "修改时间(旧到新)";
                                 "文件大小(大到小)"; "文件大小(小到大)" ]).
  { vm_compute. do 3 right. left. }
  pose proof (stat_sorts_need_the_files (cases := Plain.cases)
                (Plain.settings "" "文件大小(小到大)") Plain.folder
                [Plain.a_txt; Plain.c_txt] Hoption) as Hsort.
  assert (Hrun : filter_and_sort_files (cases := Plain.cases)
                   (Plain.settings "" "文件大小(小到大)") Plain.folder
                   [Plain.a_txt; Plain.c_txt]
                 = Raised FileNotFoundError) by (vm_compute; reflexivity).
  cbv zeta in Hsort. rewrite Hrun in Hsort. exact (proj2 Hsort).
Defined.

(** The folder of [Plain] scanned, filtered by [txt] and sorted by name. *)
Lemma preview_lists_the_folder_witness :
  exists filtered_files,
    filter_and_sort_files (cases := Plain.cases)
      (Plain.settings "txt" "文件名(Z-A)") Plain.folder
      (scan_files (Sample.app [] "{name}" false SmartMode "" false false)
         Plain.folder [])
    = Ok filtered_files
    /\ NoDup filtered_files.
Proof.
  destruct (preview_lists_the_folder (cases := Plain.cases)
              (Sample.app [] "{name}" false SmartMode "" false false)
              (Plain.settings "txt" "文件名(Z-A)") Plain.folder [])
    as (filtered_files & Hrun & Hnd & _).
  - vm_compute. discriminate.
  - vm_compute. do 3 right. left.
  - exists filtered_files. split; [exact Hrun | exact Hnd].
Defined.
